(** * A retrieval-augmented question-answering pipeline, verified

    Shallow embedding of the four scripts of the repository:
    - [generate_embeddings.py]: chunking and per-chunk embedding;
    - [vector_store.py]: loading the cache and building the vector index;
    - [retrieval.py]: embedding a query and querying the index;
    - [rag_tool.py]: assembling an answer from retrieved chunks.

    The scripts talk to a console, to the OpenAI service and to a Qdrant
    server.  Those are modelled by an explicit [world] that is threaded
    through every function: what was printed, which requests were sent, and
    what the Qdrant server stores.  What the services answer is given by
    oracles, the [Variable]s of each section. *)

From Stdlib Require Import Floats Ascii String Sorted.
From stdpp Require Import gmap strings list pretty.

Local Open Scope string_scope.
Local Open Scope Z_scope.
Local Open Scope list_scope.

(** ** Python values *)

(** An embedding is a Python list of floats. *)
Definition embedding : Type := list float.

(** Objects whose shape is only known at run time: what unpickling the cache
    yields, and what sits in the payload of a point.  Dictionaries keep their
    insertion order and have string keys. *)
#[warnings="-register-all"]
Inductive pyval : Type :=
| PyNone
| PyBool (b : bool)
| PyInt (z : Z)
| PyFloat (f : float)
| PyStr (s : string)
| PyList (l : list pyval)
| PyDict (d : list (string * pyval)).

(** Exceptions derived from [Exception]: the class name and [str(e)]. *)
Record exn := Exn { exn_class : string; exn_text : string }.

(** ** Outcomes *)

(** A call returns, raises an [Exception], or leaves through [exit()].
    [exit()] raises [SystemExit], which is no [Exception]: an
    [except Exception] clause does not catch it. *)
Inductive outcome (A : Type) : Type :=
| Returns (a : A)
| Raises (e : exn)
| Exits.
Arguments Returns {A} a.
Arguments Raises {A} e.
Arguments Exits {A}.

(** What a remote service does with a request: it answers or the call raises. *)
Inductive reply (A : Type) : Type :=
| Answer (a : A)
| Failure (e : exn).
Arguments Answer {A} a.
Arguments Failure {A} e.

(** ** The console *)

(** One constructor per [print] statement of the scripts, with the values the
    statement interpolates.  [render] gives the printed text. *)
Inductive message : Type :=
(* generate_embeddings.py *)
| NoTextForChunking
| ChunkingText (size overlap : Z)
| SplitIntoChunks (n : nat)
| NoChunksProvided
| EmbeddingBanner
| GeneratingEmbeddings (n : nat) (model : string)
| GeneratedEmbedding (i n : nat)
| ErrorGeneratingEmbedding (i : nat) (e : exn)
| EmbeddingComplete
| SuccessfullyGenerated (n : nat)
| EmbeddingFailedOrEmpty
(* vector_store.py *)
| VectorStoreBanner
| LoadingCache (path : string)
| LoadedItems (n : nat)
| DetectedDimension (d : nat)
| UnexpectedFormat
| ErrorLoadingPickle (e : exn)
| CacheNotFound (path : string)
| ExitingNoData
| ConnectingQdrant (host : string) (port : Z)
| ConnectedQdrant
| ErrorConnecting (e : exn)
| EnsureQdrantRunning
| AttemptingCreate (name : string)
| CollectionCreated (name : string)
| ErrorCreating (e : exn)
| DimensionMismatch (name : string) (existing wanted : nat)
| AlreadyExists (name : string)
| CouldNotVerify (e : exn)
| SkippingItem (i : nat)
| NoValidPoints
| PreparingUpsert (n : nat) (name : string)
| UpsertedBatch (k total : nat)
| ErrorUpsertingBatch (i : nat) (e : exn)
| SetupComplete
| CollectionContains (name : string) (count : nat)
| CouldNotCount (e : exn)
(* retrieval.py *)
| QueryTextEmpty
| Retrieving (top_k : Z) (query_prefix : string)
| FoundResults (n : nat)
| ErrorDuringRetrieval (e : exn)
(* rag_tool.py *)
| ErrorGeneratingAnswer (e : exn).

Definition nl : string := String (ascii_of_nat 10) "".

Definition render (m : message) : string :=
  match m with
  | NoTextForChunking => "Error: No text provided for chunking."
  | ChunkingText size overlap =>
      "Chunking text with chunk_size=" +:+ pretty size +:+ ", chunk_overlap="
        +:+ pretty overlap +:+ "..."
  | SplitIntoChunks n =>
      "Successfully split text into " +:+ pretty n +:+ " chunks."
  | NoChunksProvided => "No chunks provided for embedding."
  | EmbeddingBanner =>
      nl +:+ nl +:+ "---------------------------- Embedding ----------------------------"
  | GeneratingEmbeddings n model =>
      "Generating embeddings for " +:+ pretty n +:+ " chunks using model '"
        +:+ model +:+ "'..."
  | GeneratedEmbedding i n =>
      "Generated embedding for chunk " +:+ pretty i +:+ "/" +:+ pretty n
  | ErrorGeneratingEmbedding i e =>
      "Error generating embedding for chunk " +:+ pretty i +:+ ": " +:+ exn_text e
  | EmbeddingComplete => "Embedding generation complete."
  | SuccessfullyGenerated n =>
      "Successfully generated " +:+ pretty n +:+ " embeddings."
  | EmbeddingFailedOrEmpty => "Embedding generation failed or yielded no results."
  | VectorStoreBanner => "--- Vector Store Setup Script ---"
  | LoadingCache path => nl +:+ "Loading cached data from: " +:+ path
  | LoadedItems n => "Successfully loaded " +:+ pretty n +:+ " items from cache."
  | DetectedDimension d => "Detected embedding dimension: " +:+ pretty d
  | UnexpectedFormat => "Error: Loaded data is not in the expected format."
  | ErrorLoadingPickle e => "Error loading data from pickle file: " +:+ exn_text e
  | CacheNotFound path =>
      "Error: Cache file not found at " +:+ path +:+ ". Cannot proceed."
  | ExitingNoData => "Exiting script because data could not be loaded."
  | ConnectingQdrant host port =>
      nl +:+ "Connecting to Qdrant at " +:+ host +:+ ":" +:+ pretty port +:+ "..."
  | ConnectedQdrant => "Successfully connected to Qdrant."
  | ErrorConnecting e => "Error connecting to Qdrant: " +:+ exn_text e
  | EnsureQdrantRunning => "Please ensure Qdrant is running and accessible."
  | AttemptingCreate name =>
      nl +:+ "Attempting to create or recreate collection: '" +:+ name +:+ "'"
  | CollectionCreated name => "Collection '" +:+ name +:+ "' created successfully."
  | ErrorCreating e => "Error creating Qdrant collection: " +:+ exn_text e
  | DimensionMismatch name existing wanted =>
      "Error: Existing collection '" +:+ name +:+ "' has dimension "
        +:+ pretty existing +:+ ", but data has dimension " +:+ pretty wanted +:+ "."
  | AlreadyExists name =>
      "Collection '" +:+ name
        +:+ "' already exists with correct dimension. Will upsert data."
  | CouldNotVerify e => "Could not verify existing collection: " +:+ exn_text e
  | SkippingItem i =>
      "Warning: Skipping item " +:+ pretty i +:+ " due to invalid embedding."
  | NoValidPoints => nl +:+ "Error: No valid points prepared for upsertion."
  | PreparingUpsert n name =>
      nl +:+ "Preparing to upsert " +:+ pretty n +:+ " points into '" +:+ name +:+ "'..."
  | UpsertedBatch k total => "Upserted batch " +:+ pretty k +:+ "/" +:+ pretty total
  | ErrorUpsertingBatch i e =>
      "Error upserting batch starting at index " +:+ pretty i +:+ ": " +:+ exn_text e
  | SetupComplete => nl +:+ "--- Vector Store Setup Complete ---"
  | CollectionContains name count =>
      "Collection '" +:+ name +:+ "' now contains " +:+ pretty count +:+ " points."
  | CouldNotCount e => "Could not verify point count: " +:+ exn_text e
  | QueryTextEmpty => "Error: Query text cannot be empty."
  | Retrieving top_k query_prefix =>
      nl +:+ "Retrieving top " +:+ pretty top_k +:+ " relevant chunks for query: '"
        +:+ query_prefix +:+ "...'"
  | FoundResults n => "Found " +:+ pretty n +:+ " results from Qdrant."
  | ErrorDuringRetrieval e => "Error during retrieval: " +:+ exn_text e
  | ErrorGeneratingAnswer e => "Error generating answer: " +:+ exn_text e
  end.

(** ** The services *)

(** A point as [vector_store.py] sends it: [models.PointStruct]. *)
Record PointStruct := {
  point_id : string;
  point_vector : embedding;
  point_payload : list (string * pyval);
}.

(** A hit as Qdrant returns it: [models.ScoredPoint].  The payload is
    [Optional[Dict]]. *)
Record ScoredPoint := {
  hit_id : string;
  hit_score : float;
  hit_payload : option (list (string * pyval));
}.

Inductive Distance := COSINE | EUCLID | DOT | MANHATTAN.

(** What the Qdrant server keeps for a collection: the vector size, the
    distance, and the points by id. *)
Record collection := {
  vectors_size : nat;
  vectors_distance : Distance;
  stored_points : gmap string (embedding * list (string * pyval));
}.

(** One message of a chat request: role and content. *)
Record chat_message := { role : string; content : string }.

(** Requests that leave the process. *)
Inductive request : Type :=
| EmbeddingsCreate (input model : string)
| ChatCompletionsCreate (model : string) (messages : list chat_message)
    (temperature : float)
| QdrantConnect (host : string) (port : Z)
| RecreateCollection (name : string) (size : nat) (distance : Distance)
| GetCollection (name : string)
| Upsert (name : string) (points : list PointStruct) (wait : bool)
| Count (name : string) (exact : bool)
| QueryPoints (name : string) (query : embedding) (limit : Z) (with_payload : bool).

(** ** The world and the monad of the scripts *)

Record world := World {
  console : list message;        (* lines printed, oldest first *)
  requests : list request;       (* requests sent, oldest first *)
  qdrant : gmap string collection; (* collections of the Qdrant server *)
  drawn : nat;                   (* number of uuids drawn so far *)
}.

Definition M (A : Type) : Type := world -> outcome A * world.

Definition ret {A} (a : A) : M A := fun w => (Returns a, w).

Definition bind {A B} (m : M A) (k : A -> M B) : M B :=
  fun w =>
    match m w with
    | (Returns a, w') => k a w'
    | (Raises e, w') => (Raises e, w')
    | (Exits, w') => (Exits, w')
    end.

Notation "'let*' x ':=' m 'in' k" := (bind m (fun x => k))
  (at level 10, x name, m at level 100, k at level 200).
Notation "m ';;;' k" := (bind m (fun _ => k))
  (at level 100, k at level 200, right associativity).

(** [raise e]. *)
Definition raise {A} (e : exn) : M A := fun w => (Raises e, w).

(** [exit()]. *)
Definition exit {A} : M A := fun w => (Exits, w).

(** [try: body except Exception as e: handler(e)].  [SystemExit] passes
    through. *)
Definition try_except {A} (body : M A) (handler : exn -> M A) : M A :=
  fun w =>
    match body w with
    | (Raises e, w') => handler e w'
    | r => r
    end.

(** [print(m)]. *)
Definition print (m : message) : M unit :=
  fun w =>
    (Returns tt,
     {| console := console w ++ [m]; requests := requests w;
        qdrant := qdrant w; drawn := drawn w |}).

(** Records that the request [r] was sent. *)
Definition sent (r : request) (w : world) : world :=
  {| console := console w; requests := requests w ++ [r];
     qdrant := qdrant w; drawn := drawn w |}.

(** A request to a service without state of its own in this model: the
    service's answer may depend on how many requests came before it. *)
Definition call {A} (r : request) (service : nat -> reply A) : M A :=
  fun w =>
    match service (length (requests w)) with
    | Answer a => (Returns a, sent r w)
    | Failure e => (Raises e, sent r w)
    end.

(** An evaluation that gives a value or raises. *)
Definition evaluate {A} (r : reply A) : M A :=
  match r with
  | Answer a => ret a
  | Failure e => raise e
  end.

(** Exceptions the interpreter itself raises. *)
Definition IndexError : exn := Exn "IndexError" "list index out of range".
Definition TypeError (text : string) : exn := Exn "TypeError" text.
Definition KeyError (key : string) : exn := Exn "KeyError" ("'" +:+ key +:+ "'").
Definition AttributeError (text : string) : exn := Exn "AttributeError" text.
Definition ValueError (text : string) : exn := Exn "ValueError" text.

(** [l[0]] on a list. *)
Definition first_item {A} (l : list A) : M A :=
  match l with
  | x :: _ => ret x
  | [] => raise IndexError
  end.

(** [d[key]] and [key in d] on a dictionary. *)
Fixpoint dict_get {V} (key : string) (d : list (string * V)) : option V :=
  match d with
  | [] => None
  | (k, v) :: d' => if decide (k = key) then Some v else dict_get key d'
  end.

Definition dict_has {V} (key : string) (d : list (string * V)) : bool :=
  match dict_get key d with Some _ => true | None => false end.

(** ** Python strings

    A string is the sequence of its characters; the model has the 256
    characters of Latin-1. *)

(** [c.isspace()]. *)
Definition isspace (c : ascii) : bool :=
  let n := nat_of_ascii c in
  ((9 <=? n) && (n <=? 13) || (28 <=? n) && (n <=? 32)
   || (n =? 133) || (n =? 160))%nat.

(** [s.lstrip()], [s.rstrip()] and [s.strip()]. *)
Fixpoint lstrip (s : string) : string :=
  match s with
  | String c s' => if isspace c then lstrip s' else s
  | "" => ""
  end.

Fixpoint rstrip (s : string) : string :=
  match s with
  | String c s' =>
      match rstrip s' with
      | "" => if isspace c then "" else String c ""
      | r => String c r
      end
  | "" => ""
  end.

Definition strip (s : string) : string := rstrip (lstrip s).

(** [text.startswith(sep)]. *)
Fixpoint startswith (sep text : string) : bool :=
  match sep, text with
  | "", _ => true
  | String a sep', String b text' => if decide (a = b) then startswith sep' text' else false
  | String _ _, "" => false
  end.

(** [sep in text], which is also [re.search(re.escape(sep), text)]. *)
Fixpoint occurs (sep text : string) : bool :=
  startswith sep text
  || match text with
     | String _ text' => occurs sep text'
     | "" => false
     end.

(** [sep.join(items)] on a list of strings. *)
Fixpoint join (sep : string) (items : list string) : string :=
  match items with
  | [] => ""
  | [x] => x
  | x :: rest => x +:+ sep +:+ join sep rest
  end.

(** [sep.join(items)] on a list of objects: a [TypeError] unless every item is
    a string. *)
Fixpoint all_str (items : list pyval) : option (list string) :=
  match items with
  | [] => Some []
  | PyStr s :: rest => option_map (cons s) (all_str rest)
  | _ :: _ => None
  end.

Definition join_items (sep : string) (items : list pyval) : M string :=
  match all_str items with
  | Some strs => ret (join sep strs)
  | None => raise (TypeError "sequence item: expected str instance")
  end.

(** * retrieval.py *)

Module Retrieval.

Definition collection_name : string := "cosmo_challenge".
Definition embedding_model : string := "text-embedding-3-small".

(** An item of the result: [{"text": ..., "score": ...}]. *)
Record RetrievalHit := { text : pyval; score : float }.

(** [hit.payload and 'text' in hit.payload], then
    [{"text": hit.payload['text'], "score": hit.score}]. *)
Definition text_and_score (hit : ScoredPoint) : option RetrievalHit :=
  match hit_payload hit with
  | None => None
  | Some [] => None
  | Some payload =>
      match dict_get "text" payload with
      | Some t => Some {| text := t; score := hit_score hit |}
      | None => None
      end
  end.

Section Services.

(** [openai_client.embeddings.create]: the embeddings of [response.data]. *)
Variable embeddings_create : nat -> string -> string -> reply (list embedding).

(** [qdrant_client.query_points]: the [points] of the response. *)
Variable query_points :
  nat -> string -> embedding -> Z -> bool -> reply (list ScoredPoint).

(** The [try] block of [retrieve_relevant_chunks]. *)
Definition embed_and_search (query_text : string) (top_k : Z)
  : M (list RetrievalHit) :=
  (* 1. Generate query embedding *)
  let* response :=
    call (EmbeddingsCreate query_text embedding_model)
      (fun n => embeddings_create n query_text embedding_model) in
  let* query_embedding := first_item response in
  (* 2. Search Qdrant using query_points *)
  let* search_points :=
    call (QueryPoints collection_name query_embedding top_k true)
      (fun n => query_points n collection_name query_embedding top_k true) in
  print (FoundResults (length search_points));;;
  (* 3. Extract text and score from results *)
  ret (omap text_and_score search_points).

Definition retrieve_relevant_chunks (query_text : string) (top_k : Z)
  : M (list RetrievalHit) :=
  if decide (query_text = "") then
    print QueryTextEmpty;;;
    ret []
  else
    print (Retrieving top_k (String.substring 0 50 query_text));;;
    try_except (embed_and_search query_text top_k)
      (fun e => print (ErrorDuringRetrieval e);;; ret []).

End Services.

End Retrieval.

(** * rag_tool.py *)

Module RagTool.

Import Retrieval.

Definition no_information : string :=
  "No relevant information found in the context.".
Definition error_occurred : string :=
  "An error occurred while generating the answer.".

(** The f-string of [generate_answer]; every line of the template is indented
    by eight spaces. *)
Definition prompt_of (context_string query : string) : string :=
  let line s := "        " +:+ s +:+ nl in
  nl
  +:+ line "You are an assistant designed to answer questions based ONLY on the provided context below."
  +:+ line "Read the context carefully."
  +:+ line "Answer the user's question using only the information given in the context."
  +:+ line "Do not use any external knowledge or make assumptions."
  +:+ line "If the context does not contain the information needed to answer the question, state that clearly."
  +:+ nl
  +:+ line "Provided Context:"
  +:+ line "---"
  +:+ line context_string
  +:+ line "---"
  +:+ nl
  +:+ line ("User's Question: " +:+ query)
  +:+ nl
  +:+ line "Answer based solely on the context:"
  +:+ "        ".

Section Services.

Variable embeddings_create : nat -> string -> string -> reply (list embedding).
Variable query_points :
  nat -> string -> embedding -> Z -> bool -> reply (list ScoredPoint).

(** [openai_client.chat.completions.create]: for each of
    [response.choices], its [message.content], an [Optional[str]]. *)
Variable chat_completions_create :
  nat -> string -> list chat_message -> float -> reply (list (option string)).

(** The [try] block of [generate_answer]. *)
Definition answer_from_context (query : string) (top_k : Z) : M string :=
  let* retrieved_results :=
    retrieve_relevant_chunks embeddings_create query_points query top_k in
  match retrieved_results with
  | [] => ret no_information
  | _ :: _ =>
      let* context_string :=
        join_items (nl +:+ nl) (map text retrieved_results) in
      let prompt := prompt_of context_string query in
      let messages :=
        [ {| role := "system"; content := "You are a helpful assistant." |};
          {| role := "user"; content := prompt |} ] in
      let* choices :=
        call (ChatCompletionsCreate "gpt-4o" messages 0.0%float)
          (fun n => chat_completions_create n "gpt-4o" messages 0.0%float) in
      let* content := first_item choices in
      match content with
      | Some answer => ret (strip answer)
      | None =>
          raise (AttributeError "'NoneType' object has no attribute 'strip'")
      end
  end.

Definition generate_answer (query : string) (top_k : Z) : M string :=
  try_except (answer_from_context query top_k)
    (fun e => print (ErrorGeneratingAnswer e);;; ret error_occurred).

End Services.

End RagTool.

(** * The text splitter

    [chunk_text] delegates to the class [RecursiveCharacterTextSplitter] of
    the langchain library, whose code is not part of the repository.  Its
    model below is written after the chunker of the specification: the text
    is split at paragraph breaks, then at line breaks, then at spaces, then
    between characters; pieces are merged into chunks of at most the chunk
    size, and the end of a chunk, up to the overlap, opens the next one.  For
    what the specification leaves open the model follows the library, with
    the options [chunk_text] passes and the defaults otherwise: the
    separators are taken literally and stay at the start of the piece that
    follows them, and whitespace is stripped from both ends of a chunk.
    [None] stands for the [IndexError] of [current_doc[0]] on an empty
    list. *)

Module TextSplitter.

(** [len(s)], the [length_function]. *)
Definition len (s : string) : Z := Z.of_nat (String.length s).

Record RecursiveCharacterTextSplitter := {
  _chunk_size : Z;
  _chunk_overlap : Z;
  _separators : list string;
}.

Definition default_separators : list string := [nl +:+ nl; nl; " "; ""].

(** Modelled from the spec: the constructor of the library, which accepts a
    size above zero and an overlap from zero to the size. *)
Definition new (chunk_size chunk_overlap : Z) : M RecursiveCharacterTextSplitter :=
  if chunk_size <=? 0 then raise (ValueError "chunk_size must be > 0")
  else if chunk_overlap <? 0 then raise (ValueError "chunk_overlap must be >= 0")
  else if chunk_overlap >? chunk_size then
    raise (ValueError "Got a larger chunk overlap than chunk size, should be smaller.")
  else
    ret {| _chunk_size := chunk_size; _chunk_overlap := chunk_overlap;
           _separators := default_separators |}.

(** Modelled from the spec: [_join_docs] of the library, which joins,
    strips, and gives [None] for an empty text. *)
Definition _join_docs (docs : list string) (separator : string) : option string :=
  let text := strip (join separator docs) in
  if decide (text = "") then None else Some text.

Section Merge.

Variable self : RecursiveCharacterTextSplitter.
Variable separator : string.

Definition separator_len : Z := len separator.

(** Modelled from the spec: the [while] loop of [_merge_splits] of the
    library, which drops pieces from the front of
    [current_doc] while more than the overlap is kept, or while the next
    piece [_len] does not fit. *)
Fixpoint pop_front (_len : Z) (current_doc : list string) (total : Z)
  : option (list string * Z) :=
  if (total >? _chunk_overlap self)
     || ((total + _len
          + (if (0 <? length current_doc)%nat then separator_len else 0)
          >? _chunk_size self)
         && (total >? 0))
  then
    match current_doc with
    | [] => None
    | d0 :: rest =>
        pop_front _len rest
          (total - (len d0
                    + (if (1 <? length current_doc)%nat then separator_len else 0)))
    end
  else Some (current_doc, total).

(** Modelled from the spec: the [for] loop of [_merge_splits] of the library
    and the lines after it.  Pieces are collected while they fit the chunk
    size; then the chunk is closed and its end is kept as the overlap. *)
Fixpoint merge_loop (splits docs current_doc : list string) (total : Z)
  : option (list string) :=
  match splits with
  | [] =>
      match _join_docs current_doc separator with
      | Some doc => Some (docs ++ [doc])
      | None => Some docs
      end
  | d :: splits' =>
      let _len := len d in
      let append current_doc total docs :=
        let current_doc := current_doc ++ [d] in
        merge_loop splits' docs current_doc
          (total + (_len
                    + (if (1 <? length current_doc)%nat then separator_len else 0))) in
      if (total + _len
          + (if (0 <? length current_doc)%nat then separator_len else 0)
          >? _chunk_size self)
         && (0 <? length current_doc)%nat
      then
        let docs :=
          match _join_docs current_doc separator with
          | Some doc => docs ++ [doc]
          | None => docs
          end in
        match pop_front _len current_doc total with
        | Some (current_doc, total) => append current_doc total docs
        | None => None
        end
      else append current_doc total docs
  end.

Definition _merge_splits (splits : list string) : option (list string) :=
  merge_loop splits [] [] 0.

End Merge.

(** [re.split(re.escape(sep), text)] for a non-empty [sep]: the pieces between
    the occurrences of [sep], found from left to right.  [skip] counts the
    characters of a separator that are still to be passed over. *)
Fixpoint pieces (sep : string) (skip : nat) (text : string) : list string :=
  match text with
  | "" => [""]
  | String c text' =>
      match skip with
      | S skip' => pieces sep skip' text'
      | O =>
          if startswith sep text then
            "" :: pieces sep (String.length sep - 1) text'
          else
            match pieces sep 0 text' with
            | piece :: others => String c piece :: others
            | [] => [String c ""]
            end
      end
  end.

(** [list(text)]. *)
Fixpoint characters (text : string) : list string :=
  match text with
  | "" => []
  | String c text' => String c "" :: characters text'
  end.

(** Modelled from the spec: [_split_text_with_regex(text, separator,
    keep_separator=True)] of the library: every
    separator stays at the start of the piece after it, and empty pieces are
    dropped. *)
Definition _split_text_with_regex (text separator : string) : list string :=
  let splits :=
    if decide (separator = "") then characters text
    else
      match pieces separator 0 text with
      | first :: others => first :: map (fun piece => separator +:+ piece) others
      | [] => []
      end in
  filter (fun s => s <> "") splits.

Section Split.

Variable self : RecursiveCharacterTextSplitter.

(** Modelled from the spec: the second half of [_split_text] of the
    library, once [separator] and [new_separators] are chosen: pieces shorter than the chunk size are collected and merged,
    a longer piece is split again with the remaining separators ([recur]),
    or kept as it is when none remain. *)
Fixpoint split_loop (recur : option (string -> option (list string)))
    (splits _good_splits final_chunks : list string) : option (list string) :=
  let flush good final :=
    match good with
    | [] => Some final
    | _ :: _ =>
        match _merge_splits self "" good with
        | Some merged_text => Some (final ++ merged_text)
        | None => None
        end
    end in
  match splits with
  | [] => flush _good_splits final_chunks
  | s :: splits' =>
      if len s <? _chunk_size self then
        split_loop recur splits' (_good_splits ++ [s]) final_chunks
      else
        match flush _good_splits final_chunks with
        | None => None
        | Some final_chunks =>
            match recur with
            | None => split_loop recur splits' [] (final_chunks ++ [s])
            | Some split_again =>
                match split_again s with
                | Some other_info =>
                    split_loop recur splits' [] (final_chunks ++ other_info)
                | None => None
                end
            end
        end
  end.

(** Modelled from the spec: [_split_text(text, separators)] of the library,
    the recursive split that prefers the coarsest boundary.  The first separator that is empty or
    occurs in the text is chosen, and the ones after it remain for the
    pieces that are too long; when none occurs the last one is chosen and
    none remain. *)
Fixpoint _split_text (separators : list string) (text : string)
  : option (list string) :=
  match separators with
  | [] => None
  | _s :: new_separators =>
      let with_separator recur :=
        split_loop recur (_split_text_with_regex text _s) [] [] in
      if decide (_s = "") then with_separator None
      else if occurs _s text then
        match new_separators with
        | [] => with_separator None
        | _ :: _ => with_separator (Some (_split_text new_separators))
        end
      else
        match new_separators with
        | [] => with_separator None
        | _ :: _ => _split_text new_separators text
        end
  end.

Definition split_text (text : string) : option (list string) :=
  _split_text (_separators self) text.

End Split.

End TextSplitter.

(** * generate_embeddings.py *)

Module GenerateEmbeddings.

Definition embedding_model : string := "text-embedding-3-small".

(** [chunk_text(text, size, overlap)]: the chunks are the strings that
    [split_text] returns. *)
Definition chunk_text (text : string) (size overlap : Z) : M (list string) :=
  if decide (text = "") then
    print NoTextForChunking;;;
    ret []
  else
    print (ChunkingText size overlap);;;
    let* text_splitter := TextSplitter.new size overlap in
    let* chunks :=
      match TextSplitter.split_text text_splitter text with
      | Some chunks => ret chunks
      | None => raise IndexError
      end in
    print (SplitIntoChunks (length chunks));;;
    ret chunks.

Section Services.

(** [client.embeddings.create]: the embeddings of [response.data]. *)
Variable embeddings_create : nat -> string -> string -> reply (list embedding).

(** One turn of the loop of [generate_embeddings] for the chunk at index
    [i]: the list of embeddings grows by the vector, or by [None] when
    anything in the [try] block raises.  Nothing after the [append] of the
    [try] block can raise; [time.sleep] has no effect on the world. *)
Definition embed_one (model : string) (n i : nat) (chunk : string)
    (embeddings : list (option embedding)) : M (list (option embedding)) :=
  try_except
    (let* response :=
       call (EmbeddingsCreate chunk model)
         (fun k => embeddings_create k chunk model) in
     let* vector := first_item response in
     print (GeneratedEmbedding (i + 1) n);;;
     ret (embeddings ++ [Some vector]))
    (fun e =>
       print (ErrorGeneratingEmbedding (i + 1) e);;;
       ret (embeddings ++ [None])).

Fixpoint embedding_loop (model : string) (n i : nat) (chunks : list string)
    (embeddings : list (option embedding)) : M (list (option embedding)) :=
  match chunks with
  | [] => ret embeddings
  | chunk :: chunks' =>
      let* embeddings := embed_one model n i chunk embeddings in
      embedding_loop model n (i + 1) chunks' embeddings
  end.

Definition generate_embeddings (chunks : list string) (model : string)
  : M (list (option embedding)) :=
  match chunks with
  | [] =>
      print NoChunksProvided;;;
      ret []
  | _ :: _ =>
      print EmbeddingBanner;;;
      print (GeneratingEmbeddings (length chunks) model);;;
      let* embeddings := embedding_loop model (length chunks) 0 chunks [] in
      print EmbeddingComplete;;;
      ret embeddings
  end.

(** [[emb for emb in chunk_embeddings if emb is not None]]. *)
Definition valid_embeddings (chunk_embeddings : list (option embedding))
  : list embedding :=
  omap id chunk_embeddings.

(** The script from [chunk_embeddings = []] to the end of the accounting.
    [text_chunks] is [None] when the name was never bound. *)
Definition embed_and_count (text_chunks : option (list string))
  : M (list (option embedding)) :=
  match text_chunks with
  | Some ((_ :: _) as text_chunks) =>
      let* chunk_embeddings := generate_embeddings text_chunks embedding_model in
      match chunk_embeddings with
      | _ :: _ =>
          print (SuccessfullyGenerated (length (valid_embeddings chunk_embeddings)));;;
          ret chunk_embeddings
      | [] =>
          print EmbeddingFailedOrEmpty;;;
          ret chunk_embeddings
      end
  | _ => ret []
  end.

End Services.

End GenerateEmbeddings.

(** * vector_store.py *)

Module VectorStore.

Definition pickle_file_path : string := "pdf_embeddings_cache.pkl".
Definition collection_name : string := "cosmo_challenge".
Definition batch_size : nat := 100.

(** ** Operations on objects of unknown shape *)

(** [len(v)]. *)
Definition py_len (v : pyval) : M nat :=
  match v with
  | PyStr s => ret (String.length s)
  | PyList l => ret (length l)
  | PyDict d => ret (length d)
  | _ => raise (TypeError "object has no len()")
  end.

Definition is_str (key : string) (v : pyval) : bool :=
  match v with
  | PyStr s => bool_decide (s = key)
  | _ => false
  end.

(** [key in v] for a string [key]. *)
Definition py_contains (key : string) (v : pyval) : M bool :=
  match v with
  | PyDict d => ret (dict_has key d)
  | PyList l => ret (existsb (is_str key) l)
  | PyStr s => ret (occurs key s)
  | _ => raise (TypeError "argument is not iterable")
  end.

(** [v[key]] for a string [key]. *)
Definition py_getitem (v : pyval) (key : string) : M pyval :=
  match v with
  | PyDict d =>
      match dict_get key d with
      | Some x => ret x
      | None => raise (KeyError key)
      end
  | _ => raise (TypeError "indices must be integers")
  end.

(** [v.get(key)]. *)
Definition py_get (v : pyval) (key : string) : M pyval :=
  match v with
  | PyDict d => ret (default PyNone (dict_get key d))
  | _ => raise (AttributeError "object has no attribute 'get'")
  end.

(** [bool(v)]. *)
Definition truthy (v : pyval) : bool :=
  match v with
  | PyNone => false
  | PyBool b => b
  | PyInt z => negb (z =? 0)
  | PyFloat f => negb (PrimFloat.eqb f 0)
  | PyStr s => negb (bool_decide (s = ""))
  | PyList l => negb (bool_decide (length l = 0%nat))
  | PyDict d => negb (bool_decide (length d = 0%nat))
  end.

(** A list of floats, as pydantic accepts it for the vector of a point; any
    other object is rejected. *)
Fixpoint floats (l : list pyval) : option embedding :=
  match l with
  | [] => Some []
  | PyFloat f :: l' => option_map (cons f) (floats l')
  | _ :: _ => None
  end.

Definition as_vector (v : pyval) : option embedding :=
  match v with
  | PyList l => floats l
  | _ => None
  end.

(** [models.PointStruct(id=..., vector=..., payload=...)]. *)
Definition new_point (id : string) (vector : pyval) (payload : list (string * pyval))
  : M PointStruct :=
  match as_vector vector with
  | Some v => ret {| point_id := id; point_vector := v; point_payload := payload |}
  | None => raise (Exn "ValidationError" "validation error for PointStruct")
  end.

(** [range(0, stop, step)]. *)
Definition range_step (stop step : nat) : list nat :=
  map (fun k => k * step)%nat (seq 0 ((stop + step - 1) / step)).

(** ** The Qdrant server

    What the server does with the requests of the script when it is reached:
    [recreate_collection] drops the collection of that name, if any, and
    creates an empty one; [upsert] stores points by id and rejects a batch
    with a vector of the wrong size. *)

Definition not_found (name : string) : exn :=
  Exn "UnexpectedResponse" ("Not found: Collection `" +:+ name +:+ "` doesn't exist!").
Definition wrong_size : exn :=
  Exn "UnexpectedResponse" "Wrong input: Vector dimension error".

Definition server_recreate_collection (name : string) (size : nat) (distance : Distance)
    (q : gmap string collection) : reply bool * gmap string collection :=
  (Answer true,
   <[name := {| vectors_size := size; vectors_distance := distance;
                stored_points := ∅ |}]> q).

Definition server_get_collection (name : string) (q : gmap string collection)
  : reply collection * gmap string collection :=
  match q !! name with
  | Some c => (Answer c, q)
  | None => (Failure (not_found name), q)
  end.

Definition store_point (points : gmap string (embedding * list (string * pyval)))
    (p : PointStruct) : gmap string (embedding * list (string * pyval)) :=
  <[point_id p := (point_vector p, point_payload p)]> points.

Definition server_upsert (name : string) (points : list PointStruct)
    (q : gmap string collection) : reply unit * gmap string collection :=
  match q !! name with
  | Some c =>
      if forallb (fun p => length (point_vector p) =? vectors_size c)%nat points then
        (Answer tt,
         <[name := {| vectors_size := vectors_size c;
                      vectors_distance := vectors_distance c;
                      stored_points := foldl store_point (stored_points c) points |}]> q)
      else (Failure wrong_size, q)
  | None => (Failure (not_found name), q)
  end.

Definition server_count (name : string) (q : gmap string collection)
  : reply nat * gmap string collection :=
  match q !! name with
  | Some c => (Answer (size (stored_points c)), q)
  | None => (Failure (not_found name), q)
  end.

Section Script.

(** Configuration from the environment. *)
Variable qdrant_host : string.
Variable qdrant_port : Z.

(** The file system: [None] when no file is at the path, otherwise what
    opening and unpickling it gives. *)
Variable fickling_load : string -> option (reply pyval).

(** Whether the request with the given number fails before the server
    handles it (the server is unreachable, the connection drops). *)
Variable fault : nat -> option exn.

(** The identifiers that [uuid.uuid4()] draws, as [str] gives them. *)
Variable uuid4 : nat -> string.

(** [collection_info.vectors_config.params.size]: the size that the client
    library shows for a collection.  The class of [collection_info] belongs
    to the client library; reading the attribute gives a size or raises. *)
Variable vectors_config_size : collection -> reply nat.

(** A request to the Qdrant server. *)
Definition qdrant_call {A} (r : request)
    (handle : gmap string collection -> reply A * gmap string collection) : M A :=
  fun w =>
    match fault (length (requests w)) with
    | Some e => (Raises e, sent r w)
    | None =>
        let '(answer, q) := handle (qdrant w) in
        let w' :=
          {| console := console w; requests := requests w ++ [r];
             qdrant := q; drawn := drawn w |} in
        match answer with
        | Answer a => (Returns a, w')
        | Failure e => (Raises e, w')
        end
    end.

(** [str(uuid.uuid4())]. *)
Definition new_uuid : M string :=
  fun w =>
    (Returns (uuid4 (drawn w)),
     {| console := console w; requests := requests w;
        qdrant := qdrant w; drawn := S (drawn w) |}).

(** [load_data_from_pickle(file_path)]: the pair [(data, dimension)], or
    [(None, 0)]. *)
Definition load_data_from_pickle (file_path : string) : M (option pyval * nat) :=
  match fickling_load file_path with
  | Some content =>
      print (LoadingCache file_path);;;
      try_except
        (let* data := evaluate content in
         let* n := py_len data in
         print (LoadedItems n);;;
         let unexpected :=
           print UnexpectedFormat;;;
           ret (None, 0%nat) in
         match data with
         | PyList (data_0 :: _) =>
             let* has_text := py_contains "text" data_0 in
             if has_text then
               let* has_embedding := py_contains "embedding" data_0 in
               if has_embedding then
                 let* first_embedding := py_getitem data_0 "embedding" in
                 let* first_embedding_dim := py_len first_embedding in
                 print (DetectedDimension first_embedding_dim);;;
                 ret (Some data, first_embedding_dim)
               else unexpected
             else unexpected
         | _ => unexpected
         end)
        (fun e =>
           print (ErrorLoadingPickle e);;;
           ret (None, 0%nat))
  | None =>
      print (CacheNotFound file_path);;;
      ret (None, 0%nat)
  end.

(** The block "Create Qdrant Collection". *)
Definition create_collection (vector_dim : nat) : M unit :=
  try_except
    (print (AttemptingCreate collection_name);;;
     qdrant_call (RecreateCollection collection_name vector_dim COSINE)
       (server_recreate_collection collection_name vector_dim COSINE);;;
     print (CollectionCreated collection_name))
    (fun e =>
       print (ErrorCreating e);;;
       (* Attempt to proceed if collection might already exist correctly *)
       try_except
         (let* collection_info :=
            qdrant_call (GetCollection collection_name)
              (server_get_collection collection_name) in
          let* existing_size := evaluate (vectors_config_size collection_info) in
          if decide (existing_size <> vector_dim) then
            print (DimensionMismatch collection_name existing_size vector_dim);;;
            exit
          else print (AlreadyExists collection_name))
         (fun e2 =>
            print (CouldNotVerify e2);;;
            exit)).

(** [item.get('embedding') is None or len(item['embedding']) != vector_dim]. *)
Definition invalid_embedding (vector_dim : nat) (item : pyval) : M bool :=
  let* e := py_get item "embedding" in
  match e with
  | PyNone => ret true
  | _ =>
      let* e := py_getitem item "embedding" in
      let* n := py_len e in
      ret (negb (n =? vector_dim)%nat)
  end.

(** The loop that fills [points_to_upsert]. *)
Fixpoint prepare_points (vector_dim i : nat) (items : list pyval)
    (points_to_upsert : list PointStruct) : M (list PointStruct) :=
  match items with
  | [] => ret points_to_upsert
  | item :: items' =>
      let* skip := invalid_embedding vector_dim item in
      if skip then
        print (SkippingItem i);;;
        prepare_points vector_dim (i + 1) items' points_to_upsert
      else
        let* id := new_uuid in
        let* vector := py_getitem item "embedding" in
        let* text := py_getitem item "text" in
        let* point := new_point id vector [("text", text)] in
        prepare_points vector_dim (i + 1) items' (points_to_upsert ++ [point])
  end.

(** The loop "Upsert in batches", over the start indices [starts]. *)
Fixpoint upsert_batches (points_to_upsert : list PointStruct) (starts : list nat)
  : M unit :=
  match starts with
  | [] => ret tt
  | i :: starts' =>
      let batch := take batch_size (drop i points_to_upsert) in
      try_except
        (qdrant_call (Upsert collection_name batch true)
           (server_upsert collection_name batch);;;
         print (UpsertedBatch (i / batch_size + 1)
                  ((length points_to_upsert + batch_size - 1) / batch_size)))
        (fun e => print (ErrorUpsertingBatch i e));;;
      upsert_batches points_to_upsert starts'
  end.

(** The items of [enumerate(processed_data)].  What
    [load_data_from_pickle] returns as data is a list. *)
Definition py_items (v : pyval) : M (list pyval) :=
  match v with
  | PyList items => ret items
  | _ => raise (TypeError "object is not iterable")
  end.

(** [not processed_data]. *)
Definition no_data (processed_data : option pyval) : bool :=
  match processed_data with
  | Some data => negb (truthy data)
  | None => true
  end.

(** The part of the script after the collection is provisioned. *)
Definition upsert_data (processed_data : option pyval) (vector_dim : nat) : M unit :=
  let* items :=
    match processed_data with
    | Some data => py_items data
    | None => raise (TypeError "'NoneType' object is not iterable")
    end in
  let* points_to_upsert := prepare_points vector_dim 0 items [] in
  match points_to_upsert with
  | [] =>
      print NoValidPoints;;;
      exit
  | _ :: _ =>
      print (PreparingUpsert (length points_to_upsert) collection_name);;;
      upsert_batches points_to_upsert
        (range_step (length points_to_upsert) batch_size);;;
      print SetupComplete;;;
      try_except
        (let* count :=
           qdrant_call (Count collection_name true)
             (server_count collection_name) in
         print (CollectionContains collection_name count))
        (fun e => print (CouldNotCount e))
  end.

(** [QdrantClient(host=qdrant_host, port=qdrant_port)]. *)
Definition connect : M unit :=
  print (ConnectingQdrant qdrant_host qdrant_port);;;
  try_except
    (qdrant_call (QdrantConnect qdrant_host qdrant_port)
       (fun q => (Answer tt, q));;;
     print ConnectedQdrant)
    (fun e =>
       print (ErrorConnecting e);;;
       print EnsureQdrantRunning;;;
       exit).

(** The script, from its first line to its last. *)
Definition main : M unit :=
  print VectorStoreBanner;;;
  let* loaded := load_data_from_pickle pickle_file_path in
  let '(processed_data, vector_dim) := loaded in
  if no_data processed_data then
    print ExitingNoData;;;
    exit
  else
    connect;;;
    create_collection vector_dim;;;
    upsert_data processed_data vector_dim.

End Script.

End VectorStore.

(** * generate_embeddings.py, from the PDF to the cache *)

Module Ingestion.

Import GenerateEmbeddings.

Definition pdf_path : string := "detect_errors.pdf".
Definition pickle_file_path : string := "pdf_embeddings_cache.pkl".
Definition chunk_size : Z := 1000.
Definition chunk_overlap : Z := 150.

(** ** The console and the files of the script *)

(** The lines of the whole script: those of [message], and one constructor
    for each [print] statement that [message] does not have. *)
Inductive line : Type :=
| Said (m : message)
| LoadingPdf (path : string)
| NumberOfPages (n : nat)
| NoTextOnPage (page : nat)
| ErrorExtractingPage (page : nat) (e : exn)
| PdfLoaded
| PdfNotFound (path : string)
| ErrorLoadingPdf (e : exn)
| NoDataToSave
| AttemptingSave (path : string)
| SavedItems (n : nat) (path : string)
| ErrorSaving (e : exn)
| PdfMissing (path : string)
| PdfLoadBanner
| ExtractedCharacters (n : nat)
| ChunkingBanner
| ExampleChunk (start : string)
| NoChunks
| CreatedProcessedData (n : nat)
| CouldNotCombine
| DataSaved
| FailedToSave.

Definition render_line (l : line) : string :=
  match l with
  | Said m => render m
  | LoadingPdf path => "Loading PDF: " +:+ path
  | NumberOfPages n => "Number of pages: " +:+ pretty n
  | NoTextOnPage page => "Warning: No text extracted from page " +:+ pretty page
  | ErrorExtractingPage page e =>
      "Error extracting text from page " +:+ pretty page +:+ ": " +:+ exn_text e
  | PdfLoaded => "PDF loaded successfully."
  | PdfNotFound path => "Error: PDF file not found at " +:+ path
  | ErrorLoadingPdf e => "Error loading PDF: " +:+ exn_text e
  | NoDataToSave => "No processed data to save."
  | AttemptingSave path => nl +:+ "Attempting to save processed data to: " +:+ path
  | SavedItems n path =>
      "Successfully saved " +:+ pretty n +:+ " items to " +:+ path
  | ErrorSaving e => "Error saving data to pickle file: " +:+ exn_text e
  | PdfMissing path =>
      "Error: The file '" +:+ path +:+ "' does not exist. Please check the path."
  | PdfLoadBanner =>
      nl +:+ nl +:+ "---------------------------- PDF Load ----------------------------"
  | ExtractedCharacters n =>
      "Successfully extracted " +:+ pretty n +:+ " characters from the PDF."
  | ChunkingBanner =>
      nl +:+ nl +:+ "---------------------------- Chunking ----------------------------"
  | ExampleChunk start => "Example chunk (first 100 chars): " +:+ start +:+ "..."
  | NoChunks => "Chunking resulted in no chunks."
  | CreatedProcessedData n =>
      "Created processed data structure with " +:+ pretty n +:+ " items."
  | CouldNotCombine =>
      "Could not combine chunks and embeddings due to previous errors or mismatches."
  | DataSaved =>
      "Data saved. You can load this next time instead of reprocessing the PDF."
  | FailedToSave => "Failed to save data to pickle file."
  end.

(** A file that was opened for writing: [pickle.dump] wrote the data, or it
    raised and left the file cut short. *)
Inductive file : Type :=
| Pickled (data : pyval)
| Damaged.

(** The state of the script: the lines printed and the requests sent, oldest
    first, and the files written.  The script never talks to Qdrant. *)
Record machine := Machine {
  output : list line;
  traffic : list request;
  files : gmap string file;
}.

Definition Script (A : Type) : Type := machine -> outcome A * machine.

Definition unit_ {A} (a : A) : Script A := fun s => (Returns a, s).

Definition then_ {A B} (m : Script A) (k : A -> Script B) : Script B :=
  fun s =>
    match m s with
    | (Returns a, s') => k a s'
    | (Raises e, s') => (Raises e, s')
    | (Exits, s') => (Exits, s')
    end.

Notation "'let+' x ':=' m 'in' k" := (then_ m (fun x => k))
  (at level 10, x name, m at level 100, k at level 200).
Notation "m ';+;' k" := (then_ m (fun _ => k))
  (at level 100, k at level 200, right associativity).

(** [print(l)]. *)
Definition say (l : line) : Script unit :=
  fun s =>
    (Returns tt,
     {| output := output s ++ [l]; traffic := traffic s; files := files s |}).

(** [exit()]. *)
Definition leave {A} : Script A := fun s => (Exits, s).

(** [try: body except Exception as e: handler(e)]. *)
Definition attempt {A} (body : Script A) (handler : exn -> Script A) : Script A :=
  fun s =>
    match body s with
    | (Raises e, s') => handler e s'
    | r => r
    end.

Definition outcome_of {A} (r : reply A) : Script A :=
  fun s =>
    match r with
    | Answer a => (Returns a, s)
    | Failure e => (Raises e, s)
    end.

(** A function of the first half of the file, run by the script: its lines
    and its requests become the script's. *)
Definition lift {A} (m : M A) : Script A :=
  fun s =>
    let '(r, w) :=
      m {| console := []; requests := traffic s; qdrant := ∅; drawn := 0 |} in
    (r, {| output := output s ++ map Said (console w); traffic := requests w;
           files := files s |}).

Section Machine.

(** [os.path.exists]. *)
Variable path_exists : string -> bool.

(** [pypdf.PdfReader(file_path)] and [reader.pages]: opening the file fails,
    or counting the pages fails, or the pages are there, and for each page
    [extract_text()] gives its text or raises. *)
Variable PdfReader : string -> reply (reply (list (reply string))).

(** [OpenAI()], which raises when no key is configured. *)
Variable OpenAI : reply unit.

Variable embeddings_create : nat -> string -> string -> reply (list embedding).

(** [open(file_path, 'wb')] and [pickle.dump(data, f)]: the error raised, if
    any. *)
Variable open_wb : string -> option exn.
Variable pickle_dump : pyval -> option exn.

(** ** load_pdf_text *)

(** One turn of the [for] loop, for the page with index [page_num]. *)
Definition extract_page (page_num : nat) (page : reply string) (text : string)
  : Script string :=
  attempt
    (let+ page_text := outcome_of page in
     if decide (page_text = "") then
       say (NoTextOnPage (page_num + 1));+;
       unit_ text
     else unit_ (text +:+ page_text +:+ nl))
    (fun e =>
       say (ErrorExtractingPage (page_num + 1) e);+;
       unit_ text).

Fixpoint extract_pages (page_num : nat) (pages : list (reply string)) (text : string)
  : Script string :=
  match pages with
  | [] => unit_ text
  | page :: pages' =>
      let+ text := extract_page page_num page text in
      extract_pages (page_num + 1) pages' text
  end.

Definition load_pdf_text (file_path : string) : Script (option string) :=
  attempt
    (let+ reader := outcome_of (PdfReader file_path) in
     say (LoadingPdf file_path);+;
     let+ pages := outcome_of reader in
     say (NumberOfPages (length pages));+;
     let+ text := extract_pages 0 pages "" in
     say PdfLoaded;+;
     unit_ (Some text))
    (fun e =>
       if decide (exn_class e = "FileNotFoundError") then
         say (PdfNotFound file_path);+;
         unit_ None
       else
         say (ErrorLoadingPdf e);+;
         unit_ None).

(** ** save_data_to_pickle *)

(** [with open(file_path, 'wb') as f: pickle.dump(data, f)]: opening the file
    empties it. *)
Definition write (file_path : string) (data : pyval) : Script unit :=
  fun s =>
    match open_wb file_path with
    | Some e => (Raises e, s)
    | None =>
        match pickle_dump data with
        | Some e =>
            (Raises e,
             {| output := output s; traffic := traffic s;
                files := <[file_path := Damaged]> (files s) |})
        | None =>
            (Returns tt,
             {| output := output s; traffic := traffic s;
                files := <[file_path := Pickled data]> (files s) |})
        end
    end.

Definition save_data_to_pickle (data : list pyval) (file_path : string)
  : Script bool :=
  match data with
  | [] =>
      say NoDataToSave;+;
      unit_ false
  | _ :: _ =>
      say (AttemptingSave file_path);+;
      attempt
        (write file_path (PyList data);+;
         say (SavedItems (length data) file_path);+;
         unit_ true)
        (fun e =>
           say (ErrorSaving e);+;
           unit_ false)
  end.

(** ** The script *)

(** [{"text": text, "embedding": embedding}]. *)
Definition record (text : string) (embedding : embedding) : pyval :=
  PyDict [("text", PyStr text); ("embedding", PyList (map PyFloat embedding))].

(** The loop over [zip(text_chunks, chunk_embeddings)]: [if embedding] holds
    for a vector that is not empty. *)
Fixpoint combine_loop (text_chunks : list string)
    (chunk_embeddings : list (option embedding)) (processed_data : list pyval)
  : list pyval :=
  match text_chunks, chunk_embeddings with
  | text :: text_chunks', embedding :: chunk_embeddings' =>
      combine_loop text_chunks' chunk_embeddings'
        match embedding with
        | Some ((_ :: _) as embedding) => processed_data ++ [record text embedding]
        | _ => processed_data
        end
  | _, _ => processed_data
  end.

(** The lines from [processed_data = []] to the line that reports it. *)
Definition combine (text_chunks : option (list string))
    (chunk_embeddings : list (option embedding)) : Script (list pyval) :=
  match text_chunks, chunk_embeddings with
  | Some ((_ :: _) as text_chunks), _ :: _ =>
      if decide (length text_chunks = length chunk_embeddings) then
        let processed_data := combine_loop text_chunks chunk_embeddings [] in
        say (CreatedProcessedData (length processed_data));+;
        unit_ processed_data
      else
        say CouldNotCombine;+;
        unit_ []
  | _, _ =>
      say CouldNotCombine;+;
      unit_ []
  end.

(** The lines from [if full_pdf_text:] to the end of the chunking:
    [text_chunks] is bound when text was extracted. *)
Definition chunk_pdf_text (full_pdf_text : option string)
  : Script (option (list string)) :=
  match full_pdf_text with
  | Some ((String _ _) as full_pdf_text) =>
      say PdfLoadBanner;+;
      say (ExtractedCharacters (String.length full_pdf_text));+;
      let+ text_chunks := lift (chunk_text full_pdf_text chunk_size chunk_overlap) in
      match text_chunks with
      | first :: _ =>
          say ChunkingBanner;+;
          say (ExampleChunk (String.substring 0 100 first))
      | [] => say NoChunks
      end;+;
      unit_ (Some text_chunks)
  | _ => unit_ None
  end.

(** The script, from [if not os.path.exists(pdf_path)] to its last line. *)
Definition main : Script unit :=
  (if path_exists pdf_path then unit_ tt
   else
     say (PdfMissing pdf_path);+;
     leave);+;
  let+ full_pdf_text := load_pdf_text pdf_path in
  let+ text_chunks := chunk_pdf_text full_pdf_text in
  outcome_of OpenAI;+;
  let+ chunk_embeddings := lift (embed_and_count embeddings_create text_chunks) in
  let+ processed_data := combine text_chunks chunk_embeddings in
  match processed_data with
  | [] => unit_ tt
  | _ :: _ =>
      let+ save_successful := save_data_to_pickle processed_data pickle_file_path in
      if save_successful then say DataSaved else say FailedToSave
  end.

End Machine.

End Ingestion.

(** * Vocabulary of the specification *)

(** The world before a script starts: nothing printed, nothing sent, an empty
    Qdrant server. *)
Definition fresh_world : world :=
  {| console := []; requests := []; qdrant := ∅; drawn := 0 |}.

(** The lines printed and the requests sent between two worlds. *)
Definition printed (w w' : world) (lines : list message) : Prop :=
  console w' = console w ++ lines.

Definition requested (w w' : world) (sent : list request) : Prop :=
  requests w' = requests w ++ sent.

(** An error of the network: the service cannot be reached. *)
Definition unreachable : exn := Exn "ConnectionError" "Connection refused".

(** What the embedding batcher keeps of request number [k], sent for [chunk]:
    the first vector of the response, or nothing when the request fails or
    the response has no data. *)
Definition embedded (embeddings_create : nat -> string -> string -> reply (list embedding))
    (model : string) (k : nat) (chunk : string) : option embedding :=
  match embeddings_create k chunk model with
  | Answer (vector :: _) => Some vector
  | _ => None
  end.

(** The totals that the specification asks the batcher to report. *)
Inductive total_kind := Attempted | Succeeded | Failed.

(** The total that a line of the console states, if it states one: the
    batcher announces how many chunks it embeds, and the script prints how
    many embeddings it got. *)
Definition stated_total (m : message) : option (total_kind * nat) :=
  match m with
  | GeneratingEmbeddings n _ => Some (Attempted, n)
  | SuccessfullyGenerated n => Some (Succeeded, n)
  | _ => None
  end.

Definition reports (kind : total_kind) (n : nat) (lines : list message) : Prop :=
  exists m, m ∈ lines /\ stated_total m = Some (kind, n).

(** The lines that tell of one failed chunk. *)
Definition is_failure_line (m : message) : bool :=
  match m with
  | ErrorGeneratingEmbedding _ _ => true
  | _ => false
  end.

(** [len(v)] when [v] has a length. *)
Definition sized (v : pyval) : option nat :=
  match v with
  | PyStr s => Some (String.length s)
  | PyList l => Some (length l)
  | PyDict d => Some (length d)
  | _ => None
  end.

(** The dimension that loading reads off the first item of the cache: the
    item is a dictionary with the keys "text" and "embedding", and the
    embedding has a length. *)
Definition first_dimension (data_0 : pyval) : option nat :=
  match data_0 with
  | PyDict d =>
      if dict_has "text" d then
        match dict_get "embedding" d with
        | Some e => sized e
        | None => None
        end
      else None
  | _ => None
  end.

(** A ChunkRecord of the data model as the cache stores it: a dictionary with
    a text and with an embedding that is absent ([None], or no entry) or a
    list of floats. *)
Definition chunk_record (item : pyval) : option (pyval * option embedding) :=
  match item with
  | PyDict d =>
      match dict_get "text" d with
      | Some text =>
          match dict_get "embedding" d with
          | None | Some PyNone => Some (text, None)
          | Some v => option_map (fun e => (text, Some e)) (VectorStore.as_vector v)
          end
      | None => None
      end
  | _ => None
  end.

(** The text and the vector of a record that is to be indexed for dimension
    [D]: its embedding is present and has length [D]. *)
Definition survivor (D : nat) (item : pyval) : option (pyval * embedding) :=
  match chunk_record item with
  | Some (text, Some e) => if (length e =? D)%nat then Some (text, e) else None
  | _ => None
  end.

Definition survivors (D : nat) (items : list pyval) : list (pyval * embedding) :=
  omap (survivor D) items.

(** The positions, counted from [i], of the records that are not indexed. *)
Fixpoint skipped_from (D i : nat) (items : list pyval) : list nat :=
  match items with
  | [] => []
  | item :: items' =>
      match survivor D item with
      | Some _ => skipped_from D (S i) items'
      | None => i :: skipped_from D (S i) items'
      end
  end.

(** The point made of a surviving record with the [k]-th identifier. *)
Definition indexed_point (uuid4 : nat -> string) (k : nat) (r : pyval * embedding)
  : PointStruct :=
  {| point_id := uuid4 k; point_vector := r.2; point_payload := [("text", r.1)] |}.

(** The points that a sequence of requests asks the index to upsert. *)
Definition upserted (sent : list request) : list PointStruct :=
  flat_map (fun r => match r with Upsert _ points _ => points | _ => [] end) sent.

(** [chunk] is found in [text] at the character position [offset]. *)
Definition found_at (text chunk : string) (offset : nat) : Prop :=
  String.substring offset (String.length chunk) text = chunk.

(** The Chunk of the data model: a text with the offset at which it starts.
    A sequence of chunks carries the offsets when the offset can be read off
    each chunk: every chunk is found at its offset, and a later chunk starts
    further on in the text. *)
Definition carry_offsets (text : string) (chunks : list string) : Prop :=
  exists start_offset : string -> nat,
    Forall (fun chunk => found_at text chunk (start_offset chunk)) chunks
    /\ StronglySorted lt (map start_offset chunks).

(** [chunk] is a piece of [text]: some characters, the chunk, and the rest. *)
Definition piece (chunk text : string) : Prop :=
  exists before after, text = before +:+ chunk +:+ after.

(** The characters held by a list of pieces: what [_merge_splits] keeps in
    [total] when the separator is empty. *)
Definition total_length (pieces : list string) : Z :=
  foldr (fun d total => TextSplitter.len d + total) 0 pieces.

(** The line that the batcher prints for the chunk at index [i] of [n], sent
    as request number [k]: the chunk is counted from 1, and a failure is
    printed with its error. *)
Definition chunk_line
    (embeddings_create : nat -> string -> string -> reply (list embedding))
    (model : string) (n k i : nat) (chunk : string) : message :=
  match embeddings_create k chunk model with
  | Answer (_ :: _) => GeneratedEmbedding (i + 1) n
  | Answer [] => ErrorGeneratingEmbedding (i + 1) IndexError
  | Failure e => ErrorGeneratingEmbedding (i + 1) e
  end.

(** The data and the dimension that a file gives when it is loaded as the
    cache: the file is there, unpickles to a non-empty list, and the first
    item has a text and an embedding with a length. *)
Definition loadable (content : option (reply pyval)) : option (pyval * nat) :=
  match content with
  | Some (Answer (PyList (data_0 :: others))) =>
      option_map (pair (PyList (data_0 :: others))) (first_dimension data_0)
  | _ => None
  end.

(** The batches that the upsert loop cuts a list of points into. *)
Definition batches_of (points : list PointStruct) : list (list PointStruct) :=
  map (fun i => take VectorStore.batch_size (drop i points))
    (VectorStore.range_step (length points) VectorStore.batch_size).

(** What the server stores after upserting [points] into [stored]. *)
Definition stored_after (stored : gmap string (embedding * list (string * pyval)))
    (points : list PointStruct) : gmap string (embedding * list (string * pyval)) :=
  foldl VectorStore.store_point stored points.

(** A chunk is not longer than the chunk size of the splitter. *)
Definition fits (self : TextSplitter.RecursiveCharacterTextSplitter) (c : string)
  : Prop :=
  TextSplitter.len c <= TextSplitter._chunk_size self.

(** The chunks of a text that fits one chunk: the stripped text, or nothing
    when only whitespace is left. *)
Definition single_chunk (text : string) : list string :=
  if decide (strip text = "") then [] else [strip text].

(** What a page adds to the text of the PDF: its text and a newline, or
    nothing when the extraction fails or gives no text. *)
Definition page_text (page : reply string) : option string :=
  match page with
  | Answer ((String _ _) as text) => Some (text +:+ nl)
  | _ => None
  end.

Definition pages_text (pages : list (reply string)) : string :=
  join "" (omap page_text pages).

(** The record of a chunk and its embedding, when the embedding is there and
    is not empty. *)
Definition embedded_record (pair : string * option embedding) : option pyval :=
  match pair with
  | (text, Some ((_ :: _) as e)) => Some (Ingestion.record text e)
  | _ => None
  end.

Definition embedded_records (chunks : list string)
    (embeddings : list (option embedding)) : list pyval :=
  omap embedded_record (zip chunks embeddings).

(** What [fickling.load] gives for the files that the ingestion wrote: the
    data that was pickled.  A file that was cut short does not unpickle. *)
Definition unpickled (files : gmap string Ingestion.file) (path : string)
  : option (reply pyval) :=
  match files !! path with
  | Some (Ingestion.Pickled data) => Some (Answer data)
  | Some Ingestion.Damaged =>
      Some (Failure (Exn "UnpicklingError" "pickle data was truncated"))
  | None => None
  end.

(** The text that the script extracts from the PDF, when there is any. *)
Definition extracted (PdfReader : string -> reply (reply (list (reply string))))
    (path : string) : option string :=
  match PdfReader path with
  | Answer (Answer pages) =>
      match pages_text pages with
      | "" => None
      | text => Some text
      end
  | _ => None
  end.

(** The chunks that [chunk_text] returns for a text. *)
Definition chunks_of (text : string) (size overlap : Z) : outcome (list string) :=
  fst (GenerateEmbeddings.chunk_text text size overlap
         {| console := []; requests := []; qdrant := ∅; drawn := 0 |}).

(** The files after [data] were given to [save_data_to_pickle]. *)
Definition files_after_save (open_wb : string -> option exn)
    (pickle_dump : pyval -> option exn) (data : list pyval) (path : string)
    (files : gmap string Ingestion.file) : gmap string Ingestion.file :=
  match data, open_wb path, pickle_dump (PyList data) with
  | _ :: _, None, None => <[path := Ingestion.Pickled (PyList data)]> files
  | _ :: _, None, Some _ => <[path := Ingestion.Damaged]> files
  | _, _, _ => files
  end.

(** The machine before the script starts. *)
Definition fresh_machine : Ingestion.machine :=
  {| Ingestion.output := []; Ingestion.traffic := []; Ingestion.files := ∅ |}.

(** ** Scenarios *)

(** The scenario of the specification: three chunks, and the request for the
    second one fails. *)
Definition second_fails (k : nat) (_ _ : string) : reply (list embedding) :=
  if (k =? 1)%nat then Failure unreachable else Answer [[0.5%float; 0.25%float]].

(** A cache whose two records have embeddings of different lengths. *)
Definition cache_record (text : string) (e : embedding) : pyval :=
  PyDict [("text", PyStr text); ("embedding", PyList (map PyFloat e))].

Definition mixed_cache : pyval :=
  PyList [cache_record "first chunk" [0.5%float; 0.25%float];
          cache_record "second chunk" [0.5%float]].

(** Three records for dimension 2: one to index, one without embedding, one
    of another length. *)
Definition three_records : list pyval :=
  [cache_record "first chunk" [0.5%float; 0.25%float];
   PyDict [("text", PyStr "second chunk"); ("embedding", PyNone)];
   cache_record "third chunk" [0.5%float]].

(** A server that already has the collection, with dimension 2 and a point
    of other data. *)
Definition old_collection : collection :=
  {| vectors_size := 2; vectors_distance := COSINE;
     stored_points :=
       {[ "3f0c" := ([0.5%float; 0.25%float], [("text", PyStr "other data")]) ]} |}.

Definition world_with_old_collection : world :=
  {| console := []; requests := [];
     qdrant := {[ VectorStore.collection_name := old_collection ]}; drawn := 0 |}.

(** A cache with one record of dimension 3, and a run of the whole script on
    it against the server that has the old collection: every request goes
    through. *)
Definition cache_of_dimension_3 : pyval :=
  PyList [cache_record "first chunk" [0.5%float; 0.25%float; 0.125%float]].

Definition run_on_old_collection : outcome unit * world :=
  VectorStore.main "localhost" 6333
    (fun _ => Some (Answer cache_of_dimension_3))
    (fun _ => None)
    (fun k => "id-" +:+ pretty k)
    (fun existing => Answer (vectors_size existing))
    world_with_old_collection.

(** An embedding service that answers every request with the same vector. *)
Definition one_vector (_ : nat) (_ _ : string) : reply (list embedding) :=
  Answer [[0.5%float; 0.25%float]].

(** An index that answers every query with the same points. *)
Definition index_of (points : list ScoredPoint)
    (_ : nat) (_ : string) (_ : embedding) (_ : Z) (_ : bool)
  : reply (list ScoredPoint) :=
  Answer points.

(** Two hits, best first: the second has no payload. *)
Definition two_points : list ScoredPoint :=
  [ {| hit_id := "3f0c"; hit_score := 0.875%float;
       hit_payload := Some [("text", PyStr "DeltaBench has 1236 samples.")] |};
    {| hit_id := "77aa"; hit_score := 0.5%float; hit_payload := None |} ].

(** A hit whose text is a number. *)
Definition number_point : ScoredPoint :=
  {| hit_id := "9b1e"; hit_score := 0.5%float;
     hit_payload := Some [("text", PyInt 1236)] |}.

(** A chat model that answers every request with the same text. *)
Definition answers_1236 (_ : nat) (_ : string) (_ : list chat_message) (_ : float)
  : reply (list (option string)) :=
  Answer [Some " 1236 "].

(** Identifiers that never repeat. *)
Definition serial_uuid (k : nat) : string := "id-" +:+ pretty k.

(** A PDF of four pages: one without text and one that cannot be read. *)
Definition four_pages (_ : string) : reply (reply (list (reply string))) :=
  Answer (Answer [Answer "first page"; Answer ""; Failure unreachable;
                  Answer "last page"]).

(** A cache whose second record has an embedding and no text. *)
Definition embedding_only : list (string * pyval) :=
  [("embedding", PyList [PyFloat 0.5%float; PyFloat 0.25%float])].

Definition cache_with_broken_record : pyval :=
  PyList ([cache_record "first chunk" [0.5%float; 0.25%float]]
          ++ PyDict embedding_only :: []).

(** * Facts about retrieval.py *)

Section RetrievalFacts.

Import Retrieval.

Variable embeddings_create : nat -> string -> string -> reply (list embedding).
Variable query_points :
  nat -> string -> embedding -> Z -> bool -> reply (list ScoredPoint).

Let retrieve := retrieve_relevant_chunks embeddings_create query_points.

(** Unfolds the monad down to the oracles. *)
Ltac run :=
  unfold retrieve, retrieve_relevant_chunks, embed_and_search, try_except,
    bind, call, first_item, print, ret, raise, sent; simpl.

(** [retrieve_relevant_chunks] returns a list in every world: it neither
    raises nor exits. *)
Lemma retrieve_returns query_text top_k w :
  exists hits w', retrieve query_text top_k w = (Returns hits, w').
Proof.
  run. case_decide; [eauto |].
  destruct (embeddings_create _ _ _) as [[|v data]|e]; simpl; eauto.
  destruct (query_points _ _ _ _ _) as [points|e]; simpl; eauto.
Qed.

(** C9.  For the empty query string, [retrieve_relevant_chunks] prints the
    diagnostic "Error: Query text cannot be empty." and returns the empty
    list at once: no request is sent, neither for an embedding nor to the
    index, and nothing else about the world changes. *)
Theorem empty_query_sends_nothing top_k w :
  exists w',
    retrieve "" top_k w = (Returns [], w')
    /\ printed w w' [QueryTextEmpty]
    /\ render QueryTextEmpty = "Error: Query text cannot be empty."
    /\ requests w' = requests w
    /\ qdrant w' = qdrant w.
Proof. eexists. repeat split. Qed.

(** C2, as the code has it.  For every non-empty query the retriever
    returns a list and never raises.  The list is empty when the index
    answers with no points, and it is empty as well when the embedding
    request fails, when the embedding response has no data, or when the
    index request fails; those failures are printed as "Error during
    retrieval" and the caller gets the same empty list. *)
Theorem retrieve_absorbs_failures query_text top_k w :
  query_text <> "" ->
  let n := length (requests w) in
  let announced := Retrieving top_k (String.substring 0 50 query_text) in
  exists hits w',
    retrieve query_text top_k w = (Returns hits, w')
    /\ (forall v data,
          embeddings_create n query_text embedding_model = Answer (v :: data) ->
          query_points (S n) collection_name v top_k true = Answer [] ->
          hits = [] /\ printed w w' [announced; FoundResults 0])
    /\ (forall v data e,
          embeddings_create n query_text embedding_model = Answer (v :: data) ->
          query_points (S n) collection_name v top_k true = Failure e ->
          hits = [] /\ printed w w' [announced; ErrorDuringRetrieval e])
    /\ (forall e,
          embeddings_create n query_text embedding_model = Failure e ->
          hits = [] /\ printed w w' [announced; ErrorDuringRetrieval e])
    /\ (embeddings_create n query_text embedding_model = Answer [] ->
        hits = [] /\ printed w w' [announced; ErrorDuringRetrieval IndexError]).
Proof.
  intros Hquery n announced. subst n announced. run. unfold printed.
  case_decide; [done |].
  destruct (embeddings_create _ _ _) as [[|v data]|e] eqn:Hembed; simpl.
  - do 2 eexists. split; [reflexivity |]. simpl.
    rewrite <- app_assoc. repeat split; congruence.
  - rewrite length_app, Nat.add_1_r.
    destruct (query_points _ _ _ _ _) as [points|e] eqn:Hquery_points; simpl;
      (do 2 eexists; split; [reflexivity |]); simpl; rewrite <- !app_assoc; simpl;
      repeat split; intros; simplify_eq; try congruence.
    all: try (match goal with
              | H1 : query_points _ _ ?a _ _ = _, H2 : query_points _ _ ?a _ _ = _ |- _ =>
                  rewrite H1 in H2; simplify_eq
              end); try done.
  - do 2 eexists. split; [reflexivity |]. simpl.
    rewrite <- app_assoc. repeat split; intros; simplify_eq; done.
Qed.

End RetrievalFacts.

(** C2, as the specification states it, fails: with an index that cannot be
    reached, the retriever returns the empty list, not an error. *)
Lemma unreachable_index_returns_empty_list :
  let embeddings_create := fun (_ : nat) (_ _ : string) => Answer [[0.5%float]] in
  let query_points :=
    fun (_ : nat) (_ : string) (_ : embedding) (_ : Z) (_ : bool) =>
      @Failure (list ScoredPoint) unreachable in
  let result :=
    fst (Retrieval.retrieve_relevant_chunks embeddings_create query_points
           "How many samples are there?" 3 fresh_world) in
  result = Returns [] /\ ~ (exists e, result = Raises e).
Proof. split; [reflexivity | intros [e He]; discriminate He]. Qed.

Lemma retrieve_absorbs_failures_witness :
  exists hits w',
    Retrieval.retrieve_relevant_chunks
      (fun _ _ _ => Failure unreachable) (fun _ _ _ _ _ => Answer [])
      "How many samples are there?" 3 fresh_world = (Returns hits, w')
    /\ hits = [].
Proof.
  destruct (retrieve_absorbs_failures
              (fun _ _ _ => Failure unreachable) (fun _ _ _ _ _ => Answer [])
              "How many samples are there?" 3 fresh_world ltac:(discriminate))
    as (hits & w' & Hrun & _ & _ & Hfails & _).
  exists hits, w'. split; [exact Hrun |].
  apply (Hfails unreachable). reflexivity.
Defined.

(** * Facts about rag_tool.py *)

Section RagToolFacts.

Import Retrieval RagTool.

Variable embeddings_create : nat -> string -> string -> reply (list embedding).
Variable query_points :
  nat -> string -> embedding -> Z -> bool -> reply (list ScoredPoint).
Variable chat_completions_create :
  nat -> string -> list chat_message -> float -> reply (list (option string)).

Let retrieve := retrieve_relevant_chunks embeddings_create query_points.
Let steps :=
  answer_from_context embeddings_create query_points chat_completions_create.
Let answer := generate_answer embeddings_create query_points chat_completions_create.

(** The [try] block of [generate_answer] never leaves through [exit()]. *)
Lemma answer_from_context_no_exit query top_k w w' :
  steps query top_k w <> (Exits, w').
Proof.
  unfold steps, answer_from_context, bind.
  destruct (retrieve_returns embeddings_create query_points query top_k w)
    as (hits & w1 & ->).
  destruct hits as [|hit hits]; [done |].
  unfold join_items, call, first_item, ret, raise.
  destruct (all_str _); [| done].
  destruct (chat_completions_create _ _ _ _) as [[|[content|] choices]|e]; done.
Qed.

(** C10.  [generate_answer] returns a string for every query and in every
    world; no exception leaves it.  When retrieval yields no chunks the
    string is "No relevant information found in the context.", and when a
    step of its [try] block raises, the string is "An error occurred while
    generating the answer." and the error is printed. *)
Theorem generate_answer_total query top_k w :
  exists text w',
    answer query top_k w = (Returns text, w')
    /\ (forall w1,
          retrieve query top_k w = (Returns [], w1) ->
          text = "No relevant information found in the context." /\ w' = w1)
    /\ (forall e w1,
          steps query top_k w = (Raises e, w1) ->
          text = "An error occurred while generating the answer."
          /\ printed w1 w' [ErrorGeneratingAnswer e]).
Proof.
  assert (Hnone : forall w1, retrieve query top_k w = (Returns [], w1) ->
                             steps query top_k w = (Returns no_information, w1)).
  { intros w1 H. unfold steps, answer_from_context, bind.
    fold retrieve. rewrite H. reflexivity. }
  unfold answer, generate_answer, try_except. fold steps.
  destruct (steps query top_k w) as [[text|e|] w1] eqn:Hsteps.
  - exists text, w1. split; [reflexivity |]. split.
    + intros w2 H. apply Hnone in H. by simplify_eq.
    + intros e w2 H. discriminate H.
  - eexists _, _. split; [reflexivity |]. split.
    + intros w2 H. apply Hnone in H. discriminate H.
    + intros e' w2 H. by simplify_eq.
  - by apply answer_from_context_no_exit in Hsteps.
Qed.

End RagToolFacts.

(** * Facts about generate_embeddings.py: the embedding batcher *)

Section BatcherFacts.

Import GenerateEmbeddings.

Variable embeddings_create : nat -> string -> string -> reply (list embedding).

Let kept := embedded embeddings_create.

(** One turn of the loop: one request, one line, one more entry. *)
Lemma embed_one_spec model n i chunk embeddings w :
  exists line w',
    embed_one embeddings_create model n i chunk embeddings w
    = (Returns (embeddings ++ [kept model (length (requests w)) chunk]), w')
    /\ printed w w' [line]
    /\ requested w w' [EmbeddingsCreate chunk model]
    /\ stated_total line = None
    /\ is_failure_line line
       = bool_decide (kept model (length (requests w)) chunk = None).
Proof.
  unfold embed_one, kept, embedded,
    try_except, bind, call, first_item, print, ret, raise, printed, requested.
  destruct (embeddings_create _ _ _) as [[|v data]|e]; simpl;
    eexists _, _; (split; [reflexivity |]); simpl; done.
Qed.

(** The loop adds one entry per chunk, in the order of the chunks. *)
Lemma embedding_loop_spec model n chunks : forall i embeddings w,
  exists lines w',
    embedding_loop embeddings_create model n i chunks embeddings w
    = (Returns (embeddings
                ++ imap (fun j chunk => kept model (length (requests w) + j) chunk)
                     chunks), w')
    /\ printed w w' lines
    /\ requested w w' (map (fun chunk => EmbeddingsCreate chunk model) chunks)
    /\ Forall (fun line => stated_total line = None) lines
    /\ length (filter (fun line => is_failure_line line = true) lines)
       = length (filter (fun o => o = None)
                   (imap (fun j chunk => kept model (length (requests w) + j) chunk)
                      chunks)).
Proof.
  induction chunks as [|chunk chunks IH]; intros i embeddings w.
  - exists [], w. unfold printed, requested. simpl.
    rewrite !app_nil_r. repeat split; constructor.
  - cbn [embedding_loop]. unfold bind at 1.
    destruct (embed_one_spec model n i chunk embeddings w)
      as (line & w1 & -> & Hline & Hsent & Htotal & Hfail).
    destruct (IH (i + 1)%nat (embeddings ++ [kept model (length (requests w)) chunk]) w1)
      as (lines & w' & -> & Hlines & Hsents & Htotals & Hfails).
    assert (Hshift : forall j : nat, (length (requests w1) + j = length (requests w) + S j)%nat).
    { intros j. unfold requested in Hsent. rewrite Hsent, length_app. simpl. lia. }
    assert (Htail :
      imap (fun j chunk => kept model (length (requests w1) + j) chunk) chunks
      = imap ((fun j chunk => kept model (length (requests w) + j) chunk) ∘ S) chunks).
    { apply imap_ext. intros j c _. simpl. by rewrite Hshift. }
    exists (line :: lines), w'. cbn [imap]. rewrite Nat.add_0_r, <- Htail.
    unfold printed, requested in *.
    split; [by rewrite <- app_assoc |].
    split; [by rewrite Hlines, Hline, <- app_assoc |].
    split; [by rewrite Hsents, Hsent, <- app_assoc |].
    split; [by constructor |].
    rewrite !filter_cons, Hfail.
    case_bool_decide as Hkept; repeat case_decide; try done; simpl;
      by rewrite Hfails.
Qed.

Lemma failed_plus_valid (embeddings : list (option embedding)) :
  (length (filter (fun o => o = None) embeddings)
   + length (valid_embeddings embeddings) = length embeddings)%nat.
Proof.
  unfold valid_embeddings.
  induction embeddings as [|[v|] embeddings IH]; [done | |];
    rewrite filter_cons; case_decide; try done; cbn; lia.
Qed.

(** C3.  For every sequence of chunks and whatever requests fail,
    [generate_embeddings] returns a list as long as the input, and its
    entry at position [i] is what the request sent for chunk [i] gave: the
    vector, or [None] when that request failed.  One request is sent per
    chunk, in the order of the chunks; a failure does not stop the run. *)
Theorem generate_embeddings_aligned chunks model w :
  exists embeddings w',
    generate_embeddings embeddings_create chunks model w = (Returns embeddings, w')
    /\ length embeddings = length chunks
    /\ (forall i chunk,
          chunks !! i = Some chunk ->
          embeddings !! i
          = Some (embedded embeddings_create model (length (requests w) + i) chunk))
    /\ requested w w' (map (fun chunk => EmbeddingsCreate chunk model) chunks).
Proof.
  destruct chunks as [|chunk chunks].
  - exists [], (snd (print NoChunksProvided w)). unfold requested. simpl.
    rewrite app_nil_r. repeat split. intros i c H. done.
  - unfold generate_embeddings, bind, print, ret.
    match goal with
    | |- context [embedding_loop _ _ ?n _ ?all _ ?w1] =>
        destruct (embedding_loop_spec model n all 0%nat [] w1)
          as (lines & w' & Hrun & Hlines & Hsent & _ & _)
    end.
    rewrite Hrun. unfold requested in *. cbn [app requests] in *.
    eexists _, _. split; [reflexivity |].
    split; [by rewrite length_imap |].
    split; [| exact Hsent].
    intros i c Hi. rewrite list_lookup_imap, Hi. reflexivity.
Qed.

(** C6, as the code has it.  For a non-empty sequence of chunks the console
    states the total attempted (the number of chunks) and the total
    succeeded (the number of entries that are not [None]).  No line states
    a total of failures: each failed chunk has a line of its own, and the
    number of those lines is the number of chunks minus the number
    succeeded. *)
Theorem accounting_states_attempted_and_succeeded chunks w :
  chunks <> [] ->
  exists embeddings lines w',
    embed_and_count embeddings_create (Some chunks) w = (Returns embeddings, w')
    /\ embeddings
       = imap (fun i chunk =>
                 embedded embeddings_create embedding_model
                   (length (requests w) + i) chunk) chunks
    /\ printed w w' lines
    /\ reports Attempted (length chunks) lines
    /\ reports Succeeded (length (valid_embeddings embeddings)) lines
    /\ length (filter (fun line => is_failure_line line = true) lines)
       = (length chunks - length (valid_embeddings embeddings))%nat
    /\ forall n, ~ reports Failed n lines.
Proof.
  intros Hchunks. destruct chunks as [|chunk chunks]; [done |].
  unfold embed_and_count, generate_embeddings, bind, print, ret.
  match goal with
  | |- context [embedding_loop _ _ ?n _ ?all _ ?w1] =>
      destruct (embedding_loop_spec embedding_model n all 0%nat [] w1)
        as (lines & w' & Hrun & Hlines & _ & Htotals & Hfailed)
  end.
  rewrite Hrun. unfold printed in *. cbn [app requests console] in *.
  set (all := chunk :: chunks) in *.
  remember (imap (fun j c => kept embedding_model (length (requests w) + j) c) all)
    as embeddings eqn:Hembeddings.
  assert (Hlen : length embeddings = length all)
    by (rewrite Hembeddings; apply length_imap).
  pose proof (failed_plus_valid embeddings) as Hsum.
  destruct embeddings as [|e rest]; [done |].
  eexists _, (_ :: _ :: lines ++ [_; _]), _. split; [reflexivity |].
  split; [exact Hembeddings |].
  split.
  { unfold printed. simpl. rewrite Hlines, <- !app_assoc. reflexivity. }
  split.
  { exists (GeneratingEmbeddings (length all) embedding_model).
    split; [| reflexivity]. set_solver. }
  split.
  { exists (SuccessfullyGenerated (length (valid_embeddings (e :: rest)))).
    split; [| reflexivity]. set_solver. }
  split.
  { rewrite !filter_cons. do 2 (case_decide; [done |]).
    rewrite filter_app, length_app, Hfailed.
    assert (Hlast : forall k,
      filter (fun line => is_failure_line line = true)
        [EmbeddingComplete; SuccessfullyGenerated k] = []) by done.
    rewrite Hlast, Hlen in *. cbn [length]. lia. }
  intros n (m & Hin & Hm).
  rewrite !elem_of_cons, elem_of_app, !elem_of_cons in Hin.
  destruct Hin as [-> | [-> | [Hin | [-> | [-> | Hin]]]]]; try done.
  - rewrite Forall_forall in Htotals. apply Htotals in Hin. congruence.
  - by apply elem_of_nil in Hin.
Qed.

End BatcherFacts.

(** C6, as the specification states it, fails: in the scenario the entries
    are [vector, None, vector], and no line of the console states that one
    embedding failed. *)
Lemma no_total_of_failures_is_stated :
  let run :=
    GenerateEmbeddings.embed_and_count second_fails
      (Some ["first chunk"; "second chunk"; "third chunk"]) fresh_world in
  fst run
  = Returns [Some [0.5%float; 0.25%float]; None; Some [0.5%float; 0.25%float]]
  /\ ~ reports Failed 1 (console (snd run)).
Proof.
  split; [reflexivity |].
  intros (m & Hin & Hm). vm_compute in Hin.
  repeat (apply elem_of_cons in Hin as [-> | Hin]; [discriminate Hm |]).
  by apply elem_of_nil in Hin.
Qed.

Lemma accounting_states_attempted_and_succeeded_witness :
  exists lines w',
    GenerateEmbeddings.embed_and_count second_fails
      (Some ["first chunk"; "second chunk"; "third chunk"]) fresh_world
    = (Returns [Some [0.5%float; 0.25%float]; None; Some [0.5%float; 0.25%float]], w')
    /\ printed fresh_world w' lines
    /\ reports Attempted 3 lines
    /\ reports Succeeded 2 lines
    /\ length (filter (fun line => is_failure_line line = true) lines) = 1%nat.
Proof.
  destruct (accounting_states_attempted_and_succeeded second_fails
              ["first chunk"; "second chunk"; "third chunk"] fresh_world
              ltac:(discriminate))
    as (embeddings & lines & w' & Hrun & -> & Hlines & Hattempted & Hsucceeded
        & Hfailed & _).
  exists lines, w'. repeat split; assumption.
Defined.

(** * Facts about vector_store.py *)

Section LoadFacts.

Import VectorStore.

Variable fickling_load : string -> option (reply pyval).

Lemma py_len_sized v w :
  py_len v w
  = match sized v with
    | Some n => (Returns n, w)
    | None => (Raises (TypeError "object has no len()"), w)
    end.
Proof. by destruct v. Qed.

(** C4, as the code has it.  Loading succeeds exactly when the file
    unpickles to a non-empty list whose first item is a dictionary with a
    text and an embedding that has a length; the reported dimension is that
    length.  The items after the first are not inspected: whatever the
    lengths of their embeddings, they do not make loading fail. *)
Theorem load_reads_first_dimension file_path w data D :
  fst (load_data_from_pickle fickling_load file_path w) = Returns (Some data, D)
  <-> exists data_0 others,
        fickling_load file_path = Some (Answer data)
        /\ data = PyList (data_0 :: others)
        /\ first_dimension data_0 = Some D.
Proof.
  unfold load_data_from_pickle.
  destruct (fickling_load file_path) as [[loaded|e]|]; simpl;
    [| by split; [| intros (? & ? & ? & _)] ..].
  unfold try_except, bind, print, ret, raise. simpl.
  rewrite py_len_sized.
  destruct loaded as [| | | | |[|data_0 others]|]; simpl;
    try (by split; [| intros (? & ? & ? & ? & _); simplify_eq]).
  destruct data_0 as [| | | | s|l|d]; simpl;
    try (by split; [| intros (? & ? & ? & ? & ?); simplify_eq]).
  - destruct (occurs "text" s); simpl;
      [destruct (occurs "embedding" s); simpl |];
      by split; [| intros (? & ? & ? & ? & ?); simplify_eq].
  - destruct (existsb _ l); simpl;
      [destruct (existsb _ l); simpl |];
      by split; [| intros (? & ? & ? & ? & ?); simplify_eq].
  - unfold first_dimension, dict_has.
    destruct (dict_get "text" d) as [text|] eqn:Htext; simpl;
      [| split; [done | intros (? & ? & ? & ? & ?); simplify_eq;
                        by rewrite Htext in *]].
    destruct (dict_get "embedding" d) as [e|] eqn:Hembedding; simpl;
      [| split; [done | intros (? & ? & ? & ? & ?); simplify_eq;
                        by rewrite Htext, Hembedding in *]].
    rewrite py_len_sized.
    destruct (sized e) as [n|] eqn:Hsized; simpl.
    + split.
      * intros H. simplify_eq. eexists _, _. repeat split.
        cbn beta iota. by rewrite Htext, Hembedding.
      * intros (? & ? & ? & ? & H). simplify_eq.
        rewrite Htext, Hembedding, Hsized in H. by simplify_eq.
    + split; [done | intros (? & ? & ? & ? & H); simplify_eq].
      rewrite Htext, Hembedding, Hsized in H. done.
Qed.

End LoadFacts.

Section IndexBuilderFacts.

Import VectorStore.

Variable fault : nat -> option exn.
Variable uuid4 : nat -> string.

Lemma floats_length l e : floats l = Some e -> length e = length l.
Proof.
  revert e. induction l as [|v l IH]; intros e H; simpl in H; [by simplify_eq |].
  destruct v; try done. destruct (floats l) as [e'|]; [| done].
  simpl in H. simplify_eq. simpl. f_equal. by apply IH.
Qed.

(** The loop over the records, from any position and with any points
    already prepared. *)
Lemma prepare_points_spec D items : forall i points_to_upsert w,
  Forall (fun item => is_Some (chunk_record item)) items ->
  exists w',
    prepare_points uuid4 D i items points_to_upsert w
    = (Returns (points_to_upsert
                ++ imap (fun k r => indexed_point uuid4 (drawn w + k) r)
                     (survivors D items)), w')
    /\ printed w w' (map SkippingItem (skipped_from D i items))
    /\ requests w' = requests w
    /\ qdrant w' = qdrant w
    /\ drawn w' = (drawn w + length (survivors D items))%nat.
Proof.
  induction items as [|item items IH]; intros i points w Hrecords.
  - exists w. unfold printed. simpl. rewrite !app_nil_r. repeat split; lia.
  - apply Forall_cons in Hrecords as [[[text e] Hrecord] Hrecords].
    cbn [prepare_points skipped_from survivors omap list_omap].
    fold (survivors D items).
    unfold survivor. rewrite Hrecord.
    unfold chunk_record in Hrecord.
    destruct item as [| | | | | |d]; try done.
    destruct (dict_get "text" d) as [text'|] eqn:Htext; [| done].
    unfold bind at 1, invalid_embedding, bind at 1, py_get, ret at 1.
    destruct (dict_get "embedding" d) as [v|] eqn:Hembedding; simpl.
    2: { simplify_eq.
         destruct (IH (i + 1)%nat points (snd (print (SkippingItem i) w)) Hrecords)
           as (w' & Hrun & Hprinted & ? & ? & ?).
         unfold bind, print at 1 in |- *. simpl in *.
         rewrite Hrun. exists w'. unfold printed in *. simpl in *.
         rewrite Nat.add_1_r, <- app_assoc in Hprinted. done. }
    destruct v as [| | | | |l|]; simpl in Hrecord; try done.
    + simplify_eq.
      destruct (IH (i + 1)%nat points (snd (print (SkippingItem i) w)) Hrecords)
        as (w' & Hrun & Hprinted & ? & ? & ?).
      unfold bind, print at 1 in |- *. simpl in *.
      rewrite Hrun. exists w'. unfold printed in *. simpl in *.
      rewrite Nat.add_1_r, <- app_assoc in Hprinted. done.
    + destruct (floats l) as [e'|] eqn:Hfloats; simpl in Hrecord; [| done].
      simplify_eq. pose proof (floats_length _ _ Hfloats) as Hlen.
      unfold bind, py_getitem, py_len, ret. rewrite Hembedding. simpl.
      rewrite <- Hlen.
      destruct (length e' =? D)%nat; simpl.
      * unfold new_point, as_vector, ret. rewrite Htext, Hfloats.
        match goal with
        | |- context [prepare_points _ _ _ _ ?acc ?w1] =>
            destruct (IH (i + 1)%nat acc w1 Hrecords)
              as (w' & Hrun & Hprinted & ? & ? & ?)
        end.
        rewrite Hrun. exists w'. unfold printed in *. simpl in *.
        rewrite <- app_assoc. simpl. rewrite Nat.add_0_r.
        rewrite Nat.add_1_r in Hprinted.
        split; [| repeat split; [done .. | lia]].
        rewrite (imap_ext _
                   ((fun k r => indexed_point uuid4 (drawn w + k) r) ∘ S));
          [done |].
        intros k r _. simpl. f_equal. lia.
      * destruct (IH (i + 1)%nat points (snd (print (SkippingItem i) w)) Hrecords)
          as (w' & Hrun & Hprinted & ? & ? & ?).
        simpl in *.
        rewrite Hrun. exists w'. unfold printed in *. simpl in *.
        rewrite Nat.add_1_r, <- app_assoc in Hprinted. done.
Qed.

Lemma survivors_and_skipped D items : forall i,
  (length (survivors D items) + length (skipped_from D i items) = length items)%nat.
Proof.
  unfold survivors. induction items as [|item items IH]; intros i; [done |].
  cbn. destruct (survivor D item); cbn; specialize (IH (S i)); lia.
Qed.

Lemma skipped_from_positions D items : forall i p,
  p ∈ skipped_from D i items
  <-> exists item,
        (i <= p)%nat /\ items !! (p - i)%nat = Some item /\ survivor D item = None.
Proof.
  induction items as [|item items IH]; intros i p; simpl.
  - split; [by intros ?%elem_of_nil | by intros (? & _ & ? & _)].
  - assert (Hlater : p ∈ skipped_from D (S i) items
                     <-> exists x, (i < p)%nat /\ items !! (p - S i)%nat = Some x
                                   /\ survivor D x = None).
    { rewrite IH. split; intros (x & ? & ? & ?); exists x; repeat split; done || lia. }
    destruct (survivor D item) eqn:Hitem; [| rewrite elem_of_cons]; rewrite Hlater.
    + split.
      * intros (x & Hp & Hx & Hnone). exists x. split; [lia |]. split; [| done].
        replace (p - i)%nat with (S (p - S i)) by lia. done.
      * intros (x & Hp & Hx & Hnone).
        destruct (decide (p = i)) as [-> | Hne].
        -- rewrite Nat.sub_diag in Hx. simpl in Hx. congruence.
        -- exists x. split; [lia |]. split; [| done].
           replace (p - i)%nat with (S (p - S i)) in Hx by lia. done.
    + split.
      * intros [-> | (x & Hp & Hx & Hnone)].
        -- exists item. rewrite Nat.sub_diag. done.
        -- exists x. split; [lia |]. split; [| done].
           replace (p - i)%nat with (S (p - S i)) by lia. done.
      * intros (x & Hp & Hx & Hnone).
        destruct (decide (p = i)) as [-> | Hne]; [by left | right].
        exists x. split; [lia |]. split; [| done].
        replace (p - i)%nat with (S (p - S i)) in Hx by lia. done.
Qed.

Lemma indexed_point_ids (rs : list (pyval * embedding)) : forall n,
  map point_id (imap (fun k r => indexed_point uuid4 (n + k) r) rs)
  = map uuid4 (seq n (length rs)).
Proof.
  induction rs as [|r rs IH]; intros n; [done |].
  simpl. rewrite Nat.add_0_r. f_equal. rewrite <- IH.
  f_equal. apply imap_ext. intros k x _. simpl. f_equal. lia.
Qed.

(** One batch: the request is sent and the loop goes on, whether the
    request fails or not. *)
Lemma upsert_batches_sends points starts : forall w,
  exists w',
    upsert_batches fault points starts w = (Returns tt, w')
    /\ requested w w'
         (map (fun i => Upsert collection_name (take batch_size (drop i points)) true)
            starts).
Proof.
  induction starts as [|i starts IH]; intros w.
  - exists w. unfold requested. simpl. by rewrite app_nil_r.
  - cbn [upsert_batches map]. unfold bind at 1.
    set (batch := take batch_size (drop i points)).
    assert (Hturn : exists w1,
      try_except
        (qdrant_call fault (Upsert collection_name batch true)
           (server_upsert collection_name batch);;;
         print (UpsertedBatch (i / batch_size + 1)
                  ((length points + batch_size - 1) / batch_size)))
        (fun e => print (ErrorUpsertingBatch i e)) w = (Returns tt, w1)
      /\ requested w w1 [Upsert collection_name batch true]).
    { unfold try_except, bind, qdrant_call, print, sent, requested.
      destruct (fault _); simpl; [by eexists |].
      destruct (server_upsert _ _ _) as [[[]|e] q]; simpl; by eexists. }
    destruct Hturn as (w1 & -> & Hsent).
    destruct (IH w1) as (w' & -> & Hsents).
    exists w'. split; [done |]. unfold requested in *.
    by rewrite Hsents, Hsent, <- app_assoc.
Qed.

(** The batches cut the list of points into consecutive pieces. *)
Lemma batches_cover {A} (step : nat) (l : list A) : forall m,
  (0 < step)%nat ->
  (length l <= m * step)%nat ->
  concat (map (fun i => take step (drop i l)) (map (fun k => k * step)%nat (seq 0 m)))
  = l.
Proof.
  intros m Hstep. revert l.
  induction m as [|m IH]; intros l Hlen.
  - simpl in *. destruct l; [done | simpl in Hlen; lia].
  - rewrite <- cons_seq, <- fmap_S_seq. simpl.
    rewrite drop_0.
    transitivity (take step l ++ drop step l); [| apply take_drop].
    f_equal.
    etransitivity; [| apply (IH (drop step l)); rewrite length_drop; lia].
    f_equal. rewrite <- !list_fmap_compose. apply list_fmap_ext.
    intros _ k _. simpl. by rewrite drop_drop.
Qed.

Lemma upserted_batches (points : list PointStruct) :
  upserted
    (map (fun i => Upsert collection_name (take batch_size (drop i points)) true)
       (range_step (length points) batch_size))
  = points.
Proof.
  unfold upserted, range_step.
  set (m := ((length points + batch_size - 1) / batch_size)%nat).
  etransitivity; [| apply (batches_cover batch_size points m)].
  - generalize (map (fun k => (k * batch_size)%nat) (seq 0 m)).
    intros starts. induction starts as [|i starts IH]; [done |].
    simpl. by rewrite IH.
  - unfold batch_size. lia.
  - pose proof (Nat.div_mod_eq (length points + batch_size - 1) batch_size).
    pose proof (Nat.mod_upper_bound (length points + batch_size - 1) batch_size).
    unfold m, batch_size in *. lia.
Qed.

(** C8.  For records of the data model and any dimension [D], the index
    builder leaves out exactly the records whose embedding is absent or has
    a length other than [D], printing one warning with the position of each;
    every other record becomes one point, in the order of the records, with
    the next identifier drawn from [uuid4], its vector, and the payload
    [{"text": text}].  The identifiers are pairwise distinct when [uuid4]
    never repeats itself, and the points that the upsert requests carry
    are these points. *)
Theorem index_builder_skips_invalid_records D items w :
  Forall (fun item => is_Some (chunk_record item)) items ->
  let points :=
    imap (fun k r => indexed_point uuid4 (drawn w + k) r) (survivors D items) in
  let skipped := skipped_from D 0 items in
  (exists w',
     prepare_points uuid4 D 0 items [] w = (Returns points, w')
     /\ printed w w' (map SkippingItem skipped)
     /\ requests w' = requests w)
  /\ (forall p,
        p ∈ skipped
        <-> exists item, items !! p = Some item /\ survivor D item = None)
  /\ (length points + length skipped = length items)%nat
  /\ ((forall j k, uuid4 j = uuid4 k -> j = k) -> NoDup (map point_id points))
  /\ (exists out w' sent,
        upsert_data fault uuid4 (Some (PyList items)) D w = (out, w')
        /\ requested w w' sent
        /\ upserted sent = points).
Proof.
  intros Hrecords points skipped.
  destruct (prepare_points_spec D items 0%nat [] w Hrecords)
    as (w1 & Hrun & Hprinted & Hrequests & _ & _).
  cbn [app] in Hrun. fold points in Hrun. fold skipped in Hprinted.
  split; [by exists w1 |].
  split.
  { intros p. unfold skipped. rewrite skipped_from_positions.
    rewrite Nat.sub_0_r.
    split; intros (item & ?); exists item; [tauto | split; [lia | tauto]]. }
  split.
  { unfold points. rewrite length_imap. apply survivors_and_skipped. }
  split.
  { intros Hinj. unfold points. rewrite indexed_point_ids.
    apply NoDup_fmap_2; [| apply NoDup_seq].
    intros j k. apply Hinj. }
  unfold upsert_data, bind at 1, py_items, ret at 1, bind at 1. rewrite Hrun.
  destruct points as [|point points'] eqn:Hpoints.
  - eexists _, _, []. split; [reflexivity |].
    unfold requested. simpl. by rewrite app_nil_r.
  - rewrite <- Hpoints. unfold bind at 1, print at 1. unfold bind at 1.
    match goal with
    | |- context [upsert_batches _ _ ?starts ?w2] =>
        destruct (upsert_batches_sends points starts w2) as (w3 & -> & Hsent)
    end.
    unfold requested in Hsent. simpl in Hsent. rewrite Hrequests in Hsent.
    unfold bind at 1, print at 1.
    match goal with
    | |- context [try_except ?body ?handler ?w4] =>
        assert (Hcount : exists out w',
                  try_except body handler w4 = (out, w')
                  /\ requested w4 w' [Count collection_name true])
    end.
    { unfold try_except, bind, qdrant_call, print, sent, requested. simpl.
      destruct (fault _); simpl; [by eexists _, _ |].
      destruct (server_count _ _) as [[n|e] q]; simpl; by eexists _, _. }
    destruct Hcount as (out & w' & -> & Hcounted).
    unfold requested in *. simpl in Hcounted.
    eexists out, w', _. split; [reflexivity |].
    split; [by rewrite Hcounted, Hsent, <- app_assoc |].
    unfold upserted. rewrite flat_map_app. simpl. rewrite app_nil_r.
    apply upserted_batches.
Qed.

End IndexBuilderFacts.

(** C4, as the specification states it, fails: the cache with mixed vector
    lengths loads, with the dimension of its first record, although the
    second record has another length. *)
Lemma mixed_dimensions_load :
  fst (VectorStore.load_data_from_pickle (fun _ => Some (Answer mixed_cache))
         VectorStore.pickle_file_path fresh_world)
  = Returns (Some mixed_cache, 2%nat)
  /\ first_dimension (cache_record "second chunk" [0.5%float]) = Some 1%nat.
Proof. split; reflexivity. Qed.

Lemma load_reads_first_dimension_witness :
  fst (VectorStore.load_data_from_pickle (fun _ => Some (Answer mixed_cache))
         VectorStore.pickle_file_path fresh_world)
  = Returns (Some mixed_cache, 2%nat).
Proof.
  apply (load_reads_first_dimension (fun _ => Some (Answer mixed_cache))).
  eexists _, _. repeat split.
Defined.

Lemma index_builder_skips_invalid_records_witness :
  exists w',
    VectorStore.prepare_points (fun k => "id-" +:+ pretty k) 2 0 three_records []
      fresh_world
    = (Returns [ {| point_id := "id-0";
                    point_vector := [0.5%float; 0.25%float];
                    point_payload := [("text", PyStr "first chunk")] |} ], w')
    /\ printed fresh_world w' [SkippingItem 1; SkippingItem 2].
Proof.
  destruct (index_builder_skips_invalid_records (fun _ => None)
              (fun k => "id-" +:+ pretty k) 2 three_records fresh_world)
    as ((w' & Hrun & Hprinted & _) & _).
  - repeat constructor; eexists; reflexivity.
  - exists w'. split; [exact Hrun | exact Hprinted].
Defined.

Section ProvisioningFacts.

Import VectorStore.

Variable fault : nat -> option exn.
Variable vectors_config_size : collection -> reply nat.

(** C1, as the code has it.  The index builder first asks the server to
    recreate the collection with dimension [D] and cosine distance.  When
    that request goes through, the collection is created if it was absent
    and replaced by an empty one if it existed, whatever its dimension was,
    and the script goes on to upsert.  Only when that request fails is the
    existing collection inspected: when its size reads as other than [D] the
    script prints the conflict and exits; when it reads as [D] the script
    goes on to upsert into the collection; when the collection is absent or
    cannot be inspected the script exits.  In those cases the server keeps
    what it has. *)
Theorem create_collection_recreates D w :
  let n := length (requests w) in
  let recreate := RecreateCollection collection_name D COSINE in
  let inspect := GetCollection collection_name in
  let empty_collection :=
    {| vectors_size := D; vectors_distance := COSINE; stored_points := ∅ |} in
  (fault n = None ->
   exists w',
     create_collection fault vectors_config_size D w = (Returns tt, w')
     /\ qdrant w' = <[collection_name := empty_collection]> (qdrant w)
     /\ requested w w' [recreate]
     /\ printed w w'
          [AttemptingCreate collection_name; CollectionCreated collection_name])
  /\ (forall e,
        fault n = Some e ->
        exists out w' line,
          create_collection fault vectors_config_size D w = (out, w')
          /\ qdrant w' = qdrant w
          /\ requested w w' [recreate; inspect]
          /\ printed w w' [AttemptingCreate collection_name; ErrorCreating e; line]
          /\ match fault (S n), qdrant w !! collection_name with
             | None, Some existing =>
                 match vectors_config_size existing with
                 | Answer existing_size =>
                     if decide (existing_size = D) then
                       out = Returns tt /\ line = AlreadyExists collection_name
                     else
                       out = Exits
                       /\ line = DimensionMismatch collection_name existing_size D
                 | Failure e2 => out = Exits /\ line = CouldNotVerify e2
                 end
             | None, None =>
                 out = Exits /\ line = CouldNotVerify (not_found collection_name)
             | Some e2, _ => out = Exits /\ line = CouldNotVerify e2
             end).
Proof.
  intros n recreate inspect empty_collection. subst n.
  unfold create_collection, try_except, bind, qdrant_call, print, exit, evaluate,
    server_recreate_collection, server_get_collection, requested, printed, sent.
  simpl. split.
  - intros ->. simpl. eexists. repeat split. simpl. by rewrite <- app_assoc.
  - intros e ->. simpl. rewrite length_app, Nat.add_1_r.
    destruct (fault (S _)) as [e2|]; simpl.
    + eexists _, _, _. split; [reflexivity |]. simpl.
      rewrite <- !app_assoc. done.
    + destruct (qdrant w !! collection_name) as [existing|]; simpl.
      * destruct (vectors_config_size existing) as [existing_size|e2]; simpl.
        -- destruct (decide (existing_size <> D)) as [Hne|Heq]; simpl;
             eexists _, _, _; (split; [reflexivity |]); simpl;
             rewrite <- !app_assoc; repeat split; case_decide; try done.
        -- eexists _, _, _. split; [reflexivity |]. simpl.
           rewrite <- !app_assoc. done.
      * eexists _, _, _. split; [reflexivity |]. simpl.
        rewrite <- !app_assoc. done.
Qed.

End ProvisioningFacts.

(** C1, as the specification states it, fails: when the collection exists
    with dimension 2 and the records have dimension 3, provisioning reports
    no conflict; the collection is recreated with dimension 3 and the point
    it held is gone.  The script as a whole ends normally, with the new point
    as the only point of the collection. *)
Lemma mismatched_collection_is_recreated :
  let run :=
    VectorStore.create_collection (fun _ => None)
      (fun existing => Answer (vectors_size existing)) 3 world_with_old_collection in
  (fst run = Returns tt
   /\ console (snd run)
      = [AttemptingCreate VectorStore.collection_name;
         CollectionCreated VectorStore.collection_name]
   /\ qdrant (snd run) !! VectorStore.collection_name
      = Some {| vectors_size := 3; vectors_distance := COSINE; stored_points := ∅ |})
  /\ fst run_on_old_collection = Returns tt
  /\ qdrant (snd run_on_old_collection) !! VectorStore.collection_name
     = Some {| vectors_size := 3; vectors_distance := COSINE;
               stored_points :=
                 {[ "id-0" := ([0.5%float; 0.25%float; 0.125%float],
                               [("text", PyStr "first chunk")]) ]} |}.
Proof. repeat split. Qed.

(** * Facts about generate_embeddings.py: the chunker *)

(** C7.  Chunking "ABCDEFGHIJ" with size 4 and overlap 2 gives the four
    chunks "ABCD", "CDEF", "EFGH" and "GHIJ", in that order; they are the
    pieces of the text that start at the offsets 0, 2, 4 and 6. *)
Theorem chunking_scenario w :
  let text := "ABCDEFGHIJ" in
  exists w',
    GenerateEmbeddings.chunk_text text 4 2 w
    = (Returns ["ABCD"; "CDEF"; "EFGH"; "GHIJ"], w')
    /\ printed w w' [ChunkingText 4 2; SplitIntoChunks 4]
    /\ Forall2 (found_at text) ["ABCD"; "CDEF"; "EFGH"; "GHIJ"] [0; 2; 4; 6]%nat.
Proof.
  eexists. split; [reflexivity |]. split.
  - unfold printed. simpl. by rewrite <- app_assoc.
  - repeat constructor.
Qed.

(** C5, as the specification states it, fails: the chunks are the bare
    strings.  Chunking "ABAB" with size 2 and no overlap gives the same
    string twice, for the pieces at the offsets 0 and 2, so that no offset
    can be read off a chunk. *)
Lemma chunks_do_not_carry_offsets :
  fst (GenerateEmbeddings.chunk_text "ABAB" 2 0 fresh_world) = Returns ["AB"; "AB"]
  /\ ~ carry_offsets "ABAB" ["AB"; "AB"].
Proof.
  split; [reflexivity |].
  intros (start_offset & _ & Hsorted). simpl in Hsorted.
  apply StronglySorted_inv in Hsorted as [_ Hlt].
  apply Forall_cons in Hlt as [Hlt _]. lia.
Qed.


(** ** Strings and their pieces *)

#[local] Arguments String.append !_ _ / : simpl nomatch.

Lemma append_assoc (a b c : string) : (a +:+ b) +:+ c = a +:+ (b +:+ c).
Proof. induction a as [|x a IH]; simpl; [done | by rewrite IH]. Qed.

Lemma append_nil_r (a : string) : a +:+ "" = a.
Proof. induction a as [|x a IH]; simpl; [done | by rewrite IH]. Qed.

Lemma substring_append (before chunk after : string) :
  String.substring (String.length before) (String.length chunk)
    (before +:+ chunk +:+ after) = chunk.
Proof.
  induction before as [|x before IH]; simpl; [| exact IH].
  induction chunk as [|y chunk IH]; simpl; [by destruct after | by rewrite IH].
Qed.

Lemma piece_found_at chunk text :
  piece chunk text -> exists offset, found_at text chunk offset.
Proof.
  intros (before & after & ->). exists (String.length before).
  apply substring_append.
Qed.

Lemma piece_refl text : piece text text.
Proof. exists "", "". simpl. by rewrite append_nil_r. Qed.

Lemma piece_trans a b c : piece a b -> piece b c -> piece a c.
Proof.
  intros (b1 & b2 & ->) (c1 & c2 & ->). exists (c1 +:+ b1), (b2 +:+ c2).
  by rewrite !append_assoc.
Qed.

Lemma piece_append_l a b : piece a (a +:+ b).
Proof. by exists "", b. Qed.

Lemma piece_append_r a b : piece b (a +:+ b).
Proof. exists a, "". by rewrite append_nil_r. Qed.

Lemma piece_lstrip s : piece (lstrip s) s.
Proof.
  induction s as [|c s IH]; simpl; [apply piece_refl |].
  destruct (isspace c); [| apply piece_refl].
  eapply piece_trans; [exact IH |]. apply (piece_append_r (String c "")).
Qed.

Lemma rstrip_prefix s : exists rest, s = rstrip s +:+ rest.
Proof.
  induction s as [|c s (rest & IH)]; simpl; [by exists "" |].
  destruct (rstrip s) as [|y r] eqn:Hr.
  - destruct (isspace c); [by exists (String c s) | by exists s].
  - exists rest. simpl in *. by rewrite <- IH.
Qed.

Lemma piece_rstrip s : piece (rstrip s) s.
Proof.
  destruct (rstrip_prefix s) as (rest & Hs). rewrite Hs at 2.
  apply piece_append_l.
Qed.

Lemma piece_strip s : piece (strip s) s.
Proof.
  unfold strip. eapply piece_trans; [apply piece_rstrip | apply piece_lstrip].
Qed.

Lemma join_empty_cons x items : join "" (x :: items) = x +:+ join "" items.
Proof. destruct items; simpl; [by rewrite append_nil_r | done]. Qed.

Lemma join_empty_app a b : join "" (a ++ b) = join "" a +:+ join "" b.
Proof.
  induction a as [|x a IH]; [done |].
  rewrite <- app_comm_cons, !join_empty_cons, IH. by rewrite append_assoc.
Qed.

Lemma piece_join_window before window after :
  piece (join "" window) (join "" (before ++ window ++ after)).
Proof.
  rewrite !join_empty_app. by exists (join "" before), (join "" after).
Qed.

(** ** The merge of pieces into chunks *)

Section MergeFacts.

Import TextSplitter.

Variable self : RecursiveCharacterTextSplitter.
Hypothesis overlap_ok : 0 <= _chunk_overlap self.

Lemma total_length_app a b : total_length (a ++ b) = total_length a + total_length b.
Proof. induction a as [|x a IH]; simpl; lia. Qed.

(** The [while] loop never reads the first item of an empty list, and it
    keeps the end of [current_doc]. *)
Lemma pop_front_keeps_end _len current_doc : forall total,
  total = total_length current_doc ->
  exists dropped kept,
    current_doc = dropped ++ kept
    /\ pop_front self "" _len current_doc total = Some (kept, total_length kept).
Proof.
  induction current_doc as [|d0 rest IH]; intros total ->.
  - exists [], []. split; [done |]. simpl.
    replace (0 >? _chunk_overlap self) with false by lia.
    change (0 >? 0) with false. by rewrite andb_false_r.
  - cbn [pop_front].
    match goal with |- context [if ?c then _ else _] => destruct c end.
    + destruct (IH (total_length (d0 :: rest)
                    - (len d0 + (if (1 <? length (d0 :: rest))%nat
                                 then separator_len "" else 0))))
        as (dropped & kept & -> & Hrun).
      { change (separator_len "") with 0. unfold total_length. cbn [foldr].
        destruct (1 <? _)%nat; lia. }
      exists (d0 :: dropped), kept. split; [done |]. exact Hrun.
    + by exists [], (d0 :: rest).
Qed.

(** Every chunk that the merge adds is a piece of the text that the pieces
    make up, and it is not empty. *)
Lemma merge_loop_pieces splits : forall docs current_doc total,
  total = total_length current_doc ->
  exists merged,
    merge_loop self "" splits docs current_doc total = Some (docs ++ merged)
    /\ Forall (fun doc => doc <> "" /\ piece doc (join "" (current_doc ++ splits)))
         merged.
Proof.
  induction splits as [|d splits IH]; intros docs current_doc total ->.
  - cbn [merge_loop]. unfold _join_docs. rewrite app_nil_r.
    case_decide as Hempty.
    + exists []. by rewrite app_nil_r.
    + exists [strip (join "" current_doc)]. split; [done |].
      repeat constructor; [done | apply piece_strip].
  - cbn [merge_loop].
    assert (Hnext : forall kept,
              total_length kept
              + (len d + (if (1 <? length (kept ++ [d]))%nat
                          then separator_len "" else 0))
              = total_length (kept ++ [d])).
    { intros kept. rewrite total_length_app. change (separator_len "") with 0.
      unfold total_length. cbn [foldr]. destruct (1 <? _)%nat; lia. }
    match goal with |- context [if ?c then _ else _] => destruct c end.
    + destruct (pop_front_keeps_end (len d) current_doc _ eq_refl)
        as (dropped & kept & Hkept & ->).
      set (docs1 := match _join_docs current_doc "" with
                    | Some doc => docs ++ [doc]
                    | None => docs
                    end).
      destruct (IH docs1 (kept ++ [d]) _ (Hnext kept)) as (merged & -> & Hmerged).
      assert (Hlater : Forall (fun doc => doc <> ""
                                 /\ piece doc (join "" (current_doc ++ d :: splits)))
                         merged).
      { eapply Forall_impl; [exact Hmerged |]. intros doc [Hne Hpiece].
        split; [done |]. eapply piece_trans; [exact Hpiece |].
        rewrite Hkept, <- !app_assoc. simpl.
        rewrite <- (app_nil_r (kept ++ d :: splits)) at 2.
        apply piece_join_window. }
      subst docs1. unfold _join_docs. case_decide as Hempty.
      * by exists merged.
      * exists (strip (join "" current_doc) :: merged).
        rewrite <- app_assoc. split; [done |]. constructor; [| done].
        split; [done |]. eapply piece_trans; [apply piece_strip |].
        rewrite join_empty_app. apply piece_append_l.
    + destruct (IH docs (current_doc ++ [d]) _ (Hnext current_doc))
        as (merged & -> & Hmerged).
      exists merged. split; [done |]. by rewrite <- app_assoc in Hmerged.
Qed.

Lemma merge_splits_pieces splits :
  exists merged,
    _merge_splits self "" splits = Some merged
    /\ Forall (fun doc => doc <> "" /\ piece doc (join "" splits)) merged.
Proof. apply (merge_loop_pieces splits [] [] 0). done. Qed.

End MergeFacts.

(** ** The split of a text at a separator *)

Section SplitFacts.

Import TextSplitter.

Lemma characters_join text : join "" (characters text) = text.
Proof.
  induction text as [|c text IH]; [done |].
  cbn [characters]. by rewrite join_empty_cons, IH.
Qed.

Lemma startswith_append sep text :
  startswith sep text = true -> exists rest, text = sep +:+ rest.
Proof.
  revert text. induction sep as [|a sep IH]; intros text H; [by exists text |].
  destruct text as [|b text]; [done |]. simpl in H.
  case_decide as Hab; [| done]. subst b.
  destruct (IH text H) as (rest & ->). by exists rest.
Qed.

Lemma pieces_skip sep skipped : forall rest,
  pieces sep (String.length skipped) (skipped +:+ rest) = pieces sep 0 rest.
Proof. induction skipped as [|c skipped IH]; intros rest; [done | apply IH]. Qed.

Lemma pieces_not_empty sep text : forall skip, pieces sep skip text <> [].
Proof.
  induction text as [|c text IH]; intros skip; [done |].
  destruct skip as [|skip]; cbn [pieces]; [| apply IH].
  destruct (startswith sep (String c text)); [done |].
  by destruct (pieces sep 0 text).
Qed.

Lemma join_cons_not_empty sep x items :
  items <> [] -> join sep (x :: items) = x +:+ sep +:+ join sep items.
Proof. by destruct items. Qed.

(** Joining the pieces with the separator gives the text back. *)
Lemma pieces_join sep text :
  sep <> "" -> join sep (pieces sep 0 text) = text.
Proof.
  intros Hsep.
  remember (String.length text) as n eqn:Hn.
  assert (Hle : (String.length text <= n)%nat) by lia. clear Hn.
  revert text Hle. induction n as [|n IH]; intros text Hle.
  - by destruct text; [| simpl in Hle; lia].
  - destruct text as [|c text]; [done |].
    cbn [pieces]. destruct (startswith sep (String c text)) eqn:Hstart.
    + apply startswith_append in Hstart as (rest & Htext).
      destruct sep as [|a sep]; [done |]. simpl in Htext. simplify_eq.
      replace (String.length (String a sep) - 1)%nat with (String.length sep)
        by (simpl; lia).
      rewrite pieces_skip, join_cons_not_empty by apply pieces_not_empty.
      rewrite IH; [done |].
      simpl in Hle. clear -Hle. revert Hle.
      induction sep as [|b sep IHsep]; simpl; [lia |]. intros Hle. apply IHsep. lia.
    + pose proof (pieces_not_empty sep text 0%nat) as Hne.
      specialize (IH text ltac:(simpl in Hle; lia)).
      destruct (pieces sep 0 text) as [|first others]; [done |].
      destruct others; simpl in *; by rewrite IH.
Qed.

Lemma join_separators sep others : forall first,
  join "" (first :: map (fun x => sep +:+ x) others) = join sep (first :: others).
Proof.
  induction others as [|x others IH]; intros first; [done |].
  rewrite (join_cons_not_empty sep first (x :: others)) by done. cbn [map].
  rewrite join_empty_cons, IH. f_equal.
  destruct others; simpl; [done |]. by rewrite !append_assoc.
Qed.

Lemma join_filter_not_empty items :
  join "" (filter (fun s => s <> "") items) = join "" items.
Proof.
  induction items as [|x items IH]; [done |].
  rewrite filter_cons, join_empty_cons. case_decide as Hx.
  - by rewrite join_empty_cons, IH.
  - by rewrite Hx, IH.
Qed.

(** The pieces of [_split_text_with_regex] make up the text, and none is
    empty. *)
Lemma split_text_with_regex_spec text separator :
  join "" (_split_text_with_regex text separator) = text
  /\ Forall (fun s => s <> "") (_split_text_with_regex text separator).
Proof.
  unfold _split_text_with_regex. split.
  - rewrite join_filter_not_empty. case_decide as Hsep.
    + apply characters_join.
    + pose proof (pieces_not_empty separator text 0%nat) as Hne.
      pose proof (pieces_join separator text Hsep) as Hjoin.
      destruct (pieces separator 0 text) as [|first others]; [done |].
      by rewrite join_separators.
  - apply Forall_forall. by intros s [? _]%list_elem_of_filter.
Qed.

End SplitFacts.

(** ** The recursive split *)

Section RecursiveSplitFacts.

Import TextSplitter.

Variable self : RecursiveCharacterTextSplitter.
Hypothesis overlap_ok : 0 <= _chunk_overlap self.

(** The chunks that the loop over the pieces adds are pieces of the text that
    the collected and the remaining pieces make up. *)
Lemma split_loop_pieces recur splits :
  (forall split_again, recur = Some split_again ->
     forall s, exists chunks,
       split_again s = Some chunks
       /\ Forall (fun c => c <> "" /\ piece c s) chunks) ->
  Forall (fun s => s <> "") splits ->
  forall _good_splits final_chunks,
  exists added,
    split_loop self recur splits _good_splits final_chunks
    = Some (final_chunks ++ added)
    /\ Forall (fun c => c <> "" /\ piece c (join "" (_good_splits ++ splits))) added.
Proof.
  intros Hrecur.
  assert (Hflush : forall good final,
    exists flushed,
      match good with
      | [] => Some final
      | _ :: _ =>
          match _merge_splits self "" good with
          | Some merged_text => Some (final ++ merged_text)
          | None => None
          end
      end = Some (final ++ flushed)
      /\ Forall (fun c => c <> "" /\ piece c (join "" good)) flushed).
  { intros good final. destruct good as [|g good].
    - exists []. by rewrite app_nil_r.
    - destruct (merge_splits_pieces self overlap_ok (g :: good))
        as (merged & -> & Hmerged).
      by exists merged. }
  induction splits as [|s splits IH]; intros Hsplits good final.
  - cbn [split_loop]. rewrite app_nil_r. apply Hflush.
  - apply Forall_cons in Hsplits as [Hs Hsplits].
    cbn [split_loop]. destruct (len s <? _chunk_size self).
    + destruct (IH Hsplits (good ++ [s]) final) as (added & -> & Hadded).
      exists added. split; [done |]. by rewrite <- app_assoc in Hadded.
    + destruct (Hflush good final) as (flushed & -> & Hflushed).
      assert (Hfront : Forall (fun c => c <> ""
                                 /\ piece c (join "" (good ++ s :: splits)))
                         flushed).
      { eapply Forall_impl; [exact Hflushed |]. intros c [Hc Hpiece].
        split; [done |]. eapply piece_trans; [exact Hpiece |].
        rewrite join_empty_app. apply piece_append_l. }
      assert (Hback : forall added,
                Forall (fun c => c <> "" /\ piece c (join "" ([] ++ splits))) added ->
                Forall (fun c => c <> ""
                          /\ piece c (join "" (good ++ s :: splits))) added).
      { intros added Hadded. eapply Forall_impl; [exact Hadded |].
        intros c [Hc Hpiece]. split; [done |].
        eapply piece_trans; [exact Hpiece |].
        rewrite (join_empty_app good), join_empty_cons.
        eapply piece_trans; [apply piece_append_r | apply piece_append_r]. }
      assert (Hmiddle : piece s (join "" (good ++ s :: splits))).
      { rewrite (join_empty_app good), join_empty_cons.
        eapply piece_trans; [apply piece_append_l | apply piece_append_r]. }
      destruct recur as [split_again|].
      * destruct (Hrecur split_again eq_refl s) as (other_info & -> & Hother).
        destruct (IH Hsplits [] ((final ++ flushed) ++ other_info))
          as (added & -> & Hadded).
        exists (flushed ++ other_info ++ added).
        split; [by rewrite <- !app_assoc |].
        rewrite !Forall_app. split; [done |]. split; [| by apply Hback].
        eapply Forall_impl; [exact Hother |]. intros c [Hc Hpiece].
        split; [done |]. by eapply piece_trans.
      * destruct (IH Hsplits [] ((final ++ flushed) ++ [s]))
          as (added & -> & Hadded).
        exists (flushed ++ [s] ++ added).
        split; [by rewrite <- !app_assoc |].
        rewrite !Forall_app. split; [done |]. split; [| by apply Hback].
        by repeat constructor.
Qed.

(** Every chunk of [_split_text] is a piece of the text, and none is empty;
    no list is read out of its range. *)
Lemma split_text_pieces separators : forall text,
  separators <> [] ->
  exists chunks,
    _split_text self separators text = Some chunks
    /\ Forall (fun c => c <> "" /\ piece c text) chunks.
Proof.
  induction separators as [|_s new_separators IH]; intros text Hseparators; [done |].
  assert (Hwith : forall recur,
    (forall split_again, recur = Some split_again ->
       forall s, exists chunks,
         split_again s = Some chunks
         /\ Forall (fun c => c <> "" /\ piece c s) chunks) ->
    exists chunks,
      split_loop self recur (_split_text_with_regex text _s) [] [] = Some chunks
      /\ Forall (fun c => c <> "" /\ piece c text) chunks).
  { intros recur Hrecur.
    destruct (split_text_with_regex_spec text _s) as [Hjoin Hsplits].
    destruct (split_loop_pieces recur _ Hrecur Hsplits [] [])
      as (added & -> & Hadded).
    exists added. split; [done |]. simpl in Hadded. by rewrite Hjoin in Hadded. }
  cbn [_split_text].
  case_decide; [by apply Hwith |].
  destruct (occurs _s text).
  - destruct new_separators as [|s' rest]; [by apply Hwith |].
    apply Hwith. intros split_again [= <-] s. by apply IH.
  - destruct new_separators as [|s' rest]; [by apply Hwith |].
    by apply IH.
Qed.

End RecursiveSplitFacts.

(** C5, as the code has it.  For every text and valid size and overlap,
    [chunk_text] returns the chunks as bare strings.  Each chunk is a piece of
    the original text and is not empty, so there is an offset at which it
    starts; the offset is not part of what is returned. *)
Theorem chunks_are_pieces_of_the_text text size overlap w :
  0 < size ->
  0 <= overlap < size ->
  exists chunks w',
    GenerateEmbeddings.chunk_text text size overlap w = (Returns chunks, w')
    /\ Forall (fun chunk => chunk <> "" /\ exists offset, found_at text chunk offset)
         chunks
    /\ requests w' = requests w.
Proof.
  intros Hsize Hoverlap. unfold GenerateEmbeddings.chunk_text.
  case_decide as Htext; [by eexists _, _ |].
  unfold bind, print, TextSplitter.new, ret, raise.
  replace (size <=? 0) with false by lia.
  replace (overlap <? 0) with false by lia.
  replace (overlap >? size) with false by lia.
  set (self := {| TextSplitter._chunk_size := size;
                  TextSplitter._chunk_overlap := overlap;
                  TextSplitter._separators := TextSplitter.default_separators |}).
  destruct (split_text_pieces self (proj1 Hoverlap)
              TextSplitter.default_separators text ltac:(done))
    as (chunks & Hrun & Hchunks).
  unfold TextSplitter.split_text.
  change (TextSplitter._separators self) with TextSplitter.default_separators.
  rewrite Hrun.
  eexists _, _. split; [reflexivity |]. split; [| done].
  eapply Forall_impl; [exact Hchunks |]. intros chunk [Hne Hpiece].
  split; [done |]. by apply piece_found_at.
Qed.

Lemma chunks_are_pieces_of_the_text_witness :
  exists chunks w',
    GenerateEmbeddings.chunk_text "ABAB" 2 0 fresh_world = (Returns chunks, w')
    /\ Forall (fun chunk => chunk <> "" /\ exists offset, found_at "ABAB" chunk offset)
         chunks.
Proof.
  destruct (chunks_are_pieces_of_the_text "ABAB" 2 0 fresh_world
              ltac:(lia) ltac:(lia))
    as (chunks & w' & Hrun & Hchunks & _).
  by exists chunks, w'.
Defined.

(** * More about retrieval.py *)


Section RetrievalRanking.

Import Retrieval.

Variable embeddings_create : nat -> string -> string -> reply (list embedding).
Variable query_points :
  nat -> string -> embedding -> Z -> bool -> reply (list ScoredPoint).




(** Whatever the services do, [retrieve_relevant_chunks] sends at most two
    requests and changes nothing else: none for the empty query; otherwise
    the embedding request, and after it the query to the index only when an
    embedding came back, with that embedding, the limit [top_k] and the
    payload asked for. *)
Theorem retrieve_sends_at_most_two_requests query_text top_k w :
  exists hits w' sent,
    retrieve_relevant_chunks embeddings_create query_points query_text top_k w
    = (Returns hits, w')
    /\ requested w w' sent
    /\ qdrant w' = qdrant w
    /\ drawn w' = drawn w
    /\ if decide (query_text = "") then sent = []
       else
         match embedded embeddings_create embedding_model
                 (length (requests w)) query_text with
         | Some v =>
             sent = [EmbeddingsCreate query_text embedding_model;
                     QueryPoints collection_name v top_k true]
         | None => sent = [EmbeddingsCreate query_text embedding_model]
         end.
Proof.
  unfold retrieve_relevant_chunks, embed_and_search, try_except, bind, call,
    first_item, print, ret, raise, sent, requested, embedded.
  case_decide.
  - eexists _, _, []. simpl. by rewrite app_nil_r.
  - simpl. destruct (embeddings_create _ _ _) as [[|v data]|e]; simpl.
    + by eexists _, _, _.
    + destruct (query_points _ _ _ _ _) as [points|e]; simpl;
        eexists _, _, _; (split; [reflexivity |]); simpl;
        by rewrite <- app_assoc.
    + by eexists _, _, _.
Qed.

End RetrievalRanking.

(** * More about rag_tool.py *)

Lemma piece_in_left x a b : piece x a -> piece x (a +:+ b).
Proof. intros H. eapply piece_trans; [exact H | apply piece_append_l]. Qed.

Lemma piece_in_right x a b : piece x b -> piece x (a +:+ b).
Proof. intros H. eapply piece_trans; [exact H | apply piece_append_r]. Qed.

Lemma piece_join sep t texts : t ∈ texts -> piece t (join sep texts).
Proof.
  induction texts as [|x texts IH]; [by intros ?%elem_of_nil |].
  intros [-> | Hin]%elem_of_cons.
  - destruct texts; [apply piece_refl | apply piece_in_left, piece_refl].
  - destruct texts as [|y texts]; [by apply elem_of_nil in Hin |].
    cbn [join]. do 2 apply piece_in_right. by apply IH.
Qed.

Lemma prompt_has_context context_string query :
  piece context_string (RagTool.prompt_of context_string query).
Proof.
  unfold RagTool.prompt_of.
  do 9 apply piece_in_right. apply piece_in_left, piece_in_right, piece_in_left.
  apply piece_refl.
Qed.

Lemma prompt_has_query context_string query :
  piece query (RagTool.prompt_of context_string query).
Proof.
  unfold RagTool.prompt_of.
  do 12 apply piece_in_right.
  apply piece_in_left, piece_in_right, piece_in_left, piece_in_right.
  apply piece_refl.
Qed.

Section RagToolRequests.

Import Retrieval RagTool.

Variable embeddings_create : nat -> string -> string -> reply (list embedding).
Variable query_points :
  nat -> string -> embedding -> Z -> bool -> reply (list ScoredPoint).
Variable chat_completions_create :
  nat -> string -> list chat_message -> float -> reply (list (option string)).

(** When retrieval gives chunks whose texts are strings, [generate_answer]
    sends one chat request, to "gpt-4o" with temperature 0 and with the
    system message and one user message.  The user message holds the query
    and every retrieved text, word for word.  The answer is the stripped
    content of the first choice, or the error string when the request fails,
    has no choice, or the choice has no content. *)
Theorem generate_answer_asks_with_context query top_k w hits w1 texts :
  retrieve_relevant_chunks embeddings_create query_points query top_k w
  = (Returns hits, w1) ->
  hits <> [] ->
  all_str (map text hits) = Some texts ->
  exists answer w' prompt,
    let messages :=
      [ {| role := "system"; content := "You are a helpful assistant." |};
        {| role := "user"; content := prompt |} ] in
    generate_answer embeddings_create query_points chat_completions_create
      query top_k w = (Returns answer, w')
    /\ requested w1 w' [ChatCompletionsCreate "gpt-4o" messages 0.0%float]
    /\ piece query prompt
    /\ Forall (fun t => piece t prompt) texts
    /\ match chat_completions_create (length (requests w1)) "gpt-4o" messages
               0.0%float with
       | Answer (Some content :: _) => answer = strip content
       | _ => answer = "An error occurred while generating the answer."
       end.
Proof.
  intros Hretrieve Hhits Htexts.
  unfold generate_answer, answer_from_context, try_except, bind.
  rewrite Hretrieve. destruct hits as [|hit hits]; [done |].
  unfold join_items. rewrite Htexts.
  unfold ret at 1, call, first_item, raise, requested, print, sent.
  set (prompt := prompt_of (join (nl +:+ nl) texts) query).
  exists (match chat_completions_create (length (requests w1)) "gpt-4o"
                  [ {| role := "system"; content := "You are a helpful assistant." |};
                    {| role := "user"; content := prompt |} ] 0.0%float with
          | Answer (Some content :: _) => strip content
          | _ => error_occurred
          end).
  destruct (chat_completions_create _ _ _ _) as [[|[content|] choices]|e] eqn:Hchat;
    simpl; eexists _, prompt; cbv zeta; rewrite Hchat;
    (split; [reflexivity |]); simpl;
    (split; [done |]); (split; [apply prompt_has_query |]); (split; [| done]).
  all: apply Forall_forall; intros t Ht;
    (eapply piece_trans; [by apply piece_join | apply prompt_has_context]).
Qed.

(** When a retrieved text is not a string, [generate_answer] sends no chat
    request: joining the texts raises, and the error string is returned. *)
Theorem generate_answer_needs_string_texts query top_k w hits w1 :
  retrieve_relevant_chunks embeddings_create query_points query top_k w
  = (Returns hits, w1) ->
  all_str (map text hits) = None ->
  exists e w',
    generate_answer embeddings_create query_points chat_completions_create
      query top_k w
    = (Returns "An error occurred while generating the answer.", w')
    /\ exn_class e = "TypeError"
    /\ printed w1 w' [ErrorGeneratingAnswer e]
    /\ requests w' = requests w1.
Proof.
  intros Hretrieve Htexts.
  unfold generate_answer, answer_from_context, try_except, bind.
  rewrite Hretrieve. destruct hits as [|hit hits]; [done |].
  unfold join_items. rewrite Htexts. unfold raise, print, ret, printed.
  eexists _, _. split; [reflexivity |]. simpl. by repeat split.
Qed.

End RagToolRequests.

(** * More about generate_embeddings.py: the embedding batcher *)

Section BatcherLines.

Import GenerateEmbeddings.

Variable embeddings_create : nat -> string -> string -> reply (list embedding).

Lemma embedding_loop_lines model n chunks : forall i embeddings w,
  exists result w',
    embedding_loop embeddings_create model n i chunks embeddings w
    = (Returns result, w')
    /\ printed w w'
         (imap (fun j chunk =>
                  chunk_line embeddings_create model n
                    (length (requests w) + j) (i + j) chunk) chunks)
    /\ requests w'
       = requests w ++ map (fun chunk => EmbeddingsCreate chunk model) chunks.
Proof.
  induction chunks as [|chunk chunks IH]; intros i embeddings w.
  - exists embeddings, w. unfold printed. simpl. by rewrite !app_nil_r.
  - cbn [embedding_loop]. unfold bind at 1.
    assert (Hone : exists result w1,
      embed_one embeddings_create model n i chunk embeddings w = (Returns result, w1)
      /\ printed w w1
           [chunk_line embeddings_create model n (length (requests w)) i chunk]
      /\ requests w1 = requests w ++ [EmbeddingsCreate chunk model]).
    { unfold embed_one, chunk_line, try_except, bind, call, first_item, print,
        ret, raise, printed, sent.
      destruct (embeddings_create _ _ _) as [[|v data]|e]; simpl; by eexists _, _. }
    destruct Hone as (result1 & w1 & -> & Hline & Hsent).
    destruct (IH (i + 1)%nat result1 w1) as (result & w' & -> & Hlines & Hsents).
    exists result, w'. split; [done |]. unfold printed in *.
    rewrite Hlines, Hline, Hsents, Hsent, <- !app_assoc. cbn [imap map app].
    rewrite !Nat.add_0_r. split; [| done]. do 2 f_equal.
    apply imap_ext. intros j c _. simpl. rewrite length_app. simpl.
    f_equal; lia.
Qed.

(** For a non-empty sequence of chunks, [generate_embeddings] prints the
    banner, the number of chunks with the model, then one line per chunk in
    the order of the chunks, counted from 1: "Generated embedding for chunk
    i/n" when the request gave a vector, and the error with the number of
    the chunk when it did not; then that it is complete.  Each failure can so
    be traced to its chunk. *)
Theorem generate_embeddings_reports_each_chunk chunks model w :
  chunks <> [] ->
  exists embeddings w',
    generate_embeddings embeddings_create chunks model w = (Returns embeddings, w')
    /\ printed w w'
         ([EmbeddingBanner; GeneratingEmbeddings (length chunks) model]
          ++ imap (fun i chunk =>
                     chunk_line embeddings_create model (length chunks)
                       (length (requests w) + i) i chunk) chunks
          ++ [EmbeddingComplete]).
Proof.
  intros Hchunks. destruct chunks as [|chunk chunks]; [done |].
  unfold generate_embeddings, bind, print, ret.
  match goal with
  | |- context [embedding_loop _ _ ?n _ ?all _ ?w1] =>
      destruct (embedding_loop_lines model n all 0%nat [] w1)
        as (result & w' & -> & Hlines & _)
  end.
  eexists _, _. split; [reflexivity |].
  unfold printed in *. cbn [console requests] in *.
  rewrite Hlines, <- !app_assoc. reflexivity.
Qed.

End BatcherLines.

(** * More about vector_store.py *)

Section LoadingMore.

Import VectorStore.

Variable fickling_load : string -> option (reply pyval).

(** Closes a case of a run: the run computes, and what is printed is read
    off the final world. *)
Ltac closes :=
  eexists _, _, _; (split; [reflexivity |]); simpl; rewrite <- ?app_assoc; done.

(** What loading returns and prints, by what is at the path. *)
Lemma load_cases file_path w :
  exists result lines w',
    load_data_from_pickle fickling_load file_path w = (Returns result, w')
    /\ printed w w' lines
    /\ requests w' = requests w /\ qdrant w' = qdrant w /\ drawn w' = drawn w
    /\ match fickling_load file_path with
       | None => result = (None, 0%nat) /\ lines = [CacheNotFound file_path]
       | Some (Failure e) =>
           result = (None, 0%nat)
           /\ lines = [LoadingCache file_path; ErrorLoadingPickle e]
       | Some (Answer data) =>
           match data with
           | PyList (data_0 :: others) =>
               match first_dimension data_0 with
               | Some D =>
                   result = (Some data, D)
                   /\ lines = [LoadingCache file_path;
                               LoadedItems (S (length others));
                               DetectedDimension D]
               | None => result = (None, 0%nat)
               end
           | _ => result = (None, 0%nat)
           end
       end.
Proof.
  unfold load_data_from_pickle, printed, try_except, bind, print, ret, raise,
    evaluate.
  assert (Hlen : forall v w0, py_len v w0
            = match sized v with
              | Some n => (Returns n, w0)
              | None => (Raises (TypeError "object has no len()"), w0)
              end) by (by intros []).
  destruct (fickling_load file_path) as [[loaded|e]|]; simpl;
    [| closes | closes].
  rewrite Hlen.
  destruct loaded as [| | | | |[|data_0 others]|]; simpl; try closes.
  destruct data_0 as [| | | | s|l|d]; simpl; try closes.
  - destruct (occurs "text" s); simpl; [destruct (occurs "embedding" s); simpl |];
      closes.
  - destruct (existsb _ l); simpl; [destruct (existsb _ l); simpl |]; closes.
  - unfold dict_has. destruct (dict_get "text" d) as [text|]; simpl; [| closes].
    destruct (dict_get "embedding" d) as [e|]; simpl; [| closes].
    rewrite Hlen. destruct (sized e); simpl; closes.
Qed.

(** [load_data_from_pickle] always returns: it neither raises nor exits,
    sends no request and leaves the server alone.  A missing file gives
    [(None, 0)] with "Cache file not found"; a file that cannot be unpickled
    gives [(None, 0)] with the error printed; and data is only returned as a
    non-empty list. *)
Theorem load_returns_without_requests file_path w :
  exists result w',
    load_data_from_pickle fickling_load file_path w = (Returns result, w')
    /\ requests w' = requests w /\ qdrant w' = qdrant w /\ drawn w' = drawn w
    /\ (result = (None, 0%nat)
        \/ exists data_0 others D, result = (Some (PyList (data_0 :: others)), D))
    /\ (fickling_load file_path = None ->
        result = (None, 0%nat) /\ printed w w' [CacheNotFound file_path])
    /\ (forall e,
          fickling_load file_path = Some (Failure e) ->
          result = (None, 0%nat)
          /\ printed w w' [LoadingCache file_path; ErrorLoadingPickle e]).
Proof.
  destruct (load_cases file_path w)
    as (result & lines & w' & Hrun & Hlines & ? & ? & ? & Hcases).
  exists result, w'. repeat (split; [done |]). split; [| split].
  - destruct (fickling_load file_path) as [[data|e]|]; [| left; tauto ..].
    destruct data as [| | | | |[|data_0 others]|]; try by left.
    destruct (first_dimension data_0) as [D|]; [| by left].
    right. destruct Hcases as [-> _]. by eexists _, _, _.
  - intros Hnone. rewrite Hnone in Hcases. by destruct Hcases as [-> ->].
  - intros e He. rewrite He in Hcases. by destruct Hcases as [-> ->].
Qed.

(** The dimension of a loaded cache is the length of its first record's
    embedding; among records of the data model that record is therefore
    always one to index, and the points to upsert are never none. *)
Theorem loaded_cache_has_a_valid_point file_path w items D :
  fst (load_data_from_pickle fickling_load file_path w)
  = Returns (Some (PyList items), D) ->
  Forall (fun item => is_Some (chunk_record item)) items ->
  exists first others text e,
    items = first :: others
    /\ survivor D first = Some (text, e)
    /\ survivors D items <> [].
Proof.
  intros Hload Hrecords.
  destruct (load_cases file_path w)
    as (result & lines & w' & Hrun & _ & _ & _ & _ & Hcases).
  rewrite Hrun in Hload. simpl in Hload. injection Hload as ->.
  destruct (fickling_load file_path) as [[data|err]|];
    [| by destruct Hcases ..].
  destruct data as [| | | | |[|data_0 others]|]; try done.
  destruct (first_dimension data_0) as [D'|] eqn:Hfirst; [| done].
  destruct Hcases as [Heq _]. injection Heq as Hitems HD. subst items D'.
  apply Forall_cons in Hrecords as [[[text oe] Hrecord] _].
  assert (Hsurvives : exists e, survivor D data_0 = Some (text, e)).
  { unfold survivor. rewrite Hrecord.
    unfold chunk_record in Hrecord. unfold first_dimension in Hfirst.
    destruct data_0 as [| | | | | |d]; try done.
    unfold dict_has in Hfirst.
    destruct (dict_get "text" d); [| done].
    destruct (dict_get "embedding" d) as [v|]; [| done].
    destruct v as [| | | | |l|]; simpl in *; simplify_eq.
    destruct (floats l) as [e|] eqn:Hfloats; simpl in *; simplify_eq.
    exists e. replace (length e =? length l)%nat with true; [done |].
    symmetry. apply Nat.eqb_eq.
    clear -Hfloats. revert e Hfloats.
    induction l as [|v l IH]; intros e H; simpl in H; [by simplify_eq |].
    destruct v; try done. destruct (floats l); [| done].
    simpl in H. simplify_eq. simpl. f_equal. by apply IH. }
  destruct Hsurvives as (e & Hsurvives).
  exists data_0, others, text, e. repeat split; [done |].
  unfold survivors. cbn. by rewrite Hsurvives.
Qed.

(** What loading returns is decided by the file alone. *)
Lemma load_result file_path w :
  exists lines w',
    load_data_from_pickle fickling_load file_path w
    = (Returns match loadable (fickling_load file_path) with
               | Some (data, D) => (Some data, D)
               | None => (None, 0%nat)
               end, w')
    /\ printed w w' lines
    /\ requests w' = requests w /\ qdrant w' = qdrant w /\ drawn w' = drawn w.
Proof.
  destruct (load_cases file_path w)
    as (result & lines & w' & Hrun & Hlines & ? & ? & ? & Hcases).
  exists lines, w'. repeat (split; [| done]). rewrite Hrun. do 2 f_equal.
  unfold loadable.
  destruct (fickling_load file_path) as [[data|e]|]; [| by destruct Hcases ..].
  destruct data as [| | | | |[|data_0 others]|]; try done.
  destruct (first_dimension data_0); simpl; [by destruct Hcases | done].
Qed.

End LoadingMore.

Section ScriptMore.

Import VectorStore.

Variable qdrant_host : string.
Variable qdrant_port : Z.
Variable fickling_load : string -> option (reply pyval).
Variable fault : nat -> option exn.
Variable uuid4 : nat -> string.
Variable vectors_config_size : collection -> reply nat.

Let script := main qdrant_host qdrant_port fickling_load fault uuid4 vectors_config_size.

(** The script up to the point where the cache is loaded. *)
Lemma main_after_load w :
  exists lines w1,
    printed w w1 lines
    /\ requests w1 = requests w /\ qdrant w1 = qdrant w /\ drawn w1 = drawn w
    /\ script w
       = match loadable (fickling_load pickle_file_path) with
         | Some (data, D) =>
             (connect qdrant_host qdrant_port fault;;;
              create_collection fault vectors_config_size D;;;
              upsert_data fault uuid4 (Some data) D) w1
         | None => (print ExitingNoData;;; exit) w1
         end.
Proof.
  unfold script, main. unfold bind at 1, print at 1. unfold bind at 1.
  match goal with
  | |- context [load_data_from_pickle _ _ ?w0] =>
      destruct (load_result fickling_load pickle_file_path w0)
        as (lines & w1 & -> & Hlines & ? & ? & ?)
  end.
  unfold printed in *. simpl in *.
  exists (VectorStoreBanner :: lines), w1.
  split; [by rewrite Hlines, <- app_assoc |]. repeat (split; [done |]).
  unfold loadable.
  destruct (fickling_load pickle_file_path) as [[data|e]|]; try done.
  destruct data as [| | | | |[|data_0 others]|]; try done.
  by destruct (first_dimension data_0).
Qed.

(** Without a cache that loads, the script exits before it contacts the
    server: no request is sent and the server keeps what it has. *)
Theorem main_stops_without_cache w :
  loadable (fickling_load pickle_file_path) = None ->
  exists w',
    script w = (Exits, w')
    /\ requests w' = requests w
    /\ qdrant w' = qdrant w
    /\ last (console w') = Some ExitingNoData.
Proof.
  intros Hnone.
  destruct (main_after_load w) as (lines & w1 & Hlines & ? & ? & ? & ->).
  rewrite Hnone. eexists. split; [reflexivity |]. simpl.
  repeat (split; [done |]). by rewrite last_snoc.
Qed.

(** When the client cannot be set up, the script exits at once: the
    collection is neither recreated nor written to. *)
Theorem main_stops_when_unreachable w data D e :
  loadable (fickling_load pickle_file_path) = Some (data, D) ->
  fault (length (requests w)) = Some e ->
  exists w',
    script w = (Exits, w')
    /\ requested w w' [QdrantConnect qdrant_host qdrant_port]
    /\ qdrant w' = qdrant w
    /\ last (console w') = Some EnsureQdrantRunning.
Proof.
  intros Hload Hfault.
  destruct (main_after_load w) as (lines & w1 & Hlines & Hrequests & ? & ? & ->).
  rewrite Hload.
  unfold bind at 1, connect, bind at 1, print at 1, try_except, bind at 1,
    qdrant_call. simpl. rewrite Hrequests, Hfault. simpl.
  eexists. split; [reflexivity |]. unfold requested. simpl.
  repeat (split; [done |]). by rewrite last_snoc.
Qed.

(** The upsert loop sends every batch, whether requests fail or not: the
    batches are the points cut into consecutive pieces of 100, the last one
    shorter when the number is no multiple of 100, and none empty. *)
Theorem upsert_sends_every_batch points w :
  exists w',
    upsert_batches fault points (range_step (length points) batch_size) w
    = (Returns tt, w')
    /\ requested w w'
         (map (fun batch => Upsert collection_name batch true) (batches_of points))
    /\ concat (batches_of points) = points
    /\ Forall (fun batch => (0 < length batch <= 100)%nat) (batches_of points)
    /\ length (batches_of points) = ((length points + 99) / 100)%nat.
Proof.
  destruct (upsert_batches_sends fault points
              (range_step (length points) batch_size) w) as (w' & Hrun & Hsent).
  exists w'. split; [done |]. unfold batches_of, range_step, batch_size in *.
  split; [by rewrite <- list_fmap_compose |].
  split.
  { apply (batches_cover 100 points); [lia |].
    pose proof (Nat.div_mod_eq (length points + 100 - 1) 100).
    pose proof (Nat.mod_upper_bound (length points + 100 - 1) 100). lia. }
  split.
  { rewrite Forall_fmap, Forall_fmap. apply Forall_forall.
    intros k Hk%elem_of_seq. simpl.
    rewrite length_take, length_drop.
    pose proof (Nat.div_mod_eq (length points + 100 - 1) 100).
    pose proof (Nat.mod_upper_bound (length points + 100 - 1) 100). lia. }
  rewrite !length_map, length_seq. f_equal. lia.
Qed.

End ScriptMore.

(** ** A run of the whole script that goes through *)

Lemma stored_after_other points : forall stored id,
  id ∉ map point_id points ->
  stored_after stored points !! id = stored !! id.
Proof.
  unfold stored_after.
  induction points as [|p points IH]; intros stored id Hid; [done |].
  cbn [foldl map] in *. apply not_elem_of_cons in Hid as [Hne Hid].
  rewrite IH by done.
  unfold VectorStore.store_point. by apply lookup_insert_ne.
Qed.

Lemma stored_after_lookup points : forall stored p,
  NoDup (map point_id points) ->
  p ∈ points ->
  stored_after stored points !! point_id p = Some (point_vector p, point_payload p).
Proof.
  induction points as [|q points IH]; intros stored p Hids Hp;
    [by apply elem_of_nil in Hp |].
  cbn [map] in Hids. apply NoDup_cons in Hids as [Hq Hids].
  apply elem_of_cons in Hp as [-> | Hp].
  - unfold stored_after. cbn [foldl]. fold (stored_after (VectorStore.store_point stored q) points).
    rewrite stored_after_other by done.
    unfold VectorStore.store_point. apply lookup_insert_eq.
  - unfold stored_after. cbn [foldl]. by apply IH.
Qed.

Lemma stored_after_size points : forall stored,
  NoDup (map point_id points) ->
  (forall p, p ∈ points -> stored !! point_id p = None) ->
  size (stored_after stored points) = (size stored + length points)%nat.
Proof.
  induction points as [|q points IH]; intros stored Hids Hfree.
  - simpl. lia.
  - cbn [map] in Hids. apply NoDup_cons in Hids as [Hq Hids].
    unfold stored_after. cbn [foldl].
    fold (stored_after (VectorStore.store_point stored q) points).
    rewrite IH; [| done |].
    + unfold VectorStore.store_point.
      rewrite map_size_insert_None by (apply Hfree; set_solver). simpl. lia.
    + intros p Hp. unfold VectorStore.store_point.
      rewrite lookup_insert_ne; [apply Hfree; set_solver |].
      intros Heq. apply Hq. rewrite Heq. by apply list_elem_of_fmap_2.
Qed.

Section RebuildFacts.

Import VectorStore.

Variable qdrant_host : string.
Variable qdrant_port : Z.
Variable fickling_load : string -> option (reply pyval).
Variable fault : nat -> option exn.
Variable uuid4 : nat -> string.
Variable vectors_config_size : collection -> reply nat.

Hypothesis no_fault : forall n, fault n = None.

(** With every request going through, the batches end up in the collection. *)
Lemma upsert_batches_stores points starts : forall w c,
  qdrant w !! collection_name = Some c ->
  Forall (fun p => length (point_vector p) = vectors_size c) points ->
  exists w',
    upsert_batches fault points starts w = (Returns tt, w')
    /\ qdrant w'
       = <[collection_name :=
             {| vectors_size := vectors_size c;
                vectors_distance := vectors_distance c;
                stored_points :=
                  stored_after (stored_points c)
                    (concat (map (fun i => take batch_size (drop i points)) starts)) |}]>
           (qdrant w)
    /\ drawn w' = drawn w.
Proof.
  induction starts as [|i starts IH]; intros w c Hc Hsizes.
  - exists w. split; [done |]. split; [| done].
    simpl. unfold stored_after. simpl. symmetry. apply insert_id.
    by destruct c.
  - cbn [upsert_batches]. unfold bind at 1, try_except, bind at 1, qdrant_call.
    rewrite no_fault. unfold server_upsert. rewrite Hc.
    set (batch := take batch_size (drop i points)).
    assert (Hbatch : forallb (fun p => length (point_vector p) =? vectors_size c)%nat
                       batch = true).
    { apply forallb_forall. intros p Hp. apply Nat.eqb_eq.
      apply list_elem_of_In in Hp. revert p Hp. apply Forall_forall.
      subst batch. by apply Forall_take, Forall_drop. }
    rewrite Hbatch. unfold print at 1.
    match goal with
    | |- context [upsert_batches _ _ _ ?w1] =>
        destruct (IH w1 {| vectors_size := vectors_size c;
                           vectors_distance := vectors_distance c;
                           stored_points := foldl store_point (stored_points c) batch |})
          as (w' & -> & Hstored & Hdrawn)
    end.
    { simpl. apply lookup_insert_eq. }
    { done. }
    exists w'. split; [done |]. split; [| done].
    rewrite Hstored. simpl. rewrite insert_insert_eq.
    unfold stored_after. by rewrite foldl_app.
Qed.

Lemma main_rebuild_result items D w :
  loadable (fickling_load pickle_file_path) = Some (PyList items, D) ->
  Forall (fun item => is_Some (chunk_record item)) items ->
  (forall j k, uuid4 j = uuid4 k -> j = k) ->
  let points :=
    imap (fun k r => indexed_point uuid4 (drawn w + k) r) (survivors D items) in
  exists w' stored,
    main qdrant_host qdrant_port fickling_load fault uuid4 vectors_config_size w
    = (Returns tt, w')
    /\ qdrant w'
       = <[collection_name :=
             {| vectors_size := D; vectors_distance := COSINE;
                stored_points := stored |}]> (qdrant w)
    /\ size stored = length (survivors D items)
    /\ (forall p, p ∈ points ->
          stored !! point_id p = Some (point_vector p, point_payload p))
    /\ last (console w')
       = Some (CollectionContains collection_name (length (survivors D items))).
Proof.
  intros Hload Hrecords Hinj points.
  destruct (main_after_load qdrant_host qdrant_port fickling_load fault uuid4
              vectors_config_size w)
    as (lines & w1 & _ & Hrequests1 & Hqdrant1 & Hdrawn1 & ->).
  rewrite Hload.
  (* the client and the collection *)
  unfold bind at 1, connect, bind at 1, print at 1, try_except, bind at 1,
    qdrant_call at 1. rewrite no_fault.
  unfold print at 1. unfold bind at 1, create_collection, try_except,
    bind at 1, print at 1, bind at 1, qdrant_call at 1. rewrite no_fault.
  unfold server_recreate_collection, print at 1.
  (* the points *)
  unfold upsert_data, bind at 1, py_items, ret at 1, bind at 1.
  match goal with
  | |- context [prepare_points _ _ _ _ _ ?w2] =>
      destruct (prepare_points_spec uuid4 D items 0%nat [] w2 Hrecords)
        as (w3 & -> & _ & _ & Hqdrant3 & Hdrawn3)
  end.
  cbn [app drawn qdrant] in *. rewrite Hdrawn1. fold points.
  assert (Hsome : survivors D items <> []).
  { unfold loadable in Hload.
    destruct (fickling_load pickle_file_path) as [[data|e]|]; try done.
    destruct data as [| | | | |[|first rest]|]; try done.
    destruct (first_dimension first) as [D'|] eqn:Hfirst; [| done].
    simpl in Hload. simplify_eq.
    apply Forall_cons in Hrecords as [[[text oe] Hrecord] _].
    unfold survivors. cbn. unfold survivor. rewrite Hrecord.
    unfold chunk_record in Hrecord. unfold first_dimension, dict_has in Hfirst.
    destruct first as [| | | | | |d]; try done.
    destruct (dict_get "text" d); [| done].
    destruct (dict_get "embedding" d) as [v|]; [| done].
    destruct v as [| | | | |l|]; simpl in *; simplify_eq.
    destruct (floats l) as [e|] eqn:Hfloats; simpl in *; simplify_eq.
    rewrite (floats_length _ _ Hfloats), Nat.eqb_refl. done. }
  assert (Hlength : length points = length (survivors D items))
    by apply length_imap.
  destruct points as [|point points'] eqn:Hpoints.
  { destruct (survivors D items); [done | discriminate Hlength]. }
  rewrite <- Hpoints in *. clear Hpoints point points'.
  unfold bind at 1, print at 1. unfold bind at 1.
  (* the batches *)
  assert (Hsizes : Forall (fun p => length (point_vector p) = D) points).
  { unfold points. apply Forall_forall. intros p Hp.
    apply list_elem_of_lookup in Hp as (k & Hk).
    rewrite list_lookup_imap in Hk.
    destruct (survivors D items !! k) as [[text e]|] eqn:Hr; [| done].
    simpl in Hk. simplify_eq. simpl.
    apply list_elem_of_lookup_2 in Hr. unfold survivors in Hr.
    apply list_elem_of_omap in Hr as (item & _ & Hitem).
    unfold survivor in Hitem.
    destruct (chunk_record item) as [[text' [e'|]]|]; try done.
    destruct (length e' =? D)%nat eqn:Hlen; [| done].
    simplify_eq. by apply Nat.eqb_eq. }
  match goal with
  | |- context [upsert_batches _ _ ?starts ?w4] =>
      destruct (upsert_batches_stores points starts w4
                  {| vectors_size := D; vectors_distance := COSINE;
                     stored_points := ∅ |})
        as (w5 & -> & Hqdrant5 & _)
  end.
  { simpl. rewrite Hqdrant3. simpl. apply lookup_insert_eq. }
  { done. }
  (* the count *)
  unfold bind at 1, print at 1, try_except, bind at 1, qdrant_call at 1.
  rewrite no_fault. unfold server_count. cbn [qdrant].
  rewrite Hqdrant5. cbn [qdrant]. rewrite Hqdrant3. cbn [qdrant].
  rewrite insert_insert_eq, lookup_insert_eq. cbn [stored_points vectors_size
    vectors_distance]. unfold print.
  assert (Hcover :
    concat (map (fun i => take batch_size (drop i points))
              (range_step (length points) batch_size)) = points).
  { unfold range_step, batch_size.
    apply (batches_cover 100 points); [lia |].
    pose proof (Nat.div_mod_eq (length points + 100 - 1) 100).
    pose proof (Nat.mod_upper_bound (length points + 100 - 1) 100). lia. }
  rewrite Hcover.
  assert (Hids : NoDup (map point_id points)).
  { unfold points. rewrite indexed_point_ids.
    apply NoDup_fmap_2; [| apply NoDup_seq]. intros j k. apply Hinj. }
  assert (Hsize : size (stored_after ∅ points) = length (survivors D items)).
  { rewrite stored_after_size; [| done | by intros; apply lookup_empty].
    rewrite map_size_empty. simpl. done. }
  eexists _, (stored_after ∅ points). split; [reflexivity |].
  cbn [qdrant console]. rewrite Hqdrant1.
  split; [done |]. split; [done |].
  split; [by intros p Hp; apply stored_after_lookup |].
  by rewrite last_snoc, Hsize.
Qed.

(** When the cache holds records of the data model, every request goes
    through and [uuid4] never repeats itself, the script ends normally and
    the collection then holds one point for each record with an embedding of
    the cache's dimension, stored under its identifier, and nothing else:
    whatever the collection held before is gone, so that running the script
    again gives the same number of points.  That number is the count printed
    last. *)
Theorem main_rebuilds_the_collection items D w :
  loadable (fickling_load pickle_file_path) = Some (PyList items, D) ->
  Forall (fun item => is_Some (chunk_record item)) items ->
  (forall j k, uuid4 j = uuid4 k -> j = k) ->
  let points :=
    imap (fun k r => indexed_point uuid4 (drawn w + k) r) (survivors D items) in
  exists w' stored,
    main qdrant_host qdrant_port fickling_load fault uuid4 vectors_config_size w
    = (Returns tt, w')
    /\ qdrant w'
       = <[collection_name :=
             {| vectors_size := D; vectors_distance := COSINE;
                stored_points := stored |}]> (qdrant w)
    /\ size stored = length (survivors D items)
    /\ (forall p, p ∈ points ->
          stored !! point_id p = Some (point_vector p, point_payload p))
    /\ last (console w')
       = Some (CollectionContains collection_name (length (survivors D items))).
Proof. apply main_rebuild_result. Qed.

End RebuildFacts.

(** * More about generate_embeddings.py: the chunker *)

Lemma length_append (a b : string) :
  String.length (a +:+ b) = (String.length a + String.length b)%nat.
Proof. induction a as [|x a IH]; simpl; [done | by rewrite IH]. Qed.

Lemma piece_length chunk text :
  piece chunk text -> (String.length chunk <= String.length text)%nat.
Proof. intros (before & after & ->). rewrite !length_append. lia. Qed.

Lemma total_length_join items :
  total_length items = TextSplitter.len (join "" items).
Proof.
  unfold TextSplitter.len.
  induction items as [|x items IH]; [done |].
  rewrite join_empty_cons, length_append. cbn [total_length foldr].
  fold (total_length items). rewrite IH. unfold TextSplitter.len. lia.
Qed.

Lemma total_length_nonneg items : 0 <= total_length items.
Proof. rewrite total_length_join. unfold TextSplitter.len. lia. Qed.

Section ChunkSizes.

Import TextSplitter.

Variable self : RecursiveCharacterTextSplitter.
Hypothesis overlap_ok : 0 <= _chunk_overlap self.

(** Pieces that fit one chunk together are merged into one chunk. *)
Lemma merge_loop_fits splits : forall docs current_doc total,
  total = total_length current_doc ->
  total_length (current_doc ++ splits) <= _chunk_size self ->
  merge_loop self "" splits docs current_doc total
  = Some (docs ++ match _join_docs (current_doc ++ splits) "" with
                  | Some doc => [doc]
                  | None => []
                  end).
Proof.
  induction splits as [|d splits IH]; intros docs current_doc total -> Hfits.
  - cbn [merge_loop]. rewrite app_nil_r.
    destruct (_join_docs current_doc ""); [done | by rewrite app_nil_r].
  - cbn [merge_loop]. change (separator_len "") with 0.
    rewrite total_length_app in Hfits. cbn [total_length foldr] in Hfits.
    fold (total_length splits) in Hfits.
    pose proof (total_length_nonneg splits).
    pose proof (total_length_nonneg current_doc).
    assert (0 <= len d) by (unfold len; lia).
    replace (total_length current_doc + len d
             + (if (0 <? length current_doc)%nat then 0 else 0)
             >? _chunk_size self) with false
      by (destruct (0 <? _)%nat; lia).
    cbn [andb].
    rewrite (IH docs (current_doc ++ [d])).
    + by rewrite <- app_assoc.
    + rewrite total_length_app. cbn [total_length foldr].
      destruct (1 <? _)%nat; lia.
    + rewrite <- app_assoc, total_length_app. cbn [app total_length foldr].
      fold (total_length splits). lia.
Qed.

(** When the loop stops dropping pieces, what is kept and the next piece
    fit the chunk size, or nothing is kept. *)
Lemma pop_front_stops _len current_doc : forall total kept kept_total,
  pop_front self "" _len current_doc total = Some (kept, kept_total) ->
  kept_total + _len <= _chunk_size self \/ kept_total <= 0.
Proof.
  induction current_doc as [|d0 rest IH]; intros total kept kept_total.
  - cbn [pop_front]. change (separator_len "") with 0.
    destruct (total >? _chunk_overlap self) eqn:H1; [done |].
    destruct (total + _len + _ >? _chunk_size self) eqn:H2;
      destruct (total >? 0) eqn:H3; simpl; try done; intros [= <- <-];
      cbn in *; lia.
  - cbn [pop_front]. change (separator_len "") with 0.
    destruct (total >? _chunk_overlap self) eqn:H1; [apply IH |].
    destruct (total + _len + _ >? _chunk_size self) eqn:H2;
      destruct (total >? 0) eqn:H3; simpl; try apply IH; intros [= <- <-].
    + lia.
    + cbn [length] in H2. simpl in H2. lia.
    + cbn [length] in H2. simpl in H2. lia.
Qed.

Lemma join_docs_fits docs doc :
  total_length docs <= _chunk_size self ->
  _join_docs docs "" = Some doc -> fits self doc.
Proof.
  unfold _join_docs, fits. intros Hfits. case_decide; [done |]. intros [= <-].
  pose proof (piece_length _ _ (piece_strip (join "" docs))).
  rewrite total_length_join in Hfits. unfold len in *. lia.
Qed.

(** No chunk of the merge is longer than the chunk size, when each piece is
    shorter than it. *)
Lemma merge_loop_bound splits : forall docs current_doc total result,
  total = total_length current_doc ->
  total <= _chunk_size self ->
  Forall (fun d => len d < _chunk_size self) splits ->
  Forall (fits self) docs ->
  merge_loop self "" splits docs current_doc total = Some result ->
  Forall (fits self) result.
Proof.
  induction splits as [|d splits IH];
    intros docs current_doc total result -> Hfits Hsplits Hdocs.
  - cbn [merge_loop]. destruct (_join_docs current_doc "") as [doc|] eqn:Hdoc;
      intros [= <-]; [| done].
    apply Forall_app. split; [done |]. repeat constructor.
    by eapply join_docs_fits.
  - apply Forall_cons in Hsplits as [Hd Hsplits].
    cbn [merge_loop]. change (separator_len "") with 0.
    assert (Hnext : forall kept,
              total_length kept
              + (len d + (if (1 <? length (kept ++ [d]))%nat then 0 else 0))
              = total_length (kept ++ [d])).
    { intros kept. rewrite total_length_app. unfold total_length. cbn [foldr].
      destruct (1 <? _)%nat; lia. }
    destruct (total_length current_doc + len d + _ >? _chunk_size self) eqn:Hfull;
      destruct (0 <? length current_doc)%nat eqn:Hsome; cbn [andb].
    + destruct (pop_front_keeps_end self overlap_ok (len d) current_doc _ eq_refl)
        as (dropped & kept & Hkept & Hpop).
      rewrite Hpop.
      pose proof (pop_front_stops _ _ _ _ _ Hpop) as Hstop.
      pose proof (total_length_nonneg kept).
      apply IH; [apply Hnext | | done |].
      * destruct (1 <? _)%nat; lia.
      * destruct (_join_docs current_doc "") as [doc|] eqn:Hdoc; [| done].
        apply Forall_app. split; [done |]. repeat constructor.
        by eapply join_docs_fits.
    + destruct current_doc; [| done].
      apply IH; [apply Hnext | | done | done].
      cbn. lia.
    + apply IH; [apply Hnext | | done | done].
      destruct (1 <? _)%nat; lia.
    + apply IH; [apply Hnext | | done | done].
      destruct (1 <? _)%nat; lia.
Qed.

Lemma split_loop_bound recur splits :
  (recur = None -> Forall (fits self) splits) ->
  (forall split_again, recur = Some split_again ->
     forall s chunks, split_again s = Some chunks -> Forall (fits self) chunks) ->
  forall _good_splits final_chunks result,
  Forall (fun d => len d < _chunk_size self) _good_splits ->
  Forall (fits self) final_chunks ->
  split_loop self recur splits _good_splits final_chunks = Some result ->
  Forall (fits self) result.
Proof.
  intros Hkept Hrecur.
  assert (Hflush : forall good final flushed,
    Forall (fun d => len d < _chunk_size self) good ->
    Forall (fits self) final ->
    match good with
    | [] => Some final
    | _ :: _ =>
        match _merge_splits self "" good with
        | Some merged_text => Some (final ++ merged_text)
        | None => None
        end
    end = Some flushed ->
    Forall (fits self) flushed).
  { intros good final flushed Hgood Hfinal. destruct good as [|g good].
    - by intros [= <-].
    - destruct (_merge_splits self "" (g :: good)) as [merged|] eqn:Hmerged;
        intros [= <-].
      apply Forall_app. split; [done |].
      unfold _merge_splits in Hmerged.
      eapply (merge_loop_bound _ [] [] 0); [done | | exact Hgood | done | exact Hmerged].
      apply Forall_cons in Hgood as [Hg _]. cbn. unfold len in *. lia. }
  induction splits as [|s splits IH]; intros good final result Hgood Hfinal.
  - cbn [split_loop]. by apply Hflush.
  - cbn [split_loop]. destruct (len s <? _chunk_size self) eqn:Hs.
    + apply IH; [| | done].
      * intros Hnone. specialize (Hkept Hnone). by apply Forall_cons in Hkept as [_ ?].
      * apply Forall_app. split; [done |]. repeat constructor. lia.
    + match goal with
      | |- context [match ?flush with Some _ => _ | None => _ end] =>
          destruct flush as [flushed|] eqn:Hflushed; [| done]
      end.
      apply Hflush in Hflushed; [| done | done].
      destruct recur as [split_again|].
      * destruct (split_again s) as [other_info|] eqn:Hother; [| done].
        apply IH; [done | done |].
        apply Forall_app. split; [done |]. by eapply Hrecur.
      * specialize (Hkept eq_refl). apply Forall_cons in Hkept as [Hfit Hrest].
        apply IH; [done | done |].
        apply Forall_app. split; [done |]. by repeat constructor.
Qed.

Lemma characters_fit text : 0 < _chunk_size self -> Forall (fits self) (characters text).
Proof.
  intros Hsize. induction text as [|c text IH]; constructor; [| done].
  unfold fits, len. simpl. lia.
Qed.

(** No chunk is longer than the chunk size, when the splitter ends with the
    split between characters. *)
Lemma split_text_bound separators : forall text result,
  0 < _chunk_size self ->
  last separators = Some "" ->
  _split_text self separators text = Some result ->
  Forall (fits self) result.
Proof.
  induction separators as [|_s new_separators IH]; intros text result Hsize Hlast;
    [done |].
  cbn [_split_text]. case_decide as Hs.
  - subst _s. apply split_loop_bound; [| done | done | done].
    intros _. unfold _split_text_with_regex. rewrite decide_True by done.
    apply Forall_forall. intros s [_ Hin]%list_elem_of_filter. revert s Hin.
    apply Forall_forall. by apply characters_fit.
  - destruct new_separators as [|s' rest]; [by simplify_eq/= |].
    assert (Hlast' : last (s' :: rest) = Some "") by done.
    destruct (occurs _s text); [| by apply IH].
    apply split_loop_bound; [done | | done | done].
    intros split_again [= <-] s chunks. by apply IH.
Qed.

(** A text shorter than the chunk size comes back as one chunk. *)
Lemma split_loop_short recur splits :
  Forall (fun d => len d < _chunk_size self) splits ->
  forall _good_splits final_chunks,
  split_loop self recur splits _good_splits final_chunks
  = match _good_splits ++ splits with
    | [] => Some final_chunks
    | _ :: _ =>
        match _merge_splits self "" (_good_splits ++ splits) with
        | Some merged_text => Some (final_chunks ++ merged_text)
        | None => None
        end
    end.
Proof.
  induction splits as [|s splits IH]; intros Hsplits good final.
  - cbn [split_loop]. by rewrite app_nil_r.
  - apply Forall_cons in Hsplits as [Hs Hsplits].
    cbn [split_loop]. replace (len s <? _chunk_size self) with true by lia.
    rewrite IH by done. by rewrite <- app_assoc.
Qed.

Lemma split_text_short separators : forall text,
  separators <> [] ->
  len text < _chunk_size self ->
  _split_text self separators text = Some (single_chunk text).
Proof.
  induction separators as [|_s new_separators IH]; intros text Hseparators Hshort;
    [done |].
  assert (Hwith : forall recur,
    split_loop self recur (_split_text_with_regex text _s) [] []
    = Some (single_chunk text)).
  { intros recur.
    destruct (split_text_with_regex_spec text _s) as [Hjoin _].
    set (splits := _split_text_with_regex text _s) in *.
    assert (Htotal : total_length splits = len text)
      by (by rewrite total_length_join, Hjoin).
    assert (Hsmall : Forall (fun d => len d < _chunk_size self) splits).
    { assert (Hle : total_length splits < _chunk_size self) by lia.
      clear -Hle. revert Hle. induction splits as [|d splits IHs]; intros Hle; [done |].
      cbn [total_length foldr] in Hle. fold (total_length splits) in Hle.
      pose proof (total_length_nonneg splits).
      assert (0 <= len d) by (unfold len; lia).
      constructor; [lia | apply IHs; lia]. }
    rewrite split_loop_short by done. cbn [app].
    unfold single_chunk. destruct splits as [|s0 splits'] eqn:Hsplits.
    { simpl in Hjoin. subst text. by rewrite decide_True. }
    rewrite <- Hsplits in *. unfold _merge_splits.
    rewrite (merge_loop_fits splits [] [] 0) by (cbn [app]; done || lia).
    cbn [app]. unfold _join_docs. rewrite Hjoin. by case_decide. }
  cbn [_split_text]. case_decide; [apply Hwith |].
  destruct (occurs _s text), new_separators; try apply Hwith; by apply IH.
Qed.

End ChunkSizes.

Section ChunkerFacts.

Import TextSplitter GenerateEmbeddings.

(** No chunk is longer than the chunk size.  For every text, every size
    above zero and every overlap from zero to the size, [chunk_text] returns
    chunks of at most [size] characters each. *)
Theorem chunks_fit_the_size text size overlap w :
  0 < size ->
  0 <= overlap <= size ->
  exists chunks w',
    chunk_text text size overlap w = (Returns chunks, w')
    /\ Forall (fun chunk => len chunk <= size) chunks.
Proof.
  intros Hsize Hoverlap. unfold chunk_text.
  case_decide as Htext; [by eexists _, _ |].
  unfold bind, print, new, ret, raise.
  replace (size <=? 0) with false by lia.
  replace (overlap <? 0) with false by lia.
  replace (overlap >? size) with false by lia.
  set (self := {| _chunk_size := size; _chunk_overlap := overlap;
                  _separators := default_separators |}).
  destruct (split_text_pieces self (proj1 Hoverlap) default_separators text
              ltac:(done)) as (chunks & Hrun & _).
  unfold split_text. change (_separators self) with default_separators.
  rewrite Hrun. eexists _, _. split; [reflexivity |].
  by apply (split_text_bound self (proj1 Hoverlap) default_separators text).
Qed.

Lemma chunks_fit_the_size_witness :
  exists chunks w',
    chunk_text "one two three" 5 2 fresh_world = (Returns chunks, w')
    /\ Forall (fun chunk => len chunk <= 5) chunks.
Proof. apply (chunks_fit_the_size "one two three" 5 2 fresh_world); lia. Defined.

(** A text that is shorter than the chunk size is not split: [chunk_text]
    returns the text without the whitespace around it as the only chunk, or
    no chunk when nothing but whitespace is in the text, and it prints the
    parameters and the number of chunks. *)
Theorem short_text_is_one_chunk text size overlap w :
  text <> "" ->
  0 <= overlap <= size ->
  len text < size ->
  exists w',
    chunk_text text size overlap w = (Returns (single_chunk text), w')
    /\ printed w w' [ChunkingText size overlap;
                     SplitIntoChunks (length (single_chunk text))]
    /\ requests w' = requests w.
Proof.
  intros Htext Hoverlap Hshort. unfold chunk_text.
  rewrite decide_False by done.
  unfold bind, print, new, ret, raise.
  assert (0 <= len text) by (unfold len; lia).
  replace (size <=? 0) with false by lia.
  replace (overlap <? 0) with false by lia.
  replace (overlap >? size) with false by lia.
  unfold split_text. cbn [_separators].
  rewrite split_text_short by done.
  eexists. split; [reflexivity |]. split; [| done].
  unfold printed. cbn [console]. by rewrite <- app_assoc.
Qed.

Lemma short_text_is_one_chunk_witness :
  exists w',
    chunk_text "  a b  " 10 2 fresh_world = (Returns ["a b"], w')
    /\ printed fresh_world w' [ChunkingText 10 2; SplitIntoChunks 1].
Proof.
  destruct (short_text_is_one_chunk "  a b  " 10 2 fresh_world
              ltac:(done) ltac:(lia) ltac:(vm_compute; reflexivity))
    as (w' & Hrun & Hprinted & _).
  by exists w'.
Defined.

End ChunkerFacts.

(** * More about generate_embeddings.py: from the PDF to the cache *)

Section PdfFacts.

Import Ingestion.

Variable PdfReader : string -> reply (reply (list (reply string))).

Lemma extract_pages_spec pages : forall page_num text s,
  exists s',
    extract_pages page_num pages text s
    = (Returns (text +:+ pages_text pages), s')
    /\ traffic s' = traffic s
    /\ files s' = files s.
Proof.
  induction pages as [|page pages IH]; intros page_num text s.
  - exists s. unfold pages_text. cbn. by rewrite append_nil_r.
  - cbn [extract_pages]. unfold then_ at 1.
    assert (Hpage : exists s1,
      extract_page page_num page text s
      = (Returns (text +:+ default "" (page_text page)), s1)
      /\ traffic s1 = traffic s /\ files s1 = files s).
    { unfold extract_page, attempt, then_, outcome_of, say, unit_.
      destruct page as [[|c page_text]|e]; cbn; eexists;
        (split; [try rewrite append_nil_r; reflexivity | done]). }
    destruct Hpage as (s1 & -> & Htraffic & Hfiles).
    destruct (IH (page_num + 1)%nat (text +:+ default "" (page_text page)) s1)
      as (s' & -> & Htraffic' & Hfiles').
    exists s'. split; [| by rewrite Htraffic', Hfiles'].
    do 2 f_equal. unfold pages_text.
    change (omap page_text (page :: pages))
      with (match page_text page with
            | Some t => t :: omap page_text pages
            | None => omap page_text pages
            end).
    destruct (page_text page) as [t|]; cbn [default].
    + by rewrite join_empty_cons, append_assoc.
    + by rewrite append_nil_r.
Qed.

Lemma load_pdf_text_result file_path s :
  exists s',
    load_pdf_text PdfReader file_path s
    = (Returns match PdfReader file_path with
               | Answer (Answer pages) => Some (pages_text pages)
               | _ => None
               end, s')
    /\ traffic s' = traffic s
    /\ files s' = files s.
Proof.
  unfold load_pdf_text, attempt, then_ at 1, outcome_of at 1.
  destruct (PdfReader file_path) as [[pages|e]|e].
  - unfold then_, say, outcome_of, unit_. cbn.
    match goal with
    | |- context [extract_pages ?n ?p ?t ?s1] =>
        destruct (extract_pages_spec p n t s1) as (s' & -> & Htraffic & Hfiles)
    end.
    eexists. split; [reflexivity |]. done.
  - unfold then_, say, outcome_of, unit_. cbn.
    case_decide; eexists; (split; [reflexivity | done]).
  - unfold then_, say, unit_.
    case_decide; eexists; (split; [reflexivity | done]).
Qed.

(** [load_pdf_text] returns the texts of the pages in their order, each
    followed by a newline; a page whose extraction fails or gives no text
    adds nothing and does not stop the load.  It returns [None] when the
    reader cannot open the file or count its pages.  It never raises, sends
    no request and writes no file. *)
Theorem load_pdf_text_joins_the_pages file_path s :
  exists s',
    load_pdf_text PdfReader file_path s
    = (Returns match PdfReader file_path with
               | Answer (Answer pages) => Some (pages_text pages)
               | _ => None
               end, s')
    /\ traffic s' = traffic s
    /\ files s' = files s.
Proof. apply load_pdf_text_result. Qed.

End PdfFacts.

Section CacheFacts.

Import Ingestion.

Lemma floats_of_floats e : VectorStore.floats (map PyFloat e) = Some e.
Proof. induction e as [|f e IH]; [done |]. simpl. by rewrite IH. Qed.

Lemma chunk_record_of_record text e :
  chunk_record (record text e) = Some (PyStr text, Some e).
Proof.
  unfold chunk_record, record. cbn [dict_get].
  rewrite decide_True by done. rewrite decide_False by done.
  rewrite decide_True by done. unfold VectorStore.as_vector.
  by rewrite floats_of_floats.
Qed.

Lemma length_omap_le {A B} (f : A -> option B) (l : list A) :
  (length (omap f l) <= length l)%nat.
Proof.
  induction l as [|x l IH]; [done |].
  change (omap f (x :: l))
    with (match f x with Some y => y :: omap f l | None => omap f l end).
  destruct (f x); simpl; lia.
Qed.

Lemma combine_loop_spec text_chunks : forall chunk_embeddings processed_data,
  combine_loop text_chunks chunk_embeddings processed_data
  = processed_data ++ embedded_records text_chunks chunk_embeddings.
Proof.
  unfold embedded_records.
  induction text_chunks as [|text text_chunks IH];
    intros chunk_embeddings processed_data.
  - cbn. by rewrite app_nil_r.
  - destruct chunk_embeddings as [|embedding chunk_embeddings].
    + cbn. by rewrite app_nil_r.
    + cbn [combine_loop]. rewrite IH.
      change (omap embedded_record (zip (text :: text_chunks)
                                      (embedding :: chunk_embeddings)))
        with (match embedded_record (text, embedding) with
              | Some r => r :: omap embedded_record (zip text_chunks chunk_embeddings)
              | None => omap embedded_record (zip text_chunks chunk_embeddings)
              end).
      destruct embedding as [[|f e]|]; cbn [embedded_record]; try done.
      by rewrite <- app_assoc.
Qed.

Lemma embedded_records_elem chunks embeddings item :
  item ∈ embedded_records chunks embeddings
  <-> exists i text e,
        chunks !! i = Some text /\ embeddings !! i = Some (Some e)
        /\ e <> [] /\ item = record text e.
Proof.
  unfold embedded_records. rewrite list_elem_of_omap. split.
  - intros ([text embedding] & [i Hi]%list_elem_of_lookup & Hitem).
    apply lookup_zip_with_Some in Hi as (t & e0 & [= <- <-] & Ht & He).
    destruct embedding as [[|f e]|]; simplify_eq/=.
    by exists i, text, (f :: e).
  - intros (i & text & e & Ht & He & Hne & ->).
    exists (text, Some e). split.
    + apply list_elem_of_lookup. exists i. apply lookup_zip_with_Some.
      by exists text, (Some e).
    + by destruct e.
Qed.

(** The processed data pair each chunk with its own embedding, in the order
    of the chunks: there is one record for each position whose embedding is
    there and not empty, and none for the others.  Each record is a chunk
    record with a text and a vector of floats as the index builder reads
    them. *)
Theorem processed_data_pair_chunks_and_embeddings text_chunks chunk_embeddings :
  let processed_data := combine_loop text_chunks chunk_embeddings [] in
  processed_data = embedded_records text_chunks chunk_embeddings
  /\ (forall item,
        item ∈ processed_data
        <-> exists i text e,
              text_chunks !! i = Some text
              /\ chunk_embeddings !! i = Some (Some e)
              /\ e <> [] /\ item = record text e)
  /\ Forall (fun item =>
               exists text e,
                 chunk_record item = Some (PyStr text, Some e) /\ e <> [])
       processed_data
  /\ (length processed_data <= length text_chunks)%nat.
Proof.
  cbv zeta. rewrite combine_loop_spec. cbn [app].
  split; [done |]. split; [apply embedded_records_elem |]. split.
  - apply Forall_forall. intros item Hitem.
    apply embedded_records_elem in Hitem as (i & text & e & _ & _ & Hne & ->).
    exists text, e. by rewrite chunk_record_of_record.
  - unfold embedded_records.
    etransitivity; [apply length_omap_le |].
    rewrite length_zip_with. lia.
Qed.

Section Saving.

Variable open_wb : string -> option exn.
Variable pickle_dump : pyval -> option exn.

Lemma save_cases data file_path s :
  exists saved s',
    save_data_to_pickle open_wb pickle_dump data file_path s = (Returns saved, s')
    /\ traffic s' = traffic s
    /\ saved = bool_decide (data <> [] /\ open_wb file_path = None
                            /\ pickle_dump (PyList data) = None)
    /\ files s'
       = match data, open_wb file_path, pickle_dump (PyList data) with
         | _ :: _, None, None => <[file_path := Pickled (PyList data)]> (files s)
         | _ :: _, None, Some _ => <[file_path := Damaged]> (files s)
         | _, _, _ => files s
         end.
Proof.
  unfold save_data_to_pickle. destruct data as [|item data].
  - eexists _, _. split; [reflexivity |]. done.
  - unfold then_, attempt, write, say, unit_.
    destruct (open_wb file_path) as [e|]; cbn.
    + eexists _, _. split; [reflexivity |]. done.
    + destruct (pickle_dump (PyList (item :: data))) as [e|]; cbn.
      * eexists _, _. split; [reflexivity |]. done.
      * eexists _, _. split; [reflexivity |]. done.
Qed.

(** [save_data_to_pickle] never raises and sends nothing.  It returns [True]
    exactly when there are data and neither opening the file nor pickling
    raises, and then the file holds the data.  It touches no other file, and
    it leaves the file as it is when there are no data or the file cannot be
    opened. *)
Theorem save_data_to_pickle_outcome data file_path s :
  exists saved s',
    save_data_to_pickle open_wb pickle_dump data file_path s = (Returns saved, s')
    /\ traffic s' = traffic s
    /\ (saved = true
        <-> data <> [] /\ open_wb file_path = None
            /\ pickle_dump (PyList data) = None)
    /\ (saved = true -> files s' !! file_path = Some (Pickled (PyList data)))
    /\ (forall other, other <> file_path -> files s' !! other = files s !! other)
    /\ (data = [] \/ open_wb file_path <> None -> files s' = files s).
Proof.
  destruct (save_cases data file_path s)
    as (saved & s' & Hrun & Htraffic & Hsaved & Hfiles).
  exists saved, s'. split; [done |]. split; [done |].
  split; [by rewrite Hsaved, bool_decide_eq_true |].
  rewrite Hfiles. split; [| split].
  - rewrite Hsaved, bool_decide_eq_true. intros (Hdata & Hopen & Hdump).
    destruct data; [done |]. by rewrite Hopen, Hdump, lookup_insert_eq.
  - intros other Hother.
    destruct data, (open_wb file_path), (pickle_dump _);
      by rewrite ?lookup_insert_ne.
  - intros [-> | Hopen]; [done |].
    destruct data, (open_wb file_path); done.
Qed.

(** The cache that the ingestion saves is one that the index builder loads:
    when [save_data_to_pickle] returns [True] for the processed data, then
    [load_data_from_pickle] of vector_store.py, reading the same path, returns
    these data, and the dimension it reports is the length of the embedding
    of the first record, which is not zero. *)
Theorem saved_cache_is_loadable text_chunks chunk_embeddings s s' w :
  save_data_to_pickle open_wb pickle_dump
    (combine_loop text_chunks chunk_embeddings []) pickle_file_path s
  = (Returns true, s') ->
  exists text e others w',
    combine_loop text_chunks chunk_embeddings [] = record text e :: others
    /\ VectorStore.load_data_from_pickle (unpickled (files s'))
         VectorStore.pickle_file_path w
       = (Returns (Some (PyList (record text e :: others)), length e), w')
    /\ (0 < length e)%nat.
Proof.
  intros Hsave.
  destruct (save_cases (combine_loop text_chunks chunk_embeddings [])
              pickle_file_path s)
    as (saved & s1 & Hrun & _ & Hsaved & Hfiles).
  rewrite Hsave in Hrun. injection Hrun as <- <-.
  symmetry in Hsaved. apply bool_decide_eq_true in Hsaved as (Hdata & Hopen & Hdump).
  pose proof (fun item =>
                proj1 (embedded_records_elem text_chunks chunk_embeddings item))
    as Helem.
  rewrite combine_loop_spec in *. cbn [app] in *.
  destruct (embedded_records text_chunks chunk_embeddings) as [|item others] eqn:Hrecords;
    [done |].
  rewrite Hopen, Hdump in Hfiles.
  destruct (Helem item ltac:(left))
    as (i & text & e & _ & _ & Hne & ->).
  destruct (load_result (unpickled (files s')) VectorStore.pickle_file_path w)
    as (lines & w' & Hload & _).
  exists text, e, others, w'. split; [done |]. split; [| destruct e; simpl; [done | lia]].
  rewrite Hload. do 2 f_equal.
  unfold unpickled. rewrite Hfiles.
  change VectorStore.pickle_file_path with pickle_file_path.
  rewrite lookup_insert_eq. unfold loadable, first_dimension, record, dict_has.
  cbn [dict_get]. rewrite decide_True by done. rewrite decide_False by done.
  rewrite decide_True by done. cbn [sized option_map]. by rewrite length_map.
Qed.

End Saving.

End CacheFacts.

Section ScriptFacts.

Import GenerateEmbeddings Ingestion.

Variable path_exists : string -> bool.
Variable PdfReader : string -> reply (reply (list (reply string))).
Variable OpenAI : reply unit.
Variable embeddings_create : nat -> string -> string -> reply (list embedding).
Variable open_wb : string -> option exn.
Variable pickle_dump : pyval -> option exn.

Let script := main path_exists PdfReader OpenAI embeddings_create open_wb pickle_dump.

(** What [chunk_text] returns does not depend on the world, and it sends
    nothing. *)
Lemma chunk_text_pure text size overlap w :
  fst (chunk_text text size overlap w) = chunks_of text size overlap
  /\ requests (snd (chunk_text text size overlap w)) = requests w.
Proof.
  unfold chunks_of, chunk_text. case_decide; [done |].
  unfold bind, print, TextSplitter.new, ret, raise.
  destruct (size <=? 0); [done |]. destruct (overlap <? 0); [done |].
  destruct (overlap >? size); [done |]. cbn -[TextSplitter.split_text].
  match goal with
  | |- context [TextSplitter.split_text ?self text] =>
      by destruct (TextSplitter.split_text self text)
  end.
Qed.

Lemma lift_chunk_text text size overlap s :
  exists s',
    lift (chunk_text text size overlap) s = (chunks_of text size overlap, s')
    /\ traffic s' = traffic s /\ files s' = files s.
Proof.
  unfold lift.
  match goal with
  | |- context [chunk_text _ _ _ ?w] =>
      destruct (chunk_text_pure text size overlap w) as [Hfst Hsnd];
      destruct (chunk_text text size overlap w) as [r w'] eqn:Hrun
  end.
  cbn in Hfst, Hsnd. subst r. eexists. split; [reflexivity |]. done.
Qed.

(** What the script embeds: one request for each chunk. *)
Lemma lift_embed_and_count text_chunks s :
  let chunks := default [] text_chunks in
  exists s',
    lift (embed_and_count embeddings_create text_chunks) s
    = (Returns (imap (fun i chunk =>
                        embedded embeddings_create embedding_model
                          (length (traffic s) + i) chunk) chunks), s')
    /\ traffic s'
       = traffic s ++ map (fun chunk => EmbeddingsCreate chunk embedding_model) chunks
    /\ files s' = files s.
Proof.
  cbv zeta. unfold lift, embed_and_count.
  destruct text_chunks as [[|chunk chunks]|]; cbn [default imap map];
    try (eexists; split; [reflexivity |]; cbn; by rewrite app_nil_r).
  unfold generate_embeddings, bind, print, ret.
  match goal with
  | |- context [embedding_loop _ _ ?n _ ?all _ ?w1] =>
      destruct (embedding_loop_spec embeddings_create embedding_model n all
                  0%nat [] w1)
        as (lines & w' & Hrun & _ & Hsent & _)
  end.
  rewrite Hrun. unfold requested in Hsent. cbn [app requests] in *.
  eexists. split; [reflexivity |]. by cbn.
Qed.

Lemma chunk_text_returns text size overlap :
  0 < size ->
  0 <= overlap <= size ->
  exists chunks, chunks_of text size overlap = Returns chunks.
Proof.
  intros Hsize Hoverlap. unfold chunks_of, chunk_text.
  case_decide; [by eexists |].
  unfold bind, print, TextSplitter.new, ret, raise.
  replace (size <=? 0) with false by lia.
  replace (overlap <? 0) with false by lia.
  replace (overlap >? size) with false by lia.
  set (self := {| TextSplitter._chunk_size := size;
                  TextSplitter._chunk_overlap := overlap;
                  TextSplitter._separators := TextSplitter.default_separators |}).
  destruct (split_text_pieces self (proj1 Hoverlap)
              TextSplitter.default_separators text ltac:(done))
    as (chunks & Hrun & _).
  unfold TextSplitter.split_text.
  change (TextSplitter._separators self) with TextSplitter.default_separators.
  rewrite Hrun. by eexists.
Qed.

(** When no text comes out of the PDF, the script sends no request and
    writes no file: the cache of an earlier run stays as it is.  The script
    leaves through [exit()] exactly when the PDF is not there. *)
Theorem script_without_text_keeps_the_cache s :
  path_exists pdf_path = false \/ extracted PdfReader pdf_path = None ->
  exists result s',
    script s = (result, s')
    /\ traffic s' = traffic s
    /\ files s' = files s
    /\ (result = Exits <-> path_exists pdf_path = false).
Proof.
  intros Hnone. unfold script, main.
  destruct (path_exists pdf_path) eqn:Hexists.
  - destruct Hnone as [? | Hnone]; [done |].
    unfold then_ at 1, unit_ at 1. unfold then_ at 1.
    destruct (load_pdf_text_result PdfReader pdf_path s)
      as (s1 & -> & Htraffic1 & Hfiles1).
    assert (Hchunks : chunk_pdf_text
                        match PdfReader pdf_path with
                        | Answer (Answer pages) => Some (pages_text pages)
                        | _ => None
                        end s1 = (Returns None, s1)).
    { unfold extracted in Hnone.
      destruct (PdfReader pdf_path) as [[pages|]|]; try done.
      by destruct (pages_text pages). }
    unfold then_ at 1. rewrite Hchunks.
    unfold then_, outcome_of, lift, combine, say, unit_.
    destruct OpenAI as [[]|e]; cbn.
    + eexists _, _. split; [reflexivity |]. by rewrite Htraffic1, Hfiles1.
    + eexists _, _. split; [reflexivity |]. by rewrite Htraffic1, Hfiles1.
  - eexists _, _. split; [reflexivity |]. done.
Qed.

(** When text comes out of the PDF and the client is created, the script
    ends without an error.  It sends one embedding request for each chunk of
    the text, in the order of the chunks, and nothing else.  The cache gets
    the records of the chunks whose request gave a vector that is not empty,
    when there are any and the file can be written; the last line says
    that the data were saved exactly when they were. *)
Theorem script_saves_the_embedded_chunks text s :
  path_exists pdf_path = true ->
  extracted PdfReader pdf_path = Some text ->
  OpenAI = Answer tt ->
  exists chunks s',
    chunks_of text chunk_size chunk_overlap = Returns chunks
    /\ script s = (Returns tt, s')
    /\ traffic s'
       = traffic s ++ map (fun chunk => EmbeddingsCreate chunk embedding_model) chunks
    /\ let data :=
         embedded_records chunks
           (imap (fun i chunk =>
                    embedded embeddings_create embedding_model
                      (length (traffic s) + i) chunk) chunks) in
       files s' = files_after_save open_wb pickle_dump data pickle_file_path (files s)
       /\ (last (output s') = Some DataSaved
           <-> data <> [] /\ open_wb pickle_file_path = None
               /\ pickle_dump (PyList data) = None).
Proof.
  intros Hexists Htext Hclient.
  destruct (chunk_text_returns text chunk_size chunk_overlap ltac:(done) ltac:(done))
    as (chunks & Hchunks).
  exists chunks. unfold script, main. rewrite Hexists, Hclient.
  unfold then_ at 1, unit_ at 1. unfold then_ at 1.
  destruct (load_pdf_text_result PdfReader pdf_path s)
    as (s1 & -> & Htraffic1 & Hfiles1).
  unfold extracted in Htext.
  destruct (PdfReader pdf_path) as [[pages|]|]; try done.
  destruct (pages_text pages) as [|c rest] eqn:Hpages; [done |].
  injection Htext as <-.
  unfold then_ at 1.
  assert (Hchunked : exists s2,
    chunk_pdf_text (Some (String c rest)) s1 = (Returns (Some chunks), s2)
    /\ traffic s2 = traffic s /\ files s2 = files s).
  { unfold chunk_pdf_text. unfold then_ at 1, say at 1.
    unfold then_ at 1, say at 1. unfold then_ at 1.
    match goal with
    | |- context [lift _ ?s0] =>
        destruct (lift_chunk_text (String c rest) chunk_size chunk_overlap s0)
          as (s2 & -> & Htraffic2 & Hfiles2)
    end.
    rewrite Hchunks. cbn [traffic files] in *.
    unfold then_, say, unit_. destruct chunks; cbn;
      eexists; (split; [reflexivity |]); cbn; by rewrite Htraffic2, Hfiles2. }
  destruct Hchunked as (s2 & -> & Htraffic2 & Hfiles2).
  unfold then_ at 1, outcome_of at 1. unfold then_ at 1.
  destruct (lift_embed_and_count (Some chunks) s2) as (s3 & -> & Htraffic3 & Hfiles3).
  cbn [default] in *. rewrite Htraffic2 in *.
  unfold id in *.
  set (chunk_embeddings := imap _ chunks) in *.
  assert (Hlength : length chunks = length chunk_embeddings)
    by (subst chunk_embeddings; by rewrite length_imap).
  unfold then_ at 1.
  destruct chunks as [|chunk chunks].
  { unfold combine, then_, say, unit_. cbn. eexists. split; [done |].
    split; [reflexivity |]. cbn [traffic files output].
    split; [by rewrite Htraffic3 |]. split; [by rewrite Hfiles3 |].
    rewrite last_snoc. split; [done | by intros [? _]]. }
  clearbody chunk_embeddings.
  set (data := embedded_records (chunk :: chunks) chunk_embeddings) in *.
  assert (Hcombine :
    combine (Some (chunk :: chunks)) chunk_embeddings
    = (say (CreatedProcessedData (length data));+; unit_ data)).
  { unfold combine. destruct chunk_embeddings; [done |].
    rewrite decide_True by done. cbv zeta. by rewrite combine_loop_spec. }
  rewrite Hcombine. clear Hcombine.
  unfold then_ at 1, say at 1. unfold unit_ at 1.
  clearbody data. destruct data as [|item others] eqn:Hdata.
  { unfold unit_. eexists. split; [done |]. split; [reflexivity |].
    cbn [traffic files output]. split; [done |]. split; [by rewrite Hfiles3 |].
    rewrite last_snoc. split; [done | by intros [? _]]. }
  rewrite <- Hdata in *. unfold then_ at 1.
  match goal with
  | |- context [save_data_to_pickle _ _ _ _ ?s0] =>
      destruct (save_cases open_wb pickle_dump data pickle_file_path s0)
        as (saved & s4 & -> & Htraffic4 & Hsaved & Hfiles4)
  end.
  cbn [traffic files] in *.
  exists (snd ((if saved then say DataSaved else say FailedToSave) s4)).
  split; [done |]. split; [by destruct saved |].
  split; [by destruct saved; cbn; rewrite Htraffic4 |].
  split; [destruct saved; cbn; by rewrite Hfiles4, Hfiles3, Hfiles2 |].
  etransitivity; [| apply bool_decide_eq_true]. rewrite <- Hsaved.
  destruct saved; cbn; rewrite last_snoc; split; done.
Qed.

End ScriptFacts.

(** * The two scripts in a row *)

Section Pipeline.

Import VectorStore.

Variable qdrant_host : string.
Variable qdrant_port : Z.
Variable fault : nat -> option exn.
Variable uuid4 : nat -> string.
Variable vectors_config_size : collection -> reply nat.

Lemma survivor_of_record D text e :
  length e = D -> survivor D (Ingestion.record text e) = Some (PyStr text, e).
Proof.
  intros <-. unfold survivor. by rewrite chunk_record_of_record, Nat.eqb_refl.
Qed.

Lemma survivors_all D items :
  Forall (fun item => is_Some (survivor D item)) items ->
  length (survivors D items) = length items.
Proof.
  unfold survivors. induction 1 as [|item items [r Hr] _ IH]; [done |].
  change (omap (survivor D) (item :: items))
    with (match survivor D item with
          | Some r => r :: omap (survivor D) items
          | None => omap (survivor D) items
          end).
  rewrite Hr. simpl. by rewrite IH.
Qed.

(** The index builder indexes what the ingestion cached.  When the cache
    holds the records that the ingestion makes of chunks and their
    embeddings, all vectors have the same length, every request to Qdrant
    goes through and [uuid4] never repeats itself, then the script of
    vector_store.py ends normally, the collection has the dimension of the
    vectors and one point for each record, and each chunk that was embedded
    is stored with its own vector and with its text as the payload. *)
Theorem cached_chunks_are_indexed chunks embeddings D files w :
  files !! Ingestion.pickle_file_path
  = Some (Ingestion.Pickled (PyList (embedded_records chunks embeddings))) ->
  embedded_records chunks embeddings <> [] ->
  (forall e, Some e ∈ embeddings -> length e = D) ->
  (forall n, fault n = None) ->
  (forall j k, uuid4 j = uuid4 k -> j = k) ->
  exists w' stored,
    main qdrant_host qdrant_port (unpickled files) fault uuid4
      vectors_config_size w
    = (Returns tt, w')
    /\ qdrant w'
       = <[collection_name :=
             {| vectors_size := D; vectors_distance := COSINE;
                stored_points := stored |}]> (qdrant w)
    /\ size stored = length (embedded_records chunks embeddings)
    /\ (forall i text e,
          chunks !! i = Some text ->
          embeddings !! i = Some (Some e) ->
          exists id, stored !! id = Some (e, [("text", PyStr text)])).
Proof.
  intros Hfile Hsome Hsame Hfault Hinj.
  set (items := embedded_records chunks embeddings) in *.
  assert (Hitems : Forall (fun item =>
                             exists text e,
                               item = Ingestion.record text e
                               /\ length e = D /\ e <> []) items).
  { apply Forall_forall. intros item Hitem.
    apply embedded_records_elem in Hitem as (i & text & e & _ & He & Hne & ->).
    exists text, e. split; [done |]. split; [| done].
    apply Hsame. by eapply list_elem_of_lookup_2. }
  assert (Hpositive : (0 < D)%nat).
  { destruct items as [|item others]; [done |].
    apply Forall_cons in Hitems as [(text & e & _ & <- & Hne) _].
    destruct e; simpl; [done | lia]. }
  assert (Hload : loadable (unpickled files pickle_file_path)
                  = Some (PyList items, D)).
  { unfold unpickled. change pickle_file_path with Ingestion.pickle_file_path.
    rewrite Hfile. destruct items as [|item others]; [done |].
    apply Forall_cons in Hitems as [(text & e & -> & <- & _) _].
    unfold loadable, first_dimension, Ingestion.record, dict_has.
    cbn [dict_get]. rewrite decide_True by done. rewrite decide_False by done.
    rewrite decide_True by done. cbn [sized option_map]. by rewrite length_map. }
  assert (Hrecords : Forall (fun item => is_Some (chunk_record item)) items).
  { eapply Forall_impl; [exact Hitems |]. intros item (text & e & -> & _).
    by rewrite chunk_record_of_record. }
  destruct (main_rebuild_result qdrant_host qdrant_port (unpickled files) fault
              uuid4 vectors_config_size Hfault items D w Hload Hrecords Hinj)
    as (w' & stored & Hrun & Hqdrant & Hsize & Hstored & _).
  exists w', stored. split; [done |]. split; [done |]. split.
  - rewrite Hsize. apply survivors_all.
    eapply Forall_impl; [exact Hitems |]. intros item (text & e & -> & He & _).
    by rewrite survivor_of_record.
  - intros i text e Htext He.
    assert (Hne : e <> []).
    { intros ->. specialize (Hsame [] ltac:(by eapply list_elem_of_lookup_2)).
      simpl in Hsame. lia. }
    assert (Hin : (PyStr text, e) ∈ survivors D items).
    { unfold survivors. apply list_elem_of_omap.
      exists (Ingestion.record text e). split.
      - apply embedded_records_elem. by exists i, text, e.
      - apply survivor_of_record. apply Hsame. by eapply list_elem_of_lookup_2. }
    apply list_elem_of_lookup in Hin as (k & Hk).
    exists (uuid4 (drawn w + k)).
    apply (Hstored (indexed_point uuid4 (drawn w + k) (PyStr text, e))).
    apply list_elem_of_lookup. exists k. by rewrite list_lookup_imap, Hk.
Qed.

End Pipeline.

(** * More about rag_tool.py: outages *)

Section RagToolOutage.

Import Retrieval RagTool.

Variable embeddings_create : nat -> string -> string -> reply (list embedding).
Variable query_points :
  nat -> string -> embedding -> Z -> bool -> reply (list ScoredPoint).
Variable chat_completions_create :
  nat -> string -> list chat_message -> float -> reply (list (option string)).

(** An outage during retrieval is answered like a search without results.
    When the query is empty, the embedding request gives no vector, or the
    request to the index fails, [generate_answer] returns "No relevant
    information found in the context." and not the error string, and the
    chat model is not asked: at most the two requests of the retrieval are
    sent. *)
Theorem generate_answer_reports_no_information query top_k w :
  query = ""
  \/ embedded embeddings_create embedding_model (length (requests w)) query = None
  \/ (exists v e,
        embedded embeddings_create embedding_model (length (requests w)) query
        = Some v
        /\ query_points (S (length (requests w))) collection_name v top_k true
           = Failure e) ->
  exists w' sent,
    generate_answer embeddings_create query_points chat_completions_create
      query top_k w
    = (Returns "No relevant information found in the context.", w')
    /\ requested w w' sent
    /\ (length sent <= 2)%nat
    /\ Forall (fun r => match r with
                        | ChatCompletionsCreate _ _ _ => False
                        | _ => True
                        end) sent.
Proof.
  intros Houtage.
  unfold generate_answer, answer_from_context, retrieve_relevant_chunks,
    embed_and_search, embedded, requested in *.
  unfold try_except, bind, call, first_item, print, ret, raise, sent.
  case_decide as Hquery.
  { exists (snd (print QueryTextEmpty w)), []. cbn.
    split; [done |]. split; [by rewrite app_nil_r |]. split; [lia | done]. }
  destruct Houtage as [? | [Hembedding | (v & e & Hembedding & Hindex)]];
    [done | |]; cbn [requests] in *.
  - destruct (embeddings_create _ _ _) as [[|v data]|e]; [| done |];
      eexists _, [_]; cbn; (split; [reflexivity |]);
      (split; [reflexivity |]); split; [lia | by repeat constructor
                                       | lia | by repeat constructor].
  - destruct (embeddings_create _ _ _) as [[|v' data]|e']; try done.
    injection Hembedding as ->. cbn. rewrite length_app, Nat.add_1_r.
    cbn [length]. rewrite Hindex. cbn.
    eexists _, [_; _]. split; [reflexivity |]. cbn.
    split; [by rewrite <- app_assoc |]. split; [lia | by repeat constructor].
Qed.

End RagToolOutage.

(** * More about vector_store.py: a record without text *)

Section BrokenRecord.

Import VectorStore.

Variable qdrant_host : string.
Variable qdrant_port : Z.
Variable fickling_load : string -> option (reply pyval).
Variable fault : nat -> option exn.
Variable uuid4 : nat -> string.
Variable vectors_config_size : collection -> reply nat.

Hypothesis no_fault : forall n, fault n = None.

(** The loop over a list in two parts is the loop over the first part, then
    over the second. *)
Lemma prepare_points_app D a b : forall i points_to_upsert w,
  prepare_points uuid4 D i (a ++ b) points_to_upsert w
  = (let* points := prepare_points uuid4 D i a points_to_upsert in
     prepare_points uuid4 D (i + length a) b points) w.
Proof.
  induction a as [|item a IH]; intros i points w.
  - cbn. by rewrite Nat.add_0_r.
  - cbn [app prepare_points length].
    replace (i + S (length a))%nat with (i + 1 + length a)%nat by lia.
    unfold bind in *.
    destruct (invalid_embedding D item w) as [[[|]|e|] w1]; [| | done | done].
    + unfold print. apply IH.
    + destruct (new_uuid uuid4 w1) as [[id|e|] w2]; [| done ..].
      destruct (py_getitem item "embedding" w2) as [[vector|e|] w3]; [| done ..].
      destruct (py_getitem item "text" w3) as [[text|e|] w4]; [| done ..].
      destruct (new_point id vector [("text", text)] w4) as [[point|e|] w5];
        [| done ..].
      apply IH.
Qed.

(** Reading the text of a record that has none raises. *)
Lemma prepare_points_broken D d l rest i points_to_upsert w :
  dict_get "text" d = None ->
  dict_get "embedding" d = Some (PyList l) ->
  length l = D ->
  exists w',
    prepare_points uuid4 D i (PyDict d :: rest) points_to_upsert w
    = (Raises (KeyError "text"), w')
    /\ requests w' = requests w
    /\ qdrant w' = qdrant w.
Proof.
  intros Htext Hembedding Hlength. cbn [prepare_points].
  unfold bind, invalid_embedding, bind, py_get, py_getitem, py_len, new_uuid,
    ret, raise.
  rewrite Hembedding. cbn [default]. rewrite Hlength, Nat.eqb_refl. cbn [negb].
  rewrite Htext. eexists. split; [reflexivity |]. done.
Qed.

(** The collection is recreated before the records are read.  When a record
    after the first has an embedding of the cache's dimension but no text,
    reading its text raises [KeyError] and nothing catches it: the script
    stops with the error after the collection was recreated, so the
    collection is left empty and no point was sent, also not those of the
    records before the broken one. *)
Theorem record_without_text_leaves_the_collection_empty prefix d l rest D w :
  loadable (fickling_load pickle_file_path)
  = Some (PyList (prefix ++ PyDict d :: rest), D) ->
  Forall (fun item => is_Some (chunk_record item)) prefix ->
  dict_get "text" d = None ->
  dict_get "embedding" d = Some (PyList l) ->
  length l = D ->
  exists w',
    main qdrant_host qdrant_port fickling_load fault uuid4 vectors_config_size w
    = (Raises (KeyError "text"), w')
    /\ qdrant w'
       = <[collection_name :=
             {| vectors_size := D; vectors_distance := COSINE;
                stored_points := ∅ |}]> (qdrant w)
    /\ requested w w'
         [QdrantConnect qdrant_host qdrant_port;
          RecreateCollection collection_name D COSINE].
Proof.
  intros Hload Hprefix Htext Hembedding Hlength.
  destruct (main_after_load qdrant_host qdrant_port fickling_load fault uuid4
              vectors_config_size w)
    as (lines & w1 & _ & Hrequests1 & Hqdrant1 & _ & ->).
  rewrite Hload.
  unfold bind at 1, connect, bind at 1, print at 1, try_except, bind at 1,
    qdrant_call at 1. rewrite no_fault.
  unfold print at 1. unfold bind at 1, create_collection, try_except,
    bind at 1, print at 1, bind at 1, qdrant_call at 1. rewrite no_fault.
  unfold server_recreate_collection, print at 1.
  unfold upsert_data, bind at 1, py_items, ret at 1, bind at 1.
  rewrite prepare_points_app. unfold bind at 1.
  match goal with
  | |- context [prepare_points _ _ _ prefix _ ?w2] =>
      destruct (prepare_points_spec uuid4 D prefix 0%nat [] w2 Hprefix)
        as (w3 & -> & _ & Hrequests3 & Hqdrant3 & _)
  end.
  cbn [app requests qdrant] in *.
  match goal with
  | |- context [prepare_points _ _ ?i (PyDict d :: rest) ?points ?w4] =>
      destruct (prepare_points_broken D d l rest i points w4
                  Htext Hembedding Hlength)
        as (w5 & -> & Hrequests5 & Hqdrant5)
  end.
  exists w5. split; [reflexivity |].
  split; [by rewrite Hqdrant5, Hqdrant3, Hqdrant1 |].
  unfold requested. by rewrite Hrequests5, Hrequests3, Hrequests1, <- app_assoc.
Qed.

End BrokenRecord.

(** * Runs of the scenarios *)

Lemma serial_uuid_inj j k : serial_uuid j = serial_uuid k -> j = k.
Proof.
  unfold serial_uuid. intros H. simpl in H. injection H as H.
  by apply pretty_nat_inj in H.
Qed.


Lemma generate_answer_asks_with_context_witness :
  exists w',
    RagTool.generate_answer one_vector (index_of two_points) answers_1236
      "How many samples are there?" 3 fresh_world = (Returns "1236", w').
Proof.
  pose proof (generate_answer_asks_with_context one_vector (index_of two_points)
                answers_1236 "How many samples are there?" 3 fresh_world
                [ {| Retrieval.text := PyStr "DeltaBench has 1236 samples.";
                     Retrieval.score := 0.875%float |} ]
                (snd (Retrieval.retrieve_relevant_chunks one_vector
                        (index_of two_points) "How many samples are there?" 3
                        fresh_world))
                ["DeltaBench has 1236 samples."]
                eq_refl ltac:(discriminate) eq_refl) as H.
  cbv zeta in H. destruct H as (answer & w' & prompt & Hrun & _ & _ & _ & Hanswer).
  exists w'. simpl in Hanswer. by rewrite Hrun, Hanswer.
Defined.

Lemma generate_answer_needs_string_texts_witness :
  exists w',
    RagTool.generate_answer one_vector (index_of [number_point]) answers_1236
      "How many samples are there?" 3 fresh_world
    = (Returns "An error occurred while generating the answer.", w')
    /\ requests w' = [EmbeddingsCreate "How many samples are there?"
                        Retrieval.embedding_model;
                      QueryPoints Retrieval.collection_name
                        [0.5%float; 0.25%float] 3 true].
Proof.
  destruct (generate_answer_needs_string_texts one_vector
              (index_of [number_point]) answers_1236
              "How many samples are there?" 3 fresh_world
              [ {| Retrieval.text := PyInt 1236; Retrieval.score := 0.5%float |} ]
              (snd (Retrieval.retrieve_relevant_chunks one_vector
                      (index_of [number_point]) "How many samples are there?" 3
                      fresh_world))
              eq_refl eq_refl)
    as (e & w' & Hrun & _ & _ & Hrequests).
  exists w'. split; [exact Hrun |]. by rewrite Hrequests.
Defined.

Lemma generate_embeddings_reports_each_chunk_witness :
  exists embeddings w',
    GenerateEmbeddings.generate_embeddings second_fails ["a"; "b"; "c"]
      GenerateEmbeddings.embedding_model fresh_world = (Returns embeddings, w')
    /\ printed fresh_world w'
         [EmbeddingBanner;
          GeneratingEmbeddings 3 GenerateEmbeddings.embedding_model;
          GeneratedEmbedding 1 3; ErrorGeneratingEmbedding 2 unreachable;
          GeneratedEmbedding 3 3; EmbeddingComplete].
Proof.
  apply (generate_embeddings_reports_each_chunk second_fails ["a"; "b"; "c"]
           GenerateEmbeddings.embedding_model fresh_world).
  discriminate.
Defined.

Lemma loaded_cache_has_a_valid_point_witness :
  exists first others text e,
    three_records = first :: others
    /\ survivor 2 first = Some (text, e)
    /\ survivors 2 three_records <> [].
Proof.
  apply (loaded_cache_has_a_valid_point
           (fun _ => Some (Answer (PyList three_records)))
           VectorStore.pickle_file_path fresh_world three_records 2%nat).
  - reflexivity.
  - repeat constructor; eexists; reflexivity.
Defined.

Lemma main_stops_without_cache_witness :
  exists w',
    VectorStore.main "localhost" 6333 (fun _ => None) (fun _ => None) serial_uuid
      (fun existing => Answer (vectors_size existing)) fresh_world
    = (Exits, w')
    /\ requests w' = [].
Proof.
  destruct (main_stops_without_cache "localhost" 6333 (fun _ => None)
              (fun _ => None) serial_uuid
              (fun existing => Answer (vectors_size existing)) fresh_world
              eq_refl)
    as (w' & Hrun & Hrequests & _).
  by exists w'.
Defined.

Lemma main_stops_when_unreachable_witness :
  exists w',
    VectorStore.main "localhost" 6333
      (fun _ => Some (Answer (PyList three_records)))
      (fun _ => Some unreachable) serial_uuid
      (fun existing => Answer (vectors_size existing)) fresh_world
    = (Exits, w')
    /\ qdrant w' = ∅.
Proof.
  destruct (main_stops_when_unreachable "localhost" 6333
              (fun _ => Some (Answer (PyList three_records)))
              (fun _ => Some unreachable) serial_uuid
              (fun existing => Answer (vectors_size existing)) fresh_world
              (PyList three_records) 2%nat unreachable eq_refl eq_refl)
    as (w' & Hrun & _ & Hqdrant & _).
  by exists w'.
Defined.

Lemma main_rebuilds_the_collection_witness :
  exists w' (stored : gmap string (embedding * list (string * pyval))),
    VectorStore.main "localhost" 6333
      (fun _ => Some (Answer (PyList three_records)))
      (fun _ => None) serial_uuid
      (fun existing => Answer (vectors_size existing)) fresh_world
    = (Returns tt, w')
    /\ size stored = 1%nat
    /\ stored !! "id-0"
       = Some ([0.5%float; 0.25%float], [("text", PyStr "first chunk")]).
Proof.
  destruct (main_rebuilds_the_collection "localhost" 6333
              (fun _ => Some (Answer (PyList three_records)))
              (fun _ => None) serial_uuid
              (fun existing => Answer (vectors_size existing))
              (fun _ => eq_refl) three_records 2%nat fresh_world eq_refl)
    as (w' & stored & Hrun & _ & Hsize & Hstored & _).
  - repeat constructor; eexists; reflexivity.
  - exact serial_uuid_inj.
  - exists w', stored. split; [exact Hrun |]. split; [exact Hsize |].
    apply (Hstored {| point_id := "id-0";
                      point_vector := [0.5%float; 0.25%float];
                      point_payload := [("text", PyStr "first chunk")] |}).
    left.
Defined.

Lemma saved_cache_is_loadable_witness :
  exists text e others w',
    VectorStore.load_data_from_pickle
      (unpickled
         (Ingestion.files
            (snd (Ingestion.save_data_to_pickle (fun _ => None) (fun _ => None)
                    (Ingestion.combine_loop ["a"] [Some [0.5%float; 0.25%float]] [])
                    Ingestion.pickle_file_path fresh_machine))))
      VectorStore.pickle_file_path fresh_world
    = (Returns (Some (PyList (Ingestion.record text e :: others)), length e), w')
    /\ (0 < length e)%nat.
Proof.
  destruct (saved_cache_is_loadable (fun _ => None) (fun _ => None)
              ["a"] [Some [0.5%float; 0.25%float]] fresh_machine
              (snd (Ingestion.save_data_to_pickle (fun _ => None) (fun _ => None)
                      (Ingestion.combine_loop ["a"]
                         [Some [0.5%float; 0.25%float]] [])
                      Ingestion.pickle_file_path fresh_machine))
              fresh_world eq_refl)
    as (text & e & others & w' & _ & Hload & Hpositive).
  by exists text, e, others, w'.
Defined.

Lemma script_without_text_keeps_the_cache_witness :
  exists result s',
    Ingestion.main (fun _ => false) four_pages (Answer tt) one_vector
      (fun _ => None) (fun _ => None) fresh_machine = (result, s')
    /\ Ingestion.traffic s' = []
    /\ Ingestion.files s' = ∅.
Proof.
  destruct (script_without_text_keeps_the_cache (fun _ => false) four_pages
              (Answer tt) one_vector (fun _ => None) (fun _ => None)
              fresh_machine (or_introl eq_refl))
    as (result & s' & Hrun & Htraffic & Hfiles & _).
  by exists result, s'.
Defined.

Lemma script_saves_the_embedded_chunks_witness :
  exists chunks s',
    Ingestion.main (fun _ => true) four_pages (Answer tt) one_vector
      (fun _ => None) (fun _ => None) fresh_machine = (Returns tt, s')
    /\ Ingestion.traffic s'
       = map (fun chunk => EmbeddingsCreate chunk GenerateEmbeddings.embedding_model)
           chunks.
Proof.
  destruct (script_saves_the_embedded_chunks (fun _ => true) four_pages
              (Answer tt) one_vector (fun _ => None) (fun _ => None)
              ("first page" +:+ nl +:+ "last page" +:+ nl) fresh_machine
              eq_refl eq_refl eq_refl)
    as (chunks & s' & _ & Hrun & Htraffic & _).
  exists chunks, s'. split; [exact Hrun | exact Htraffic].
Defined.

Lemma cached_chunks_are_indexed_witness :
  exists w' (stored : gmap string (embedding * list (string * pyval))),
    VectorStore.main "localhost" 6333
      (unpickled
         {[ Ingestion.pickle_file_path :=
              Ingestion.Pickled
                (PyList (embedded_records ["a"; "b"]
                           [Some [0.5%float; 0.25%float]; None])) ]})
      (fun _ => None) serial_uuid
      (fun existing => Answer (vectors_size existing)) fresh_world
    = (Returns tt, w')
    /\ size stored = 1%nat
    /\ exists id, stored !! id = Some ([0.5%float; 0.25%float], [("text", PyStr "a")]).
Proof.
  destruct (cached_chunks_are_indexed "localhost" 6333 (fun _ => None) serial_uuid
              (fun existing => Answer (vectors_size existing))
              ["a"; "b"] [Some [0.5%float; 0.25%float]; None] 2%nat
              {[ Ingestion.pickle_file_path :=
                   Ingestion.Pickled
                     (PyList (embedded_records ["a"; "b"]
                                [Some [0.5%float; 0.25%float]; None])) ]}
              fresh_world)
    as (w' & stored & Hrun & _ & Hsize & Hstored).
  - apply lookup_singleton_eq.
  - discriminate.
  - intros e He. apply elem_of_cons in He as [He | He]; [by simplify_eq |].
    apply list_elem_of_singleton in He. discriminate He.
  - done.
  - exact serial_uuid_inj.
  - exists w', stored. split; [exact Hrun |]. split; [exact Hsize |].
    by apply (Hstored 0%nat "a").
Defined.

Lemma generate_answer_reports_no_information_witness :
  exists w',
    RagTool.generate_answer (fun _ _ _ => Failure unreachable)
      (index_of two_points) answers_1236 "How many samples are there?" 3
      fresh_world
    = (Returns "No relevant information found in the context.", w').
Proof.
  destruct (generate_answer_reports_no_information
              (fun _ _ _ => Failure unreachable) (index_of two_points)
              answers_1236 "How many samples are there?" 3 fresh_world
              (or_intror (or_introl eq_refl)))
    as (w' & sent & Hrun & _).
  by exists w'.
Defined.

Lemma record_without_text_leaves_the_collection_empty_witness :
  exists w',
    VectorStore.main "localhost" 6333
      (fun _ => Some (Answer cache_with_broken_record))
      (fun _ => None) serial_uuid
      (fun existing => Answer (vectors_size existing)) world_with_old_collection
    = (Raises (KeyError "text"), w')
    /\ qdrant w' !! VectorStore.collection_name
       = Some {| vectors_size := 2; vectors_distance := COSINE;
                 stored_points := ∅ |}.
Proof.
  destruct (record_without_text_leaves_the_collection_empty "localhost" 6333
              (fun _ => Some (Answer cache_with_broken_record))
              (fun _ => None) serial_uuid
              (fun existing => Answer (vectors_size existing))
              (fun _ => eq_refl)
              [cache_record "first chunk" [0.5%float; 0.25%float]]
              embedding_only [PyFloat 0.5%float; PyFloat 0.25%float] [] 2%nat
              world_with_old_collection eq_refl)
    as (w' & Hrun & Hqdrant & _).
  - repeat constructor; eexists; reflexivity.
  - reflexivity.
  - reflexivity.
  - reflexivity.
  - exists w'. split; [exact Hrun |]. rewrite Hqdrant. apply lookup_insert_eq.
Defined.
